(** * kube-dump: the resource normalizer, the manifest writer, the dump
    loops and the archive rotation of [kube-dump.py], embedded in Rocq.

    Python objects live in a store: a [dict] is an object with an identity,
    variables and dictionary slots hold references to it, and [pop] and item
    assignment update it in place.  Functions of the program are written in
    a state-and-exception monad over that store, the file system and the
    log, one monadic line per source line. *)

From stdpp Require Import base list strings gmap.
From Stdlib Require Import ZArith Ascii.

Set Warnings "-register-all".

Open Scope list_scope.

(** ** Values and the object store *)

(** A location names a dict object. *)
Abbreviation loc := nat.

(** The values a decoded API response is made of.  Numbers are integers
    (floating point is not modelled); a list holds its elements and is never
    updated by the program; a dict is held by reference. *)
Inductive pyval :=
  | VNone
  | VBool (b : bool)
  | VInt (n : Z)
  | VStr (s : string)
  | VList (xs : list pyval)
  | VRef (l : loc).

(** The content of a dict object: its items in insertion order. *)
Abbreviation dict := (list (string * pyval)).

(** The store: the dict at location [l] is the [l]-th element. *)
Abbreviation heap := (list dict).

(** [k in d] and [d.get(k)] *)
Fixpoint dict_get (k : string) (d : dict) : option pyval :=
  match d with
  | [] => None
  | (k', v) :: d' => if decide (k' = k) then Some v else dict_get k d'
  end.

Definition dict_contains (k : string) (d : dict) : bool :=
  match dict_get k d with Some _ => true | None => false end.

(** [d.pop(k, None)]: the item of key [k] goes, the others keep their order. *)
Definition dict_pop (k : string) (d : dict) : dict :=
  filter (λ kv, kv.1 ≠ k) d.

(** [d[k] = v]: an existing key keeps its position, a new one goes last. *)
Fixpoint dict_set (k : string) (v : pyval) (d : dict) : dict :=
  match d with
  | [] => [(k, v)]
  | (k', v') :: d' =>
      if decide (k' = k) then (k, v) :: d' else (k', v') :: dict_set k v d'
  end.

Definition dict_keys (d : dict) : list string := d.*1.

(** ** Paths ([pathlib.PurePosixPath]) *)

(** The root of a path: none (relative), [/], or the [//] that POSIX keeps
    apart when a path starts with exactly two slashes. *)
Inductive anchor := Relative | Root | Root2.

Record ppath := PPath { p_anchor : anchor; p_parts : list string }.

Global Instance anchor_eq_dec : EqDecision anchor.
Proof. solve_decision. Defined.

Global Instance ppath_eq_dec : EqDecision ppath.
Proof. solve_decision. Defined.

Definition anchor_code (a : anchor) : nat :=
  match a with Relative => 0%nat | Root => 1%nat | Root2 => 2%nat end.

Definition anchor_of_code (n : nat) : anchor :=
  match n with 0%nat => Relative | 1%nat => Root | _ => Root2 end.

Global Instance ppath_countable : Countable ppath.
Proof.
  refine (inj_countable'
            (λ p, (anchor_code (p_anchor p), p_parts p))
            (λ c, PPath (anchor_of_code c.1) c.2) _).
  by intros [[] ?].
Defined.

(** Splitting a string at every [/]. *)
Fixpoint split_slash (acc : string) (s : string) : list string :=
  match s with
  | EmptyString => [String.rev acc]
  | String c s' =>
      if decide (c = "/"%char) then String.rev acc :: split_slash "" s'
      else split_slash (String c acc) s'
  end.

Fixpoint leading_slashes (s : string) : nat :=
  match s with
  | String c s' => if decide (c = "/"%char) then S (leading_slashes s') else 0%nat
  | EmptyString => 0%nat
  end.

(** How pathlib reads one argument: the root, and the components without
    the empty ones and without ["."]. *)
Definition parse_segment (s : string) : anchor * list string :=
  (match leading_slashes s with
   | 0%nat => Relative
   | 2%nat => Root2
   | _ => Root
   end,
   filter (λ c, c ≠ "" ∧ c ≠ ".") (split_slash "" s)).

(** [p / s]: a segment with a root of its own replaces [p]. *)
Definition joinpath (p : ppath) (s : string) : ppath :=
  match parse_segment s with
  | (Relative, cs) => PPath (p_anchor p) (p_parts p ++ cs)
  | (a, cs) => PPath a cs
  end.

Notation "p // s" := (joinpath p s) (at level 40, left associativity).

(** [p.parent] *)
Definition parent (p : ppath) : ppath :=
  PPath (p_anchor p) (removelast (p_parts p)).

(** [p.name] *)
Definition path_name (p : ppath) : string := default "" (last (p_parts p)).

(** ** The file system, the log and the exceptions *)

(** What [yaml.dump] is handed: the mapping, whose keys it writes in the
    mapping's own order ([sort_keys=False]), and the objects it refers to. *)
Record document := Document { doc_top : dict; doc_store : heap }.

Inductive node :=
  | Dir
  | File (content : document).

(** The file system maps the paths that exist to what is there; the roots
    and the current directory always exist. *)
Abbreviation filesystem := (gmap ppath node).

Definition node_at (fs : filesystem) (p : ppath) : option node :=
  match p_parts p with
  | [] => Some Dir
  | _ => fs !! p
  end.

Inductive level := DEBUG | INFO | WARNING | ERROR.

Abbreviation log_entry := (level * string)%type.

Inductive errno := ENOENT | EEXIST | ENOTDIR | EISDIR.

(** The exceptions below [Exception] that the modelled code meets. *)
Inductive exn :=
  | ApiException (status : Z)
  | AttributeError
  | TypeError
  | OSError (e : errno)
  | OtherException (what : string).

Record world := World {
  w_heap : heap;
  w_fs : filesystem;
  w_log : list log_entry
}.

(** ** The monad: state, and exceptions that keep the state reached *)

Inductive result (A : Type) :=
  | Ok (a : A)
  | Raise (e : exn).
Arguments Ok {A} a.
Arguments Raise {A} e.

Definition M (A : Type) : Type := world → world * result A.

Global Instance M_ret : MRet M := λ A a w, (w, Ok a).

Global Instance M_bind : MBind M := λ A B f m w,
  match m w with
  | (w', Ok a) => f a w'
  | (w', Raise e) => (w', Raise e)
  end.

(** The same for a computation without state. *)
Global Instance result_ret : MRet result := λ A a, Ok a.

Global Instance result_bind : MBind result := λ A B f r,
  match r with
  | Ok a => f a
  | Raise e => Raise e
  end.

Definition raise {A} (e : exn) : M A := λ w, (w, Raise e).

(** [try: m  except Exception as e: handler e] *)
Definition try_except {A} (m : M A) (handler : exn → M A) : M A := λ w,
  match m w with
  | (w', Ok a) => (w', Ok a)
  | (w', Raise e) => handler e w'
  end.

Definition get_heap : M heap := λ w, (w, Ok (w_heap w)).
Definition put_heap (h : heap) : M unit :=
  λ w, (World h (w_fs w) (w_log w), Ok ()).
Definition get_fs : M filesystem := λ w, (w, Ok (w_fs w)).
Definition put_fs (fs : filesystem) : M unit :=
  λ w, (World (w_heap w) fs (w_log w), Ok ()).

(** [logger.<level>(msg)] *)
Definition log (lv : level) (msg : string) : M unit :=
  λ w, (World (w_heap w) (w_fs w) (w_log w ++ [(lv, msg)]), Ok ()).

(** [pass], and falling off the end of a block *)
Definition pass : M unit := mret ().

(** [for x in xs: body x] *)
Fixpoint for_each {A} (xs : list A) (body : A → M unit) : M unit :=
  match xs with
  | [] => pass
  | x :: xs' => body x;; for_each xs' body
  end.

(** ** Dict methods on values *)

(** [{}] *)
Definition new_dict : M pyval :=
  h ← get_heap; put_heap (h ++ [[]]);; mret (VRef (length h)).

(** [v.pop(k, None)].  A list has a [pop] of one argument; the other values
    have none. *)
Definition py_pop (v : pyval) (k : string) : M unit :=
  match v with
  | VRef l =>
      h ← get_heap;
      match h !! l with
      | Some d => put_heap (<[l := dict_pop k d]> h)
      | None => raise AttributeError
      end
  | VList _ => raise TypeError
  | _ => raise AttributeError
  end.

(** [v.get(k)] *)
Definition py_get (v : pyval) (k : string) : M pyval :=
  match v with
  | VRef l =>
      h ← get_heap;
      match h !! l with
      | Some d => mret (default VNone (dict_get k d))
      | None => raise AttributeError
      end
  | _ => raise AttributeError
  end.

(** [v.get(k, {})].  Python builds the default before the call; when the key
    is there the fresh dict is unreachable at once, so it is allocated here
    only when it is the answer. *)
Definition py_get_or_new (v : pyval) (k : string) : M pyval :=
  match v with
  | VRef l =>
      h ← get_heap;
      match h !! l with
      | Some d =>
          match dict_get k d with
          | Some x => mret x
          | None => new_dict
          end
      | None => raise AttributeError
      end
  | _ => raise AttributeError
  end.

(** [v[k] = x] *)
Definition py_setitem (v : pyval) (k : string) (x : pyval) : M unit :=
  match v with
  | VRef l =>
      h ← get_heap;
      match h !! l with
      | Some d => put_heap (<[l := dict_set k x d]> h)
      | None => raise TypeError
      end
  | _ => raise TypeError
  end.

(** ** [clean_resource] *)

Definition stripped_metadata_keys : list string :=
  ["uid"; "resourceVersion"; "generation"; "managedFields"; "creationTimestamp"].

Definition clean_resource (obj : pyval) (detailed : bool) : M pyval :=
  (if negb detailed then
     py_pop obj "status";;
     meta ← py_get_or_new obj "metadata";
     for_each stripped_metadata_keys (λ key, py_pop meta key);;
     py_setitem obj "metadata" meta
   else pass);;
  mret obj.

(** ** More of Python on values *)

(** [bool(v)]: [None], [False], zero and the empty string, list and dict
    are false. *)
Definition truthy (h : heap) (v : pyval) : bool :=
  match v with
  | VNone => false
  | VBool b => b
  | VInt n => negb (n =? 0)%Z
  | VStr s => negb (bool_decide (s = ""))
  | VList xs => match xs with [] => false | _ => true end
  | VRef l => match h !! l with Some [] => false | _ => true end
  end.

Definition py_truthy (v : pyval) : M bool :=
  h ← get_heap; mret (truthy h v).

(** [v.get(k, [])] *)
Definition py_get_or_empty_list (v : pyval) (k : string) : M pyval :=
  match v with
  | VRef l =>
      h ← get_heap;
      match h !! l with
      | Some d => mret (default (VList []) (dict_get k d))
      | None => raise AttributeError
      end
  | _ => raise AttributeError
  end.

(** [v.items()] *)
Definition py_items (v : pyval) : M dict :=
  match v with
  | VRef l =>
      h ← get_heap;
      match h !! l with
      | Some d => mret d
      | None => raise AttributeError
      end
  | _ => raise AttributeError
  end.

Fixpoint chars (s : string) : list pyval :=
  match s with
  | EmptyString => []
  | String c s' => VStr (String c EmptyString) :: chars s'
  end.

(** What [for item in v] runs through: the elements of a list, the keys of
    a dict, the characters of a string; nothing else can be iterated. *)
Definition py_iter (v : pyval) : M (list pyval) :=
  match v with
  | VList xs => mret xs
  | VStr s => mret (chars s)
  | VRef l =>
      h ← get_heap;
      match h !! l with
      | Some d => mret (VStr <$> dict_keys d)
      | None => raise TypeError
      end
  | _ => raise TypeError
  end.

(** ** File-system calls *)

(** [os.mkdir(p)] *)
Definition os_mkdir (p : ppath) : M unit :=
  fs ← get_fs;
  match p_parts p with
  | [] => raise (OSError EEXIST)
  | _ =>
      match node_at fs (parent p) with
      | None => raise (OSError ENOENT)
      | Some (File _) => raise (OSError ENOTDIR)
      | Some Dir =>
          match fs !! p with
          | Some _ => raise (OSError EEXIST)
          | None => put_fs (<[p := Dir]> fs)
          end
      end
  end.

(** [p.is_dir()] *)
Definition is_dir (p : ppath) : M bool :=
  fs ← get_fs;
  mret (match node_at fs p with Some Dir => true | _ => false end).

(** [p.mkdir(parents=False, exist_ok=True)] *)
Definition mkdir_exist_ok (p : ppath) : M unit :=
  try_except (os_mkdir p) (λ e,
    match e with
    | OSError ENOENT => raise e
    | OSError _ => b ← is_dir p; if (b : bool) then pass else raise e
    | _ => raise e
    end).

(** [p.mkdir(parents=True, exist_ok=True)], as pathlib does it: try the
    directory itself, and on a missing parent make the parent first.  The
    components are taken last first, so that the parent is the tail. *)
Fixpoint mkdir_parents_rev (a : anchor) (rparts : list string) : M unit :=
  let self := PPath a (reverse rparts) in
  try_except (os_mkdir self) (λ e,
    match e with
    | OSError ENOENT =>
        match rparts with
        | [] => raise e
        | _ :: rparent => mkdir_parents_rev a rparent;; mkdir_exist_ok self
        end
    | OSError _ => b ← is_dir self; if (b : bool) then pass else raise e
    | _ => raise e
    end).

Definition mkdir_parents (p : ppath) : M unit :=
  mkdir_parents_rev (p_anchor p) (reverse (p_parts p)).

(** [with p.open("w") as f: yaml.dump(doc, f, sort_keys=False)] *)
Definition write_yaml (p : ppath) (doc : document) : M unit :=
  fs ← get_fs;
  match p_parts p with
  | [] => raise (OSError EISDIR)
  | _ =>
      match node_at fs (parent p) with
      | None => raise (OSError ENOENT)
      | Some (File _) => raise (OSError ENOTDIR)
      | Some Dir =>
          match fs !! p with
          | Some Dir => raise (OSError EISDIR)
          | _ => put_fs (<[p := File doc]> fs)
          end
      end
  end.

(** [p.unlink()] *)
Definition unlink (p : ppath) : M unit :=
  fs ← get_fs;
  match node_at fs p with
  | Some (File _) => put_fs (delete p fs)
  | Some Dir => raise (OSError EISDIR)
  | None => raise (OSError ENOENT)
  end.

(** ** [save_object] *)

Definition priority_keys : list string :=
  ["apiVersion"; "kind"; "metadata"; "spec"; "data"; "stringData"; "type"].

(** The two loops that fill [ordered].  [ordered] is local to the call and
    reaches nothing but [yaml.dump], so it is built as a value. *)
Definition reorder_keys (obj : dict) : dict :=
  let ordered :=
    foldl (λ ordered key,
             match dict_get key obj with
             | Some v => dict_set key v ordered
             | None => ordered
             end) [] priority_keys in
  foldl (λ ordered kv,
           if dict_contains kv.1 ordered then ordered
           else dict_set kv.1 kv.2 ordered) ordered obj.

(** [if namespace:] on an [Optional[str]] *)
Definition namespace_given (namespace : option string) : option string :=
  match namespace with
  | Some ns => if decide (ns = "") then None else Some ns
  | None => None
  end.

Section Program.

(** [str(v)] of a value that is not a string is Python's, not the
    program's, and stays a parameter. *)
Variable format_value : heap → pyval → string.

(** [f"{v}"] *)
Definition fstring (h : heap) (v : pyval) : string :=
  match v with VStr s => s | _ => format_value h v end.

Definition py_format (v : pyval) : M string :=
  h ← get_heap; mret (fstring h v).

Definition object_path (base_dir : ppath) (resource_name : string)
    (namespace : option string) (file_name : string) : ppath :=
  match namespace_given namespace with
  | Some ns => base_dir // "namespaces" // ns // resource_name // file_name
  | None => base_dir // "cluster" // resource_name // file_name
  end.

Definition save_object (obj : pyval) (base_dir : ppath)
    (resource_name : string) (namespace : option string) : M unit :=
  meta ← py_get_or_new obj "metadata";
  name ← py_get meta "name";
  named ← py_truthy name;
  if negb named then pass
  else
    stem ← py_format name;
    let path := object_path base_dir resource_name namespace (stem +:+ ".yaml") in
    mkdir_parents (parent path);;
    items ← py_items obj;
    let ordered := reorder_keys items in
    h ← get_heap;
    write_yaml path (Document ordered h).

(** ** The dump loops of [_run_backup] *)

(** A discovered resource type: the tuple
    [(group, version, res_name, namespaced, kind)]. *)
Record descriptor := Descriptor {
  group : string;
  version : string;
  res_name : string;
  namespaced : bool;
  kind : string
}.

(** The API client is outside the program: a call reads and extends the
    object store, and either returns the decoded body or raises. *)
Variable call_k8s_api : string → heap → heap * result pyval.

(** [str(e)] of an exception, as it appears in log messages. *)
Variable str_exn : exn → string.

Definition api_call (path : string) : M pyval := λ w,
  let (h, r) := call_k8s_api path (w_heap w) in
  (World h (w_fs w) (w_log w), r).

(** The first three lines of the body of [for item in ...]: the injection
    of [apiVersion] and [kind], then the cleaning.  The spec calls the three
    together [normalize]. *)
Definition normalize_item (item : pyval) (api_version kind : string)
    (detailed : bool) : M pyval :=
  py_setitem item "apiVersion" (VStr api_version);;
  py_setitem item "kind" (VStr kind);;
  clean_resource item detailed.

(** [for item in data.get("items", []):] with its body. *)
Definition dump_items (data : pyval) (api_version kind : string)
    (detailed : bool) (dest : ppath) (res_name : string)
    (namespace : option string) : M unit :=
  items ← py_get_or_empty_list data "items";
  xs ← py_iter items;
  for_each xs (λ item,
    cleaned ← normalize_item item api_version kind detailed;
    save_object cleaned dest res_name namespace).

Definition api_version_of (r : descriptor) : string :=
  if decide (group r = "") then version r
  else group r +:+ "/" +:+ version r.

Definition namespaced_list_path (ns : string) (r : descriptor) : string :=
  if decide (group r = "")
  then "/api/" +:+ version r +:+ "/namespaces/" +:+ ns +:+ "/" +:+ res_name r
  else "/apis/" +:+ group r +:+ "/" +:+ version r +:+ "/namespaces/" +:+ ns
       +:+ "/" +:+ res_name r.

Definition cluster_list_path (r : descriptor) : string :=
  if decide (group r = "")
  then "/api/" +:+ version r +:+ "/" +:+ res_name r
  else "/apis/" +:+ group r +:+ "/" +:+ version r +:+ "/" +:+ res_name r.

(** One turn of the inner loop of the namespaced pass: the [try] block and
    its two handlers.  [continue] ends the turn, as falling off the handler
    does, the [try] statement being the whole loop body. *)
Definition dump_namespaced_unit (ns : string) (r : descriptor)
    (detailed : bool) (dest : ppath) : M unit :=
  try_except
    (data ← api_call (namespaced_list_path ns r);
     dump_items data (api_version_of r) (kind r) detailed dest (res_name r)
       (Some ns);;
     log INFO ("Dumping " +:+ res_name r +:+ " from namespace=" +:+ ns))
    (λ e,
       match e with
       | ApiException status =>
           if decide (status = 403%Z)
           then log WARNING ("Access denied to " +:+ res_name r
                             +:+ " in namespace=" +:+ ns)
           else if decide (status = 404%Z) then pass
           else log DEBUG ("API error for " +:+ res_name r +:+ ": "
                           +:+ str_exn e)
       | _ => log DEBUG ("Failed to dump " +:+ res_name r +:+ " in " +:+ ns
                         +:+ ": " +:+ str_exn e)
       end).

(** One turn of the loop of the cluster pass. *)
Definition dump_cluster_unit (r : descriptor) (detailed : bool)
    (dest : ppath) : M unit :=
  try_except
    (data ← api_call (cluster_list_path r);
     dump_items data (api_version_of r) (kind r) detailed dest (res_name r)
       None;;
     log INFO ("Dumping cluster-wide resource: " +:+ res_name r))
    (λ e,
       match e with
       | ApiException status =>
           if decide (status = 403%Z)
           then log WARNING ("Access denied to " +:+ res_name r)
           else if decide (status = 404%Z) then pass
           else log DEBUG ("API error for " +:+ res_name r +:+ ": "
                           +:+ str_exn e)
       | _ => log DEBUG ("Failed to dump " +:+ res_name r +:+ ": "
                         +:+ str_exn e)
       end).

Inductive mode := ModeAll | ModeNs | ModeCls.

(** The two passes, lines 470 to 527 of [_run_backup]. *)
Definition dump_resources (m : mode) (ns_list : list string)
    (ns_resources cls_resources : list descriptor) (detailed : bool)
    (dest : ppath) : M unit :=
  (match m with
   | ModeAll | ModeNs =>
       log INFO "Dumping namespaced resources";;
       for_each ns_list (λ ns,
         for_each ns_resources (λ r, dump_namespaced_unit ns r detailed dest))
   | ModeCls => pass
   end);;
  match m with
  | ModeAll | ModeCls =>
      log INFO "Dumping cluster-wide resources";;
      for_each cls_resources (λ r, dump_cluster_unit r detailed dest)
  | ModeNs => pass
  end.

(** ** Archive rotation, lines 555 to 559 of [_run_backup] *)

Inductive archive_kind := Gz | Bz2 | Xz.

Definition archive_ext (k : archive_kind) : string :=
  match k with Gz => "gz" | Bz2 => "bz2" | Xz => "xz" end.

(** [f"backup-{now}.tar.{archive_type}"], [stamp] being the formatted time. *)
Definition archive_name (stamp : string) (k : archive_kind) : string :=
  "backup-" +:+ stamp +:+ ".tar." +:+ archive_ext k.

Fixpoint strip_prefix (pre s : string) : option string :=
  match pre, s with
  | EmptyString, _ => Some s
  | String a pre', String b s' =>
      if decide (a = b) then strip_prefix pre' s' else None
  | String _ _, EmptyString => None
  end.

Definition ends_with (suf s : string) : bool :=
  match strip_prefix (String.rev suf) (String.rev s) with
  | Some _ => true
  | None => false
  end.

(** Whether a file name matches the pattern [backup-*.tar.<ext>]: the star
    stands for any run of characters, the rest is literal. *)
Definition matches_backup (ext name : string) : bool :=
  match strip_prefix "backup-" name with
  | Some rest => ends_with (".tar." +:+ ext) rest
  | None => false
  end.

Definition is_child_of (dest p : ppath) : Prop :=
  p_parts p ≠ [] ∧ parent p = dest.

Global Instance is_child_of_dec dest p : Decision (is_child_of dest p).
Proof. unfold is_child_of. apply _. Defined.

(** [dest.glob(f"backup-*.tar.{ext}")]: the entries of the directory [dest]
    whose name matches, listed before the loop runs. *)
Definition glob_backups (fs : filesystem) (dest : ppath) (ext : string)
    : list ppath :=
  match node_at fs dest with
  | Some Dir =>
      filter (λ p, is_child_of dest p ∧ matches_backup ext (path_name p) = true)
             (map_to_list fs).*1
  | _ => []
  end.

(** [arch.stat().st_mtime], kept by the operating system; times are whole
    seconds. *)
Variable st_mtime : ppath → Z.

(** [time.localtime(u)], read as seconds: what the local clock shows at the
    instant [u], by the time zone of the machine.  Outside the range of the
    platform or of [datetime] the call raises. *)
Variable localtime : Z → result Z.

Definition seconds_per_day : Z := 86400.

Definition max_fold_seconds : Z := 86400.

(** [datetime.now()] at the instant [now]: the naive reading of the local
    clock.  The constructor also looks a day back, for a fold; the fold it
    finds is lost in the subtraction of line 555. *)
Definition datetime_now (now : Z) : result Z :=
  shown_now ← localtime now;
  probe ← localtime (now - max_fold_seconds);
  let transition := (shown_now - probe - max_fold_seconds)%Z in
  (if (transition <? 0)%Z then localtime (now + transition) else mret probe);;
  mret shown_now.

(** The naive readings that [datetime] can hold: from the first second of
    the year 1 to the last of the year 9999. *)
Definition min_naive : Z := -62135596800.
Definition max_naive : Z := 253402300799.

(** [datetime.now() - timedelta(days=archive_rotate_days)], line 555: a day
    of the naive clock has 86400 seconds. *)
Definition naive_cutoff (now archive_rotate_days : Z) : result Z :=
  shown_now ← datetime_now now;
  if (999999999 <? Z.abs archive_rotate_days)%Z
  then Raise (OtherException "OverflowError")
  else
    let t := (shown_now - archive_rotate_days * seconds_per_day)%Z in
    if (t <? min_naive)%Z || (max_naive <? t)%Z
    then Raise (OtherException "OverflowError")
    else mret t.

(** [d.timestamp()] of a naive [d] that shows [t], with fold 0: the search
    of the [datetime] module for the instant at which the local clock shows
    [t]. *)
Definition naive_timestamp (t : Z) : result Z :=
  shown ← localtime t;
  let a := (shown - t)%Z in
  let u1 := (t - a)%Z in
  t1 ← localtime u1;
  b ← (if (t1 =? t)%Z
       then shown2 ← localtime (u1 - max_fold_seconds);
            mret (shown2 - (u1 - max_fold_seconds))%Z
       else mret (t1 - u1)%Z);
  if (t1 =? t)%Z && (a =? b)%Z then mret u1
  else
    let u2 := (t - b)%Z in
    t2 ← localtime u2;
    if (t2 =? t)%Z then mret u2
    else if (t1 =? t)%Z then mret u1
    else mret (Z.max u1 u2).

(** A step that computes without the world. *)
Definition lift_result {A} (r : result A) : M A := λ w, (w, r).

(** One turn of the loop of line 556, for the naive cutoff of line 555: the
    test of line 557 takes the time stamp of the cutoff anew for every
    archive that is not the one of the run. *)
Definition rotate_one (archive_path : ppath) (cutoff : Z) (arch : ppath)
    : M unit :=
  old ← (if bool_decide (arch ≠ archive_path)
         then stamp ← lift_result (naive_timestamp cutoff);
              mret (st_mtime arch <? stamp)%Z
         else mret false);
  if (old : bool)
  then unlink arch;; log INFO ("Rotated old archive: " +:+ path_name arch)
  else pass.

(** Lines 555 to 559; [now] is the reading of the clock on line 555. *)
Definition rotate_archives (dest : ppath) (k : archive_kind)
    (archive_path : ppath) (now archive_rotate_days : Z) : M unit :=
  cutoff ← lift_result (naive_cutoff now archive_rotate_days);
  fs ← get_fs;
  for_each (glob_backups fs dest (archive_ext k)) (rotate_one archive_path cutoff).

End Program.
(** ** What goes into the tarball, lines 531 to 540 of [_run_backup] *)

(** [s.startswith(pre)] *)
Definition startswith (pre s : string) : bool :=
  match strip_prefix pre s with Some _ => true | None => false end.

(** [sub in s] on strings *)
Fixpoint contains (sub s : string) : bool :=
  startswith sub s ||
  match s with
  | EmptyString => false
  | String _ s' => contains sub s'
  end.

(** [f"backup-{now}.tar"], the tarball before it is compressed. *)
Definition tar_name (stamp : string) : string :=
  "backup-" +:+ stamp +:+ ".tar".

(** The test that makes the loop over [dest.iterdir()] pass an entry
    over. *)
Definition tar_skips (ext name : string) : bool :=
  startswith "backup-" name &&
  (contains ".tar" name || ends_with ("." +:+ ext) name).

(** [dest.iterdir()]: the entries of the directory. *)
Definition iterdir (fs : filesystem) (dest : ppath) : list ppath :=
  filter (is_child_of dest) (map_to_list fs).*1.

(** The entries handed to [tar.add]. *)
Definition tar_members (fs : filesystem) (dest : ppath) (k : archive_kind)
    : list ppath :=
  filter (λ item, tar_skips (archive_ext k) (path_name item) = false)
         (iterdir fs dest).

(** ** The sweep of old folders, lines 250 to 258 of [git_init_and_pull] *)

(** [q] is [p] or lies below it. *)
Definition is_under (p q : ppath) : Prop :=
  p_anchor q = p_anchor p ∧ p_parts p `prefix_of` p_parts q.

Global Instance is_under_dec p q : Decision (is_under p q).
Proof. unfold is_under. apply _. Defined.

(** [shutil.rmtree(p)] for a path that is no symbolic link: the directory
    goes with all that is below it; what is no directory is refused. *)
Definition rmtree (p : ppath) : M unit :=
  fs ← get_fs;
  match node_at fs p with
  | Some Dir => put_fs (filter (λ kv, ¬ is_under p kv.1) fs)
  | Some (File _) => raise (OSError ENOTDIR)
  | None => raise (OSError ENOENT)
  end.

(** [p.exists()] *)
Definition path_exists (p : ppath) : M bool :=
  fs ← get_fs;
  mret (match node_at fs p with Some _ => true | None => false end).

(** Lines 433 to 442 of [_run_backup] in a run without git: the
    destination is removed on request, and made. *)
Definition prepare_destination (force_remove : bool) (dest : ppath) : M unit :=
  (if force_remove then
     there ← path_exists dest;
     if (there : bool) then rmtree dest else pass
   else pass);;
  mkdir_parents dest.

(** The test of the first two [continue]s: a name the sweep keeps. *)
Definition sweep_keeps (name : string) : bool :=
  startswith ".git" name || (startswith "backup-" name && contains ".tar" name).

Section Sweep.

(** [os.path.islink(p)]: which entries are symbolic links.  The file system
    says what a link leads to: [is_dir] follows links, so that a link to a
    directory is a [Dir] that is a link. *)
Variable islink : ppath → bool.

(** [shutil.rmtree(p)] for an entry that may be a symbolic link, which it
    refuses. *)
Definition rmtree_entry (p : ppath) : M unit :=
  if islink p
  then raise (OtherException "OSError: Cannot call rmtree on a symbolic link")
  else rmtree p.

(** One turn of the loop. *)
Definition sweep_item (item : ppath) : M unit :=
  if sweep_keeps (path_name item) then pass
  else
    d ← is_dir item;
    if (d : bool) then
      rmtree_entry item;;
      log DEBUG ("Removed old folder: " +:+ path_name item)
    else pass.

(** [for item in repo_path.iterdir(): ...]: the listing is read when the
    loop starts, and fails when [repo_path] is no directory. *)
Definition clean_old_folders (repo_path : ppath) : M unit :=
  fs ← get_fs;
  match node_at fs repo_path with
  | Some Dir => for_each (iterdir fs repo_path) sweep_item
  | Some (File _) => raise (OSError ENOTDIR)
  | None => raise (OSError ENOENT)
  end.

End Sweep.

(** ** What the user sees of the log: [KubeDumpFormatter] and
    [setup_logger] *)

(** [record.levelno] *)
Definition levelno (lv : level) : Z :=
  match lv with DEBUG => 10 | INFO => 20 | WARNING => 30 | ERROR => 40 end.

(** [record.levelname] *)
Definition levelname (lv : level) : string :=
  match lv with
  | DEBUG => "DEBUG" | INFO => "INFO" | WARNING => "WARNING" | ERROR => "ERROR"
  end.

(** [KubeDumpFormatter.format]; [ts] is the formatted time of the record. *)
Definition format_record (with_timestamp : bool) (ts : string)
    (record : log_entry) : string :=
  let msg := record.2 in
  let out :=
    if (levelno WARNING <=? levelno record.1)%Z
    then levelname record.1 +:+ ": " +:+ msg
    else msg in
  if with_timestamp then ts +:+ " " +:+ out else out.

Inductive stream := Stdout | Stderr.

(** The handler [setup_logger] installs: its stream and its level. *)
Definition handler_stream (silent : bool) : stream :=
  if silent then Stderr else Stdout.

Definition handler_level (silent : bool) : level :=
  if silent then WARNING else INFO.

(** What the handler writes for one record, if anything; the logger
    itself, at level [DEBUG], lets every record through. *)
Definition emit (silent with_timestamp : bool) (ts : string)
    (record : log_entry) : option (stream * string) :=
  if (levelno (handler_level silent) <=? levelno record.1)%Z
  then Some (handler_stream silent, format_record with_timestamp ts record)
  else None.

(** The lines written for a log; [cli] sets the logger up without
    timestamps. *)
Definition shown (silent : bool) (lg : list log_entry)
    : list (stream * string) :=
  omap (emit silent false "") lg.


(** ** Discovery of the API resources, [discover_resources] *)

(** [v[k]] for a string [k]: only a dict can be indexed by one. *)
Definition py_getitem (v : pyval) (k : string) : M pyval :=
  match v with
  | VRef l =>
      h ← get_heap;
      match h !! l with
      | Some d =>
          match dict_get k d with
          | Some x => mret x
          | None => raise (OtherException "KeyError")
          end
      | None => raise TypeError
      end
  | _ => raise TypeError
  end.

(** [v[0]]: the first element of a list, the first character of a string;
    a dict of string keys has no key [0]. *)
Definition py_first (v : pyval) : M pyval :=
  match v with
  | VList (x :: _) => mret x
  | VList [] => raise (OtherException "IndexError")
  | VStr (String c _) => mret (VStr (String c EmptyString))
  | VStr EmptyString => raise (OtherException "IndexError")
  | VRef l =>
      h ← get_heap;
      match h !! l with
      | Some _ => raise (OtherException "KeyError")
      | None => raise TypeError
      end
  | _ => raise TypeError
  end.

(** [v.get(k, dflt)] for a default that is no fresh object. *)
Definition py_get_default (v : pyval) (k : string) (dflt : pyval) : M pyval :=
  match v with
  | VRef l =>
      h ← get_heap;
      match h !! l with
      | Some d => mret (default dflt (dict_get k d))
      | None => raise AttributeError
      end
  | _ => raise AttributeError
  end.

(** [v == s] for a string [s]: only a string equals a string. *)
Definition is_str (s : string) (v : pyval) : bool :=
  match v with VStr t => bool_decide (t = s) | _ => false end.

(** [s in v] for a string [s]: an element of a list, a substring of a
    string, a key of a dict. *)
Definition py_str_in (s : string) (v : pyval) : M bool :=
  match v with
  | VList xs => mret (existsb (is_str s) xs)
  | VStr t => mret (contains s t)
  | VRef l =>
      h ← get_heap;
      match h !! l with
      | Some d => mret (bool_decide (s ∈ dict_keys d))
      | None => raise TypeError
      end
  | _ => raise TypeError
  end.

(** A tuple [(group, version, name, namespaced, kind)] as discovery builds
    it: its parts are what the API sent. *)
Record found := Found {
  f_group : pyval;
  f_version : pyval;
  f_name : pyval;
  f_namespaced : pyval;
  f_kind : pyval
}.

(** The two lists that the function fills. *)
Record found_lists := FoundLists {
  ns_found : list found;
  cluster_found : list found
}.

(** The monad of the function: [M] with the two local lists, which keep
    what was appended when an exception leaves a block. *)
Definition D (A : Type) : Type :=
  found_lists → world → found_lists * world * result A.

Global Instance D_ret : MRet D := λ A a acc w, (acc, w, Ok a).

Global Instance D_bind : MBind D := λ A B f m acc w,
  match m acc w with
  | (acc', w', Ok a) => f a acc' w'
  | (acc', w', Raise e) => (acc', w', Raise e)
  end.

(** A step that leaves the lists alone. *)
Definition lift {A} (m : M A) : D A := λ acc w,
  let (w', r) := m w in (acc, w', r).

Definition try_except_D {A} (m : D A) (handler : exn → D A) : D A :=
  λ acc w,
  match m acc w with
  | (acc', w', Ok a) => (acc', w', Ok a)
  | (acc', w', Raise e) => handler e acc' w'
  end.

Definition pass_D : D unit := mret ().

Fixpoint for_each_D {A} (xs : list A) (body : A → D unit) : D unit :=
  match xs with
  | [] => pass_D
  | x :: xs' => body x;; for_each_D xs' body
  end.

(** [(ns_list if item[3] else cluster_list).append(item)] *)
Definition append_found (item : found) : D unit := λ acc w,
  (if truthy (w_heap w) (f_namespaced item)
   then FoundLists (ns_found acc ++ [item]) (cluster_found acc)
   else FoundLists (ns_found acc) (cluster_found acc ++ [item]),
   w, Ok ()).

Definition skipped_groups : list string := ["metrics.k8s.io"; "node.k8s.io"].

(** [group_name in ["metrics.k8s.io", "node.k8s.io"]] *)
Definition in_skipped_groups (group_name : pyval) : bool :=
  existsb (λ s, is_str s group_name) skipped_groups.

Section Discovery.

Variable format_value : heap → pyval → string.
Variable call_k8s_api : string → heap → heap * result pyval.
Variable str_exn : exn → string.

(** [for res in res_list.get("resources", []):] with its body, the same
    for the core group and for the others. *)
Definition scan_resources (group_name version res_list : pyval) : D unit :=
  resources ← lift (py_get_or_empty_list res_list "resources");
  xs ← lift (py_iter resources);
  for_each_D xs (λ res,
    verbs ← lift (py_get_or_empty_list res "verbs");
    listed ← lift (py_str_in "list" verbs);
    if (listed : bool) then
      name ← lift (py_getitem res "name");
      namespaced ← lift (py_get_default res "namespaced" (VBool false));
      kind ← lift (py_get_default res "kind" (VStr ""));
      append_found (Found group_name version name namespaced kind)
    else pass_D).

(** [f"/apis/{group_name}/{version}"] and [f"{group_name}/{version}"] *)
Definition group_version (group_name version : pyval) : M string :=
  g ← py_format format_value group_name;
  v ← py_format format_value version;
  mret (g +:+ "/" +:+ v).

(** One turn of the loop over the groups. *)
Definition scan_group (group : pyval) : D unit :=
  versions ← lift (py_get_or_empty_list group "versions");
  some ← lift (py_truthy versions);
  if negb some then pass_D
  else
    pref ← lift (py_get_or_new group "preferredVersion");
    pref_ver ← lift (py_get pref "version");
    given ← lift (py_truthy pref_ver);
    version ← (if (given : bool) then mret pref_ver
               else first ← lift (py_first versions);
                    lift (py_getitem first "version"));
    group_name ← lift (py_getitem group "name");
    if in_skipped_groups group_name then pass_D
    else
      try_except_D
        (gv ← lift (group_version group_name version);
         res_list ← lift (api_call call_k8s_api ("/apis/" +:+ gv));
         scan_resources group_name version res_list)
        (λ e,
           gv ← lift (group_version group_name version);
           lift (log DEBUG ("Skip " +:+ gv +:+ ": " +:+ str_exn e))).

(** The body of the function, on the two lists. *)
Definition discover : D unit :=
  try_except_D
    (core ← lift (api_call call_k8s_api "/api/v1");
     scan_resources (VStr "") (VStr "v1") core)
    (λ e, lift (log DEBUG ("Failed to discover core v1: " +:+ str_exn e)));;
  try_except_D
    (groups ← lift (api_call call_k8s_api "/apis");
     gl ← lift (py_get_or_empty_list groups "groups");
     xs ← lift (py_iter gl);
     for_each_D xs scan_group)
    (λ e, lift (log DEBUG ("Failed to list API groups: " +:+ str_exn e))).

Definition discover_resources : M (list found * list found) := λ w,
  match discover (FoundLists [] []) w with
  | (acc, w', Ok _) => (w', Ok (ns_found acc, cluster_found acc))
  | (_, w', Raise e) => (w', Raise e)
  end.

End Discovery.

(** ** The namespaces given on the command line, lines 455 to 457 of
    [_run_backup] *)

(** [c.isspace()], for the characters that a [string] has: the code points
    below 256. *)
Definition is_space (c : ascii) : bool :=
  bool_decide (nat_of_ascii c
               ∈ [9; 10; 11; 12; 13; 28; 29; 30; 31; 32; 133; 160]%nat).

(** [s.lstrip()] *)
Fixpoint lstrip (s : string) : string :=
  match s with
  | EmptyString => s
  | String c s' => if is_space c then lstrip s' else s
  end.

(** [s.strip()] *)
Definition py_strip (s : string) : string :=
  String.rev (lstrip (String.rev (lstrip s))).

(** [s.split(sep)] for a separator of one character. *)
Fixpoint split_on (sep : ascii) (s : string) : list string :=
  match s with
  | EmptyString => [""]
  | String c s' =>
      if decide (c = sep) then "" :: split_on sep s'
      else match split_on sep s' with
           | [] => [String c ""]
           | part :: parts => String c part :: parts
           end
  end.

(** The list that [--namespaces] gives; [None] when the argument is blank
    and the API is asked for the namespaces. *)
Definition given_namespaces (namespaces : string) : option (list string) :=
  if bool_decide (py_strip namespaces = "") then None
  else Some (py_strip <$>
             filter (λ n, py_strip n ≠ "") (split_on ","%char namespaces)).
(** * Vocabulary of the statements *)

(** The metadata keys gone from [d], one [pop] after the other. *)
Definition strip (ks : list string) (d : dict) : dict :=
  foldl (λ d k, dict_pop k d) d ks.

(** [after] is [before] without the keys of [ks]: the keys that are left
    keep their order and their values. *)
Definition keys_removed (ks : list string) (before after : dict) : Prop :=
  dict_keys after = filter (λ k, k ∉ ks) (dict_keys before) ∧
  (∀ k, k ∉ ks → dict_get k after = dict_get k before) ∧
  (∀ k, k ∈ ks → dict_get k after = None).

(** What the spec promises of a NormalizedManifest: the keys [apiVersion],
    [kind] and [metadata], the latter a mapping with the key [name]. *)
Definition normalized_manifest (h : heap) (v : pyval) : Prop :=
  ∃ l d m md,
    v = VRef l ∧ h !! l = Some d ∧
    is_Some (dict_get "apiVersion" d) ∧ is_Some (dict_get "kind" d) ∧
    dict_get "metadata" d = Some (VRef m) ∧ h !! m = Some md ∧
    is_Some (dict_get "name" md).

(** The item after the two assignments that inject [apiVersion] and
    [kind]. *)
Definition injected (av kd : string) (d : dict) : dict :=
  dict_set "kind" (VStr kd) (dict_set "apiVersion" (VStr av) d).

(** The items of [obj] under the keys of [ks], in the order of [ks]. *)
Definition picked (ks : list string) (obj : dict) : dict :=
  omap (λ k, (λ v, (k, v)) <$> dict_get k obj) ks.

(** The key order the spec prescribes for a manifest whose keys are [ks]:
    first the priority keys that are present, in the priority order, then
    the remaining keys in their own order. *)
Definition manifest_key_order (ks : list string) : list string :=
  filter (λ k, k ∈ ks) priority_keys ++ filter (λ k, k ∉ priority_keys) ks.

(** [m] takes every world to one related to it by [R], whether it returns
    or raises. *)
Definition preserves {A} (R : world → world → Prop) (m : M A) : Prop :=
  ∀ w, R w (m w).1.

(** [w'] is [w] with, at most, directories created. *)
Definition dirs_added (w w' : world) : Prop :=
  w_heap w' = w_heap w ∧ w_log w' = w_log w ∧
  ∀ p, w_fs w' !! p = w_fs w !! p
       ∨ (w_fs w !! p = None ∧ w_fs w' !! p = Some Dir).

Fixpoint has_slash (s : string) : bool :=
  match s with
  | EmptyString => false
  | String c s' => if decide (c = "/"%char) then true else has_slash s'
  end.

(** A string that names one path component: not empty, not ["."] or
    [".."], and without a slash. *)
Definition plain_component (s : string) : Prop :=
  s ≠ "" ∧ s ≠ "." ∧ s ≠ ".." ∧ has_slash s = false.

(** The destination the spec gives: under the root, the components
    [namespaces], the namespace, the plural name and [<name>.yaml], or
    [cluster], the plural name and [<name>.yaml]. *)
Definition spec_destination (root : ppath) (plural : string)
    (namespace : option string) (name : string) : ppath :=
  PPath (p_anchor root)
        (p_parts root ++
         match namespace with
         | Some ns => ["namespaces"; ns; plural; name +:+ ".yaml"]
         | None => ["cluster"; plural; name +:+ ".yaml"]
         end).

(** [m] returns, whatever the world it starts in: no exception leaves it. *)
Definition returns (m : M unit) : Prop := ∀ w, ∃ w', m w = (w', Ok ()).

(** What the spec has logged for a failed list call: a warning of denied
    access for status 403, nothing for 404, one debug entry for any other
    error. *)
Definition failure_logged (e : exn) (access_denied : string)
    (new : list log_entry) : Prop :=
  match e with
  | ApiException status =>
      if decide (status = 403%Z) then new = [(WARNING, access_denied)]
      else if decide (status = 404%Z) then new = []
      else ∃ msg, new = [(DEBUG, msg)]
  | _ => ∃ msg, new = [(DEBUG, msg)]
  end.

(** [w'] is [w] with, at most, paths of [P] deleted. *)
Definition only_deleted (P : ppath → Prop) (w w' : world) : Prop :=
  ∀ p, w_fs w' !! p = w_fs w !! p ∨ (P p ∧ w_fs w' !! p = None).

(** ** Sample data for the examples *)

(** An API server that lists one node and knows no other resource. *)
Definition sample_api (path : string) (h : heap) : heap * result pyval :=
  if decide (path = "/api/v1/nodes") then
    (h ++ [[("items", VList [VRef (length h + 1)])];
           [("metadata", VRef (length h + 2)); ("status", VStr "Ready")];
           [("name", VStr "n1"); ("uid", VStr "7c")]],
     Ok (VRef (length h)))
  else (h, Raise (ApiException 404)).

Definition sample_nodes : descriptor :=
  Descriptor "" "v1" "nodes" false "Node".

Definition sample_crds : descriptor :=
  Descriptor "apiextensions.k8s.io" "v1" "customresourcedefinitions" false
    "CustomResourceDefinition".

(** [w'] has the files and the log of [w]. *)
Definition files_same (w w' : world) : Prop :=
  w_fs w' = w_fs w ∧ w_log w' = w_log w.

(** [w'] keeps what [w] has: a directory is still a directory, a file is
    still a file, whatever it holds now, and the log has only grown. *)
Definition keeps_entries (w w' : world) : Prop :=
  (∀ p, w_fs w !! p = Some Dir → w_fs w' !! p = Some Dir) ∧
  (∀ p doc, w_fs w !! p = Some (File doc) →
            ∃ doc', w_fs w' !! p = Some (File doc')) ∧
  w_log w `prefix_of` w_log w'.


(** A folder the sweep goes for, seen in the file system [fs]. *)
Definition swept (fs : filesystem) (item : ppath) : Prop :=
  node_at fs item = Some Dir ∧ sweep_keeps (path_name item) = false.


(** [w'] has the files of [w], and shows the user what [w] shows. *)
Definition quiet (w w' : world) : Prop :=
  w_fs w' = w_fs w ∧
  ∀ silent, shown silent (w_log w') = shown silent (w_log w).

(** What holds of a tuple in the list of the namespaced resources, and of
    one in the list of the cluster-wide ones. *)
Definition found_ns_ok (item : found) : Prop :=
  in_skipped_groups (f_group item) = false ∧
  ∀ b, f_namespaced item = VBool b → b = true.

Definition found_cluster_ok (item : found) : Prop :=
  in_skipped_groups (f_group item) = false ∧
  ∀ b, f_namespaced item = VBool b → b = false.

Definition sorted_lists (acc : found_lists) : Prop :=
  Forall found_ns_ok (ns_found acc) ∧
  Forall found_cluster_ok (cluster_found acc).

(** A step of discovery that is quiet and keeps the lists sorted. *)
Definition D_keeps {A} (m : D A) : Prop :=
  ∀ acc w, quiet w (m acc w).1.2 ∧
           (sorted_lists acc → sorted_lists (m acc w).1.1).

(** An API server with two core resources and the groups [apps] and
    [metrics.k8s.io]. *)
Definition sample_discovery (path : string) (h : heap) : heap * result pyval :=
  if decide (path = "/api/v1") then
    (h ++ [[("resources", VList [VRef (length h + 1); VRef (length h + 2)])];
           [("name", VStr "pods"); ("namespaced", VBool true);
            ("kind", VStr "Pod"); ("verbs", VList [VStr "get"; VStr "list"])];
           [("name", VStr "nodes"); ("namespaced", VBool false);
            ("kind", VStr "Node"); ("verbs", VList [VStr "list"])]],
     Ok (VRef (length h)))
  else if decide (path = "/apis") then
    (h ++ [[("groups", VList [VRef (length h + 1); VRef (length h + 2)])];
           [("name", VStr "metrics.k8s.io");
            ("versions", VList [VRef (length h + 3)])];
           [("name", VStr "apps"); ("versions", VList [VRef (length h + 3)]);
            ("preferredVersion", VRef (length h + 3))];
           [("version", VStr "v1")]],
     Ok (VRef (length h)))
  else if decide (path = "/apis/apps/v1") then
    (h ++ [[("resources", VList [VRef (length h + 1)])];
           [("name", VStr "deployments"); ("namespaced", VBool true);
            ("kind", VStr "Deployment"); ("verbs", VList [VStr "list"])]],
     Ok (VRef (length h)))
  else (h, Raise (ApiException 404)).

(** The object [l] of the store [h] is a well-formed entry of the group
    list: it names the group [g], lists versions, and prefers [v]. *)
Definition group_entry (h : heap) (l : loc) (g v : string) : Prop :=
  ∃ d vs lp dp,
    h !! l = Some d ∧
    dict_get "name" d = Some (VStr g) ∧
    dict_get "versions" d = Some vs ∧ truthy h vs = true ∧
    dict_get "preferredVersion" d = Some (VRef lp) ∧
    h !! lp = Some dp ∧
    dict_get "version" dp = Some (VStr v) ∧ v ≠ "".

(** A step that only reads. *)
Definition reads {A} (m : M A) : Prop := ∀ w, (m w).1 = w.

Fixpoint has_char (c : ascii) (s : string) : bool :=
  match s with
  | EmptyString => false
  | String c' s' => if decide (c' = c) then true else has_char c s'
  end.

(** A name as the parsed list holds it: not empty, without a comma, and
    without blanks at either end. *)
Definition clean_name (n : string) : Prop :=
  n ≠ "" ∧ py_strip n = n ∧ has_char ","%char n = false.

(** [",".join(names)] *)
Fixpoint join_commas (names : list string) : string :=
  match names with
  | [] => ""
  | [n] => n
  | n :: rest => n +:+ "," +:+ join_commas rest
  end.

(** A string of blanks only. *)
Fixpoint all_space (s : string) : bool :=
  match s with
  | EmptyString => true
  | String c s' => is_space c && all_space s'
  end.

(** A string of blanks and commas only. *)
Fixpoint blanks_and_commas (s : string) : bool :=
  match s with
  | EmptyString => true
  | String c s' =>
      (is_space c || bool_decide (c = ","%char)) && blanks_and_commas s'
  end.

(** The instant before which rotation counts an archive as old: the time
    stamp of the naive cutoff. *)
Definition rotation_cutoff (localtime : Z → result Z)
    (now archive_rotate_days : Z) : result Z :=
  t ← naive_cutoff localtime now archive_rotate_days;
  naive_timestamp localtime t.

(** A clock on universal time, and a clock that is put forward by an hour
    at the instant 1000000. *)
Definition utc_clock (u : Z) : result Z := Ok u.

Definition summer_clock (u : Z) : result Z :=
  Ok (if (1000000 <=? u)%Z then u + 3600 else u)%Z.

(** A name that the loop filling the tarball passes over: it starts with
    [backup-], and it has [.tar] in it or ends with [.<ext>]. *)
Definition skipped_name (ext name : string) : Prop :=
  (∃ rest, name = "backup-" +:+ rest) ∧
  ((∃ a b, name = a +:+ ".tar" +:+ b) ∨ ∃ a, name = a +:+ "." +:+ ext).

(** A path as [resolve()] gives it: every component is a plain one, none
    is [.] or [..]. *)
Definition resolved (p : ppath) : Prop :=
  ∀ c, c ∈ p_parts p → plain_component c.

(** ** The steps of a run *)

(** A dump unit: a namespace with a resource type, or a resource type. *)
Inductive dump_unit :=
  | NamespacedUnit (ns : string) (r : descriptor)
  | ClusterUnit (r : descriptor).

(** What a run does, one after the other: the line of the log that opens
    a pass, or a unit. *)
Inductive run_step :=
  | Banner (msg : string)
  | Unit (u : dump_unit).

(** The units of the namespaced pass: namespace by namespace, and for each
    the resource types in their order. *)
Fixpoint namespaced_units (ns_list : list string)
    (ns_resources : list descriptor) : list dump_unit :=
  match ns_list with
  | [] => []
  | ns :: rest =>
      (NamespacedUnit ns <$> ns_resources) ++ namespaced_units rest ns_resources
  end.

(** The steps of the two passes in a mode. *)
Definition steps_of (m : mode) (ns_list : list string)
    (ns_resources cls_resources : list descriptor) : list run_step :=
  match m with
  | ModeAll | ModeNs =>
      Banner "Dumping namespaced resources"
      :: (Unit <$> namespaced_units ns_list ns_resources)
  | ModeCls => []
  end ++
  match m with
  | ModeAll | ModeCls =>
      Banner "Dumping cluster-wide resources"
      :: ((λ r, Unit (ClusterUnit r)) <$> cls_resources)
  | ModeNs => []
  end.

(** The list call of a unit, and its message when access is denied. *)
Definition unit_list_path (u : dump_unit) : string :=
  match u with
  | NamespacedUnit ns r => namespaced_list_path ns r
  | ClusterUnit r => cluster_list_path r
  end.

Definition unit_denied (u : dump_unit) : string :=
  match u with
  | NamespacedUnit ns r =>
      "Access denied to " +:+ res_name r +:+ " in namespace=" +:+ ns
  | ClusterUnit r => "Access denied to " +:+ res_name r
  end.

Section Steps.
Variable format_value : heap → pyval → string.
Variable call_k8s_api : string → heap → heap * result pyval.
Variable str_exn : exn → string.

Definition run_step_in (detailed : bool) (dest : ppath) (s : run_step)
    : M unit :=
  match s with
  | Banner msg => log INFO msg
  | Unit (NamespacedUnit ns r) =>
      dump_namespaced_unit format_value call_k8s_api str_exn ns r detailed dest
  | Unit (ClusterUnit r) =>
      dump_cluster_unit format_value call_k8s_api str_exn r detailed dest
  end.

(** The world after the steps, each taken in the world that the step
    before it left, whatever its result was. *)
Definition after_steps (detailed : bool) (dest : ppath)
    (steps : list run_step) (w : world) : world :=
  foldl (λ w s, (run_step_in detailed dest s w).1) w steps.

End Steps.
(** * Properties *)

(** ** Dicts *)

Lemma dict_get_pop k k' d :
  dict_get k (dict_pop k' d) = if decide (k = k') then None else dict_get k d.
Proof.
  unfold dict_pop. induction d as [|[k0 v] d IH].
  - simpl. by case_decide.
  - rewrite filter_cons. cbn [fst dict_get].
    destruct (decide (k0 ≠ k')) as [Hne|Heq]; cbn [dict_get].
    + destruct (decide (k0 = k)); [subst; by rewrite decide_False|done].
    + apply dec_stable in Heq. subst k0. rewrite IH.
      destruct (decide (k = k')); [done|]. by rewrite decide_False.
Qed.

Lemma dict_get_set k k' v d :
  dict_get k (dict_set k' v d) = if decide (k = k') then Some v else dict_get k d.
Proof.
  induction d as [|[k0 v0] d IH]; simpl.
  - repeat case_decide; congruence.
  - repeat (case_decide; simpl in *); subst; try congruence.
Qed.

Lemma dict_keys_pop k d :
  dict_keys (dict_pop k d) = filter (λ k', k' ≠ k) (dict_keys d).
Proof.
  unfold dict_pop, dict_keys. induction d as [|[k0 v] d IH]; [done|].
  rewrite fmap_cons, !filter_cons. cbn [fst].
  destruct (decide (k0 ≠ k)); [rewrite fmap_cons; cbn [fst]|]; by rewrite IH.
Qed.

Lemma dict_get_None k d : dict_get k d = None ↔ k ∉ dict_keys d.
Proof.
  unfold dict_keys. induction d as [|[k0 v] d IH]; simpl.
  - split; [intros _; apply not_elem_of_nil | done].
  - rewrite not_elem_of_cons. destruct (decide (k0 = k)) as [->|Hne].
    + split; [done | by intros [? _]].
    + rewrite IH. split; [intros ?; split; [congruence | done] | by intros [_ ?]].
Qed.

Lemma dict_get_Some_keys k v d : dict_get k d = Some v → k ∈ dict_keys d.
Proof.
  intros H. destruct (decide (k ∈ dict_keys d)) as [|Hn]; [done|].
  apply dict_get_None in Hn. congruence.
Qed.

Lemma dict_set_absent k v d :
  dict_get k d = None → dict_set k v d = d ++ [(k, v)].
Proof.
  induction d as [|[k0 v0] d IH]; simpl; [done|].
  destruct (decide (k0 = k)); [done|]. intros Hd. by rewrite IH.
Qed.

Lemma dict_set_same k v d : dict_get k d = Some v → dict_set k v d = d.
Proof.
  induction d as [|[k0 v0] d IH]; simpl; [done|].
  destruct (decide (k0 = k)); subst; [congruence|]. intros Hd. by rewrite IH.
Qed.

Lemma dict_get_app k d1 d2 :
  dict_get k (d1 ++ d2)
  = match dict_get k d1 with Some v => Some v | None => dict_get k d2 end.
Proof.
  induction d1 as [|[k0 v0] d1 IH]; simpl; [done|].
  by destruct (decide (k0 = k)).
Qed.

Lemma dict_keys_set_present k v d :
  is_Some (dict_get k d) → dict_keys (dict_set k v d) = dict_keys d.
Proof.
  unfold dict_keys. induction d as [|[k0 v0] d IH]; cbn [dict_set dict_get].
  - by intros [? ?].
  - destruct (decide (k0 = k)); subst; [done|].
    intros Hd. rewrite !fmap_cons. by rewrite IH.
Qed.

(** ** Running the primitives *)

Lemma bind_run {A B} (m : M A) (f : A → M B) w :
  (m ≫= f) w
  = match m w with
    | (w', Ok a) => f a w'
    | (w', Raise e) => (w', Raise e)
    end.
Proof. reflexivity. Qed.

Lemma py_pop_run w l d k :
  w_heap w !! l = Some d →
  py_pop (VRef l) k w
  = (World (<[l := dict_pop k d]> (w_heap w)) (w_fs w) (w_log w), Ok ()).
Proof. intros H. unfold py_pop, mbind, M_bind, get_heap. by rewrite H. Qed.

Lemma py_setitem_run w l d k x :
  w_heap w !! l = Some d →
  py_setitem (VRef l) k x w
  = (World (<[l := dict_set k x d]> (w_heap w)) (w_fs w) (w_log w), Ok ()).
Proof. intros H. unfold py_setitem, mbind, M_bind, get_heap. by rewrite H. Qed.

Lemma for_each_pop_run ks : ∀ w l d,
  w_heap w !! l = Some d →
  for_each ks (λ key, py_pop (VRef l) key) w
  = (World (<[l := strip ks d]> (w_heap w)) (w_fs w) (w_log w), Ok ()).
Proof.
  induction ks as [|k ks IH]; intros w l d H; cbn [for_each].
  - destruct w. unfold pass, mret, M_ret. simpl in *. by rewrite list_insert_id.
  - rewrite bind_run, (py_pop_run _ _ d) by done.
    rewrite (IH _ l (dict_pop k d)); cbn [w_heap w_fs w_log].
    + by rewrite list_insert_insert_eq.
    + apply list_lookup_insert_eq. by eapply lookup_lt_Some.
Qed.

Lemma filter_id {A} (P : A → Prop) `{!∀ x, Decision (P x)} (l : list A) :
  (∀ x, x ∈ l → P x) → filter P l = l.
Proof.
  induction l as [|x l IH]; intros HP; [done|].
  rewrite filter_cons_True by (apply HP; left).
  rewrite IH; [done|]. intros y Hy. apply HP. by right.
Qed.

Lemma strip_keys_removed ks : ∀ d, keys_removed ks d (strip ks d).
Proof.
  unfold keys_removed, strip.
  induction ks as [|k ks IH]; intros d; simpl.
  - split_and!.
    + symmetry. apply filter_id. intros ? _. apply not_elem_of_nil.
    + done.
    + intros k Hk. by apply elem_of_nil in Hk.
  - destruct (IH (dict_pop k d)) as (Hk1 & Hk2 & Hk3). split_and!.
    + rewrite Hk1, dict_keys_pop, list_filter_filter.
      apply list_filter_iff. intros k'. rewrite not_elem_of_cons. tauto.
    + intros k' Hk'. apply not_elem_of_cons in Hk' as [? ?].
      rewrite Hk2 by done. rewrite dict_get_pop. by rewrite decide_False.
    + intros k' Hk'. destruct (decide (k' ∈ ks)) as [|Hn]; [by apply Hk3|].
      apply elem_of_cons in Hk' as [->|]; [|done].
      rewrite Hk2 by done. rewrite dict_get_pop. by rewrite decide_True.
Qed.

Lemma py_get_or_new_present w l d k x :
  w_heap w !! l = Some d → dict_get k d = Some x →
  py_get_or_new (VRef l) k w = (w, Ok x).
Proof.
  intros H Hk. unfold py_get_or_new, mbind, M_bind, get_heap. by rewrite H, Hk.
Qed.

Lemma py_get_or_new_absent w l d k :
  w_heap w !! l = Some d → dict_get k d = None →
  py_get_or_new (VRef l) k w
  = (World (w_heap w ++ [[]]) (w_fs w) (w_log w), Ok (VRef (length (w_heap w)))).
Proof.
  intros H Hk. unfold py_get_or_new, mbind, M_bind, get_heap. by rewrite H, Hk.
Qed.

(** ** [clean_resource], case by case *)

Lemma clean_resource_detailed obj w : clean_resource obj true w = (w, Ok obj).
Proof. reflexivity. Qed.

Lemma clean_resource_run_ref w obj d m md :
  w_heap w !! obj = Some d →
  dict_get "metadata" d = Some (VRef m) →
  m ≠ obj →
  w_heap w !! m = Some md →
  clean_resource (VRef obj) false w
  = (World (<[m := strip stripped_metadata_keys md]>
              (<[obj := dict_pop "status" d]> (w_heap w)))
           (w_fs w) (w_log w),
     Ok (VRef obj)).
Proof.
  intros Hobj Hmeta Hne Hm.
  assert (obj < length (w_heap w)) by by eapply lookup_lt_Some.
  assert (m < length (w_heap w)) by by eapply lookup_lt_Some.
  unfold clean_resource. cbn [negb].
  rewrite !bind_run, (py_pop_run _ _ d) by done. cbv beta iota.
  rewrite bind_run, (py_get_or_new_present _ _ (dict_pop "status" d) _ (VRef m)).
  2: { cbn [w_heap]. by apply list_lookup_insert_eq. }
  2: { rewrite dict_get_pop. by rewrite decide_False. }
  cbv beta iota. rewrite bind_run, (for_each_pop_run _ _ _ md).
  2: { cbn [w_heap]. by rewrite list_lookup_insert_ne. }
  cbv beta iota. cbn [w_heap w_fs w_log].
  rewrite (py_setitem_run _ _ (dict_pop "status" d)).
  2: { cbn [w_heap]. rewrite list_lookup_insert_ne by done.
       by apply list_lookup_insert_eq. }
  cbv beta iota. cbn [w_heap w_fs w_log]. unfold mret, M_ret.
  rewrite dict_set_same by (rewrite dict_get_pop; by rewrite decide_False).
  rewrite list_insert_id; [done|].
  rewrite list_lookup_insert_ne by done. by apply list_lookup_insert_eq.
Qed.

Lemma strip_nil ks : strip ks [] = [].
Proof. unfold strip. induction ks as [|k ks IH]; [done|]. simpl. exact IH. Qed.

Lemma clean_resource_run_absent w obj d :
  w_heap w !! obj = Some d →
  dict_get "metadata" d = None →
  clean_resource (VRef obj) false w
  = (World (<[obj := dict_pop "status" d
                     ++ [("metadata", VRef (length (w_heap w)))]]> (w_heap w)
            ++ [[]])
           (w_fs w) (w_log w),
     Ok (VRef obj)).
Proof.
  intros Hobj Hmeta.
  assert (obj < length (w_heap w)) by by eapply lookup_lt_Some.
  assert (dict_get "metadata" (dict_pop "status" d) = None) as Hmeta'
    by (rewrite dict_get_pop; by rewrite decide_False).
  unfold clean_resource. cbn [negb].
  rewrite !bind_run, (py_pop_run _ _ d) by done. cbv beta iota.
  rewrite bind_run, (py_get_or_new_absent _ _ (dict_pop "status" d)).
  2: { cbn [w_heap]. by apply list_lookup_insert_eq. }
  2: done.
  cbv beta iota. cbn [w_heap w_fs w_log]. rewrite length_insert.
  rewrite bind_run, (for_each_pop_run _ _ _ []).
  2: { cbn [w_heap]. rewrite lookup_app_r; rewrite length_insert; [|done].
       by rewrite Nat.sub_diag. }
  cbv beta iota. cbn [w_heap w_fs w_log].
  rewrite strip_nil.
  rewrite (list_insert_id (_ ++ _) (length (w_heap w))).
  2: { rewrite lookup_app_r; rewrite length_insert; [|done].
       by rewrite Nat.sub_diag. }
  rewrite (py_setitem_run _ _ (dict_pop "status" d)).
  2: { cbn [w_heap]. rewrite lookup_app_l by (by rewrite length_insert).
       by apply list_lookup_insert_eq. }
  cbv beta iota. cbn [w_heap w_fs w_log]. unfold mret, M_ret.
  rewrite dict_set_absent by done.
  rewrite insert_app_l by (by rewrite length_insert).
  by rewrite list_insert_insert_eq.
Qed.

Lemma clean_resource_run_raise w obj d v :
  w_heap w !! obj = Some d →
  dict_get "metadata" d = Some v →
  (∀ m, v = VRef m → w_heap w !! m = None) →
  ∃ e, clean_resource (VRef obj) false w
       = (World (<[obj := dict_pop "status" d]> (w_heap w)) (w_fs w) (w_log w),
          Raise e).
Proof.
  intros Hobj Hmeta Hv.
  assert (obj < length (w_heap w)) by by eapply lookup_lt_Some.
  unfold clean_resource. cbn [negb].
  rewrite !bind_run, (py_pop_run _ _ d) by done. cbv beta iota.
  rewrite bind_run, (py_get_or_new_present _ _ (dict_pop "status" d) _ v).
  2: { cbn [w_heap]. by apply list_lookup_insert_eq. }
  2: { rewrite dict_get_pop. by rewrite decide_False. }
  cbv beta iota. cbn [stripped_metadata_keys for_each]. rewrite !bind_run.
  destruct v as [| | | | |m]; try (eexists; reflexivity).
  unfold py_pop at 1. rewrite bind_run. unfold get_heap at 1. cbv beta iota.
  cbn [w_heap]. rewrite list_lookup_insert_ne.
  - rewrite (Hv m eq_refl). eexists; reflexivity.
  - intros ->. rewrite (Hv m eq_refl) in Hobj. done.
Qed.

Lemma pop_keys_removed k d : keys_removed [k] d (dict_pop k d).
Proof. exact (strip_keys_removed [k] d). Qed.

(** ** What [clean_resource] removes *)

(** C1.  Non-detailed normalization of a mapping item removes the key
    [status] from the item and the keys [uid], [resourceVersion],
    [generation], [managedFields], [creationTimestamp] from its metadata
    mapping, each only if present, and nothing else: the other keys keep
    their order and their values, at the top level, in the metadata and in
    every other object of the store (when the item has no metadata, an empty
    one is added last, and nothing is removed for that).  This is the state
    of the item also when the call raises on a metadata that is no mapping.
    Detailed normalization changes nothing at all. *)
Theorem clean_resource_removes_exactly (w : world) (obj : loc) (d : dict) :
  w_heap w !! obj = Some d →
  dict_get "metadata" d ≠ Some (VRef obj) →
  clean_resource (VRef obj) true w = (w, Ok (VRef obj)) ∧
  let w' := (clean_resource (VRef obj) false w).1 in
  (∃ d', w_heap w' !! obj = Some d' ∧
     match dict_get "metadata" d with
     | Some meta =>
         keys_removed ["status"] d d' ∧
         match meta with
         | VRef m =>
             ∀ md, w_heap w !! m = Some md →
               ∃ md', w_heap w' !! m = Some md' ∧
                      keys_removed stripped_metadata_keys md md'
         | _ => True
         end
     | None =>
         ∃ d'', d' = d'' ++ [("metadata", VRef (length (w_heap w)))] ∧
                keys_removed ["status"] d d'' ∧
                w_heap w' !! length (w_heap w) = Some []
     end) ∧
  (∀ l, l ≠ obj → dict_get "metadata" d ≠ Some (VRef l) →
        l < length (w_heap w) → w_heap w' !! l = w_heap w !! l).
Proof.
  intros Hobj Hself. split; [apply clean_resource_detailed|].
  assert (obj < length (w_heap w)) as Hlt by by eapply lookup_lt_Some.
  destruct (dict_get "metadata" d) as [meta|] eqn:Hmeta.
  - assert (∀ m, meta = VRef m → m ≠ obj) as Hne by (intros m -> ->; done).
    assert ((∃ m md, meta = VRef m ∧ w_heap w !! m = Some md)
            ∨ ¬ (∃ m md, meta = VRef m ∧ w_heap w !! m = Some md)) as Hcase.
    { destruct meta as [| | | | |m];
        try (right; by intros (? & ? & ? & ?)).
      destruct (w_heap w !! m) as [md|] eqn:Hm; [left; eauto|].
      right. intros (? & ? & [= <-] & ?). congruence. }
    destruct Hcase as [(m & md & -> & Hm)|Hno].
    + rewrite (clean_resource_run_ref w obj d m md) by eauto.
      cbn [fst w_heap].
      assert (m < length (w_heap w)) by by eapply lookup_lt_Some.
      split.
      * exists (dict_pop "status" d). split.
        { rewrite list_lookup_insert_ne by (by apply Hne).
          by apply list_lookup_insert_eq. }
        split; [apply pop_keys_removed|].
        intros md0 Hmd0. assert (md0 = md) as -> by congruence.
        eexists. split; [|apply strip_keys_removed].
        apply list_lookup_insert_eq. by rewrite length_insert.
      * intros l Hl Hlm _.
        rewrite !list_lookup_insert_ne; [done|done|congruence].
    + destruct (clean_resource_run_raise w obj d meta) as [e ->]; [done..| |].
      { intros m ->. destruct (w_heap w !! m) as [md|] eqn:Hm; [|done].
        exfalso. apply Hno. eauto. }
      cbn [fst w_heap]. split.
      * exists (dict_pop "status" d). split; [by apply list_lookup_insert_eq|].
        split; [apply pop_keys_removed|].
        destruct meta as [| | | | |m]; try done.
        intros md Hm. exfalso. apply Hno. eauto.
      * intros l Hl _ _. by rewrite list_lookup_insert_ne.
  - rewrite (clean_resource_run_absent w obj d) by done.
    cbn [fst w_heap]. split.
    + eexists. split.
      { rewrite lookup_app_l by (by rewrite length_insert).
        by apply list_lookup_insert_eq. }
      eexists. split; [done|]. split; [apply pop_keys_removed|].
      rewrite lookup_app_r; rewrite length_insert; [|done].
      by rewrite Nat.sub_diag.
    + intros l Hl _ Hllt.
      rewrite lookup_app_l by (by rewrite length_insert).
      by rewrite list_lookup_insert_ne.
Qed.

Lemma clean_resource_removes_exactly_witness :
  let w := World [[("status", VStr "Running"); ("metadata", VRef 1);
                   ("spec", VInt 1)];
                  [("name", VStr "web"); ("uid", VStr "1f")]] ∅ [] in
  let w' := (clean_resource (VRef 0) false w).1 in
  ∃ d', w_heap w' !! 0 = Some d' ∧
        keys_removed ["status"]
          [("status", VStr "Running"); ("metadata", VRef 1); ("spec", VInt 1)]
          d' ∧
        ∀ md, w_heap w !! 1 = Some md →
              ∃ md', w_heap w' !! 1 = Some md' ∧
                     keys_removed stripped_metadata_keys md md'.
Proof.
  cbv zeta.
  destruct (clean_resource_removes_exactly
              (World [[("status", VStr "Running"); ("metadata", VRef 1);
                       ("spec", VInt 1)];
                      [("name", VStr "web"); ("uid", VStr "1f")]] ∅ [])
              0 [("status", VStr "Running"); ("metadata", VRef 1);
                 ("spec", VInt 1)] eq_refl ltac:(discriminate))
    as (_ & (d' & Hd' & Hk & Hm) & _).
  exists d'. split_and!; [exact Hd' | exact Hk | exact Hm].
Defined.

(** ** [normalize_item] *)

Lemma normalize_item_run w obj d av kd detailed :
  w_heap w !! obj = Some d →
  normalize_item (VRef obj) av kd detailed w
  = clean_resource (VRef obj) detailed
      (World (<[obj := injected av kd d]> (w_heap w)) (w_fs w) (w_log w)).
Proof.
  intros Hobj.
  assert (obj < length (w_heap w)) by by eapply lookup_lt_Some.
  unfold normalize_item.
  rewrite bind_run, (py_setitem_run _ _ d) by done. cbv beta iota.
  rewrite bind_run, (py_setitem_run _ _ (dict_set "apiVersion" (VStr av) d)).
  2: { cbn [w_heap]. by apply list_lookup_insert_eq. }
  cbv beta iota. cbn [w_heap w_fs w_log].
  by rewrite list_insert_insert_eq.
Qed.

Lemma injected_get k av kd d :
  dict_get k (injected av kd d)
  = if decide (k = "kind") then Some (VStr kd)
    else if decide (k = "apiVersion") then Some (VStr av)
    else dict_get k d.
Proof. unfold injected. by rewrite !dict_get_set. Qed.

(** C2, as amended.  Every manifest the pipeline produces has the keys
    [apiVersion] and [kind], bound to the injected values, and in
    non-detailed mode the key [metadata], bound to a mapping.  When the raw
    item's metadata is a mapping with the key [name], the manifest is
    produced, in both modes, with [metadata] bound to that mapping, which
    still has [name] with the same value.  A raw item without metadata
    gives a manifest without metadata in detailed mode and with an empty
    metadata otherwise; a raw item whose metadata is a mapping without
    [name] gives a manifest whose metadata is that mapping, still without
    [name]. *)
Theorem normalize_item_guarantees (w : world) (obj : loc) (d : dict)
    (av kd : string) (detailed : bool) :
  w_heap w !! obj = Some d →
  dict_get "metadata" d ≠ Some (VRef obj) →
  (∀ w' v, normalize_item (VRef obj) av kd detailed w = (w', Ok v) →
     v = VRef obj ∧
     ∃ d', w_heap w' !! obj = Some d' ∧
           dict_get "apiVersion" d' = Some (VStr av) ∧
           dict_get "kind" d' = Some (VStr kd) ∧
           (detailed = false →
              ∃ m md', dict_get "metadata" d' = Some (VRef m) ∧
                       w_heap w' !! m = Some md')) ∧
  (∀ m md n,
     dict_get "metadata" d = Some (VRef m) → w_heap w !! m = Some md →
     dict_get "name" md = Some n →
     ∃ w', normalize_item (VRef obj) av kd detailed w = (w', Ok (VRef obj)) ∧
           ∃ d' md', w_heap w' !! obj = Some d' ∧
                     dict_get "metadata" d' = Some (VRef m) ∧
                     w_heap w' !! m = Some md' ∧
                     dict_get "name" md' = Some n) ∧
  (dict_get "metadata" d = None →
     ∃ w', normalize_item (VRef obj) av kd detailed w = (w', Ok (VRef obj)) ∧
           ∃ d', w_heap w' !! obj = Some d' ∧
                 if detailed then dict_get "metadata" d' = None
                 else ∃ m, dict_get "metadata" d' = Some (VRef m) ∧
                           w_heap w' !! m = Some []) ∧
  (∀ m md,
     dict_get "metadata" d = Some (VRef m) → w_heap w !! m = Some md →
     dict_get "name" md = None →
     ∃ w', normalize_item (VRef obj) av kd detailed w = (w', Ok (VRef obj)) ∧
           ∃ d' md', w_heap w' !! obj = Some d' ∧
                     dict_get "metadata" d' = Some (VRef m) ∧
                     w_heap w' !! m = Some md' ∧
                     dict_get "name" md' = None).
Proof.
  intros Hobj Hself.
  assert (obj < length (w_heap w)) as Hlt by by eapply lookup_lt_Some.
  rewrite (normalize_item_run w obj d) by done.
  set (d2 := injected av kd d).
  set (w2 := World (<[obj := d2]> (w_heap w)) (w_fs w) (w_log w)).
  assert (w_heap w2 !! obj = Some d2) as Hobj2
    by (by apply list_lookup_insert_eq).
  assert (dict_get "metadata" d2 = dict_get "metadata" d) as Hmeta2
    by (unfold d2; by rewrite injected_get).
  assert (dict_get "apiVersion" d2 = Some (VStr av)) as Hav
    by (unfold d2; by rewrite injected_get).
  assert (dict_get "kind" d2 = Some (VStr kd)) as Hkd
    by (unfold d2; by rewrite injected_get).
  assert (∀ l, l ≠ obj → w_heap w2 !! l = w_heap w !! l) as Hother
    by (intros l Hl; cbn [w2 w_heap]; by rewrite list_lookup_insert_ne).
  assert (length (w_heap w2) = length (w_heap w)) as Hlen
    by (cbn [w2 w_heap]; by rewrite length_insert).
  assert (obj < length (w_heap w2)) as Hlt2 by lia.
  clearbody w2 d2.
  split; [|split; [|split]].
  - intros w' v Hrun. destruct detailed.
    + rewrite clean_resource_detailed in Hrun. injection Hrun as <- <-.
      split; [done|]. exists d2. split_and!; [done..|discriminate].
    + destruct (dict_get "metadata" d2) as [meta|] eqn:Hmeta.
      * assert ((∃ m md, meta = VRef m ∧ w_heap w2 !! m = Some md)
                ∨ (∀ m, meta = VRef m → w_heap w2 !! m = None)) as Hcase.
        { destruct meta as [| | | | |m]; try (right; by intros ? [=]).
          destruct (w_heap w2 !! m) as [md|] eqn:Hm; [left; eauto|].
          right. by intros ? [= <-]. }
        destruct Hcase as [(m & md & -> & Hm)|Hno].
        -- assert (m ≠ obj) as Hne by (intros ->; congruence).
           rewrite (clean_resource_run_ref w2 obj d2 m md) in Hrun by done.
           injection Hrun as <- <-. split; [done|].
           assert (m < length (w_heap w2)) by by eapply lookup_lt_Some.
           exists (dict_pop "status" d2). cbn [w_heap].
           split_and!.
           ++ rewrite list_lookup_insert_ne by done.
              by apply list_lookup_insert_eq.
           ++ rewrite dict_get_pop. by rewrite decide_False.
           ++ rewrite dict_get_pop. by rewrite decide_False.
           ++ intros _. exists m. eexists. split.
              ** rewrite dict_get_pop. by rewrite decide_False.
              ** apply list_lookup_insert_eq. by rewrite length_insert.
        -- destruct (clean_resource_run_raise w2 obj d2 meta) as [e He];
             [done..|]. rewrite He in Hrun. discriminate.
      * rewrite (clean_resource_run_absent w2 obj d2) in Hrun by done.
        injection Hrun as <- <-. split; [done|].
        eexists. cbn [w_heap]. split_and!.
        -- rewrite lookup_app_l by (by rewrite length_insert).
           by apply list_lookup_insert_eq.
        -- rewrite dict_get_app, dict_get_pop, decide_False by done.
           by rewrite Hav.
        -- rewrite dict_get_app, dict_get_pop, decide_False by done.
           by rewrite Hkd.
        -- intros _. exists (length (w_heap w2)), []. split.
           ++ rewrite dict_get_app, dict_get_pop, decide_False by done.
              by rewrite Hmeta.
           ++ rewrite lookup_app_r; rewrite length_insert; [|done].
              by rewrite Nat.sub_diag.
  - intros m md n Hmeta Hm Hn.
    assert (m ≠ obj) as Hne by (intros ->; congruence).
    assert (w_heap w2 !! m = Some md) as Hm2 by (by rewrite Hother).
    assert (m < length (w_heap w2)) by by eapply lookup_lt_Some.
    destruct detailed.
    + rewrite clean_resource_detailed. eexists. split; [done|].
      exists d2, md. split_and!; [done| congruence | done | done].
    + rewrite (clean_resource_run_ref w2 obj d2 m md) by congruence.
      eexists. split; [done|]. cbn [w_heap].
      exists (dict_pop "status" d2), (strip stripped_metadata_keys md).
      split_and!.
      * rewrite list_lookup_insert_ne by done.
        by apply list_lookup_insert_eq.
      * rewrite dict_get_pop. rewrite decide_False by done. congruence.
      * apply list_lookup_insert_eq. by rewrite length_insert.
      * destruct (strip_keys_removed stripped_metadata_keys md) as (_ & Hk & _).
        rewrite Hk; [done|]. unfold stripped_metadata_keys.
        rewrite !not_elem_of_cons. split_and!; try done. apply not_elem_of_nil.
  - intros Hmeta. rewrite <- Hmeta2 in Hmeta. destruct detailed.
    + rewrite clean_resource_detailed. eexists. split; [done|]. by exists d2.
    + rewrite (clean_resource_run_absent w2 obj d2) by done.
      eexists. split; [done|]. cbn [w_heap]. eexists. split.
      * rewrite lookup_app_l by (by rewrite length_insert).
        by apply list_lookup_insert_eq.
      * exists (length (w_heap w2)). split.
        -- rewrite dict_get_app, dict_get_pop, decide_False by done.
           by rewrite Hmeta.
        -- rewrite lookup_app_r; rewrite length_insert; [|done].
           by rewrite Nat.sub_diag.
  - intros m md Hmeta Hm Hn.
    assert (m ≠ obj) as Hne by (intros ->; congruence).
    assert (w_heap w2 !! m = Some md) as Hm2 by (by rewrite Hother).
    assert (m < length (w_heap w2)) by by eapply lookup_lt_Some.
    destruct detailed.
    + rewrite clean_resource_detailed. eexists. split; [done|].
      exists d2, md. split_and!; [done| congruence | done | done].
    + rewrite (clean_resource_run_ref w2 obj d2 m md) by congruence.
      eexists. split; [done|]. cbn [w_heap].
      exists (dict_pop "status" d2), (strip stripped_metadata_keys md).
      split_and!.
      * rewrite list_lookup_insert_ne by done.
        by apply list_lookup_insert_eq.
      * rewrite dict_get_pop. rewrite decide_False by done. congruence.
      * apply list_lookup_insert_eq. by rewrite length_insert.
      * destruct (strip_keys_removed stripped_metadata_keys md) as (_ & Hk & _).
        rewrite Hk; [done|]. unfold stripped_metadata_keys.
        rewrite !not_elem_of_cons. split_and!; try done. apply not_elem_of_nil.
Qed.

Lemma normalize_item_guarantees_witness :
  ∃ w',
    normalize_item (VRef 0) "v1" "Pod" false
      (World [[("status", VNone); ("metadata", VRef 1)];
              [("name", VStr "web"); ("uid", VStr "1f")]] ∅ [])
    = (w', Ok (VRef 0)) ∧
    ∃ d' md', w_heap w' !! 0 = Some d' ∧
              dict_get "metadata" d' = Some (VRef 1) ∧
              w_heap w' !! 1 = Some md' ∧
              dict_get "name" md' = Some (VStr "web").
Proof.
  refine (proj1 (proj2 (normalize_item_guarantees
                   (World [[("status", VNone); ("metadata", VRef 1)];
                           [("name", VStr "web"); ("uid", VStr "1f")]] ∅ [])
                   0 _ "v1" "Pod" false _ _))
                1 _ (VStr "web") _ _ _);
    [reflexivity | discriminate | reflexivity..].
Defined.

(** C2 as stated fails: an item without metadata comes out of the detailed
    pipeline without metadata, and out of the non-detailed one with an empty
    metadata, which has no name. *)
Lemma normalize_item_without_name :
  normalize_item (VRef 0) "v1" "Pod" true (World [[]] ∅ [])
  = (World [[("apiVersion", VStr "v1"); ("kind", VStr "Pod")]] ∅ [],
     Ok (VRef 0)) ∧
  ¬ normalized_manifest [[("apiVersion", VStr "v1"); ("kind", VStr "Pod")]]
      (VRef 0) ∧
  normalize_item (VRef 0) "v1" "Pod" false (World [[]] ∅ [])
  = (World [[("apiVersion", VStr "v1"); ("kind", VStr "Pod");
             ("metadata", VRef 1)]; []] ∅ [],
     Ok (VRef 0)) ∧
  ¬ normalized_manifest [[("apiVersion", VStr "v1"); ("kind", VStr "Pod");
                          ("metadata", VRef 1)]; []]
      (VRef 0).
Proof.
  split_and!; [reflexivity | | reflexivity | ].
  - intros (l & d & m & md & [= <-] & Hl & _ & _ & Hmeta & _).
    injection Hl as <-. discriminate.
  - intros (l & d & m & md & [= <-] & Hl & _ & _ & Hmeta & Hm & [n Hn]).
    injection Hl as <-. injection Hmeta as <-. injection Hm as <-.
    discriminate.
Qed.

(** C4, as amended.  On a mapping whose metadata is absent or a mapping,
    [clean_resource] returns, and returns its input object; what it does to
    the store depends on the store alone and not on the files or the log,
    which it leaves as they are; in the store it updates in place its input
    and the metadata of its input, and no other object; with [detailed] it
    changes nothing. *)
Theorem clean_resource_effects (w : world) (obj : loc) (d : dict)
    (detailed : bool) :
  w_heap w !! obj = Some d →
  (dict_get "metadata" d = None ∨
   ∃ m md, dict_get "metadata" d = Some (VRef m) ∧ m ≠ obj ∧
           w_heap w !! m = Some md) →
  ∃ h',
    (∀ fs lg, clean_resource (VRef obj) detailed (World (w_heap w) fs lg)
              = (World h' fs lg, Ok (VRef obj))) ∧
    (detailed = true → h' = w_heap w) ∧
    (∀ l, l ≠ obj → dict_get "metadata" d ≠ Some (VRef l) →
          l < length (w_heap w) → h' !! l = w_heap w !! l).
Proof.
  intros Hobj Hmeta.
  assert (obj < length (w_heap w)) as Hlt by by eapply lookup_lt_Some.
  destruct detailed.
  - exists (w_heap w). split_and!; [|done..].
    intros fs lg. apply clean_resource_detailed.
  - destruct Hmeta as [Hnone|(m & md & Hm & Hne & Hmd)].
    + exists (<[obj := dict_pop "status" d
                         ++ [("metadata", VRef (length (w_heap w)))]]> (w_heap w)
              ++ [[]]).
      split_and!.
      * intros fs lg.
        by rewrite (clean_resource_run_absent (World (w_heap w) fs lg) obj d).
      * discriminate.
      * intros l Hl _ Hllt. cbn [w_heap].
        rewrite lookup_app_l by (by rewrite length_insert).
        by rewrite list_lookup_insert_ne.
    + exists (<[m := strip stripped_metadata_keys md]>
                (<[obj := dict_pop "status" d]> (w_heap w))).
      split_and!.
      * intros fs lg.
        by rewrite (clean_resource_run_ref (World (w_heap w) fs lg) obj d m md).
      * discriminate.
      * intros l Hl Hlm _. cbn [w_heap].
        rewrite !list_lookup_insert_ne; [done|done|congruence].
Qed.

Lemma clean_resource_effects_witness :
  ∃ h',
    (∀ fs lg,
       clean_resource (VRef 0) false
         (World [[("status", VNone); ("metadata", VRef 1)];
                 [("name", VStr "web"); ("uid", VStr "1f")]] fs lg)
       = (World h' fs lg, Ok (VRef 0))) ∧
    (false = true →
     h' = [[("status", VNone); ("metadata", VRef 1)];
           [("name", VStr "web"); ("uid", VStr "1f")]]) ∧
    (∀ l, l ≠ 0 →
          dict_get "metadata" [("status", VNone); ("metadata", VRef 1)]
          ≠ Some (VRef l) →
          l < 2 →
          h' !! l = [[("status", VNone); ("metadata", VRef 1)];
                     [("name", VStr "web"); ("uid", VStr "1f")]] !! l).
Proof.
  refine (clean_resource_effects
            (World [[("status", VNone); ("metadata", VRef 1)];
                    [("name", VStr "web"); ("uid", VStr "1f")]] ∅ [])
            0 _ false _ _); [reflexivity|].
  right. exists 1, [("name", VStr "web"); ("uid", VStr "1f")].
  split_and!; [reflexivity | lia | reflexivity].
Defined.

(** C4 as stated fails: the call changes its argument, and it raises on a
    mapping whose metadata is a string. *)
Lemma clean_resource_changes_its_argument :
  (let w := World [[("status", VStr "Running"); ("metadata", VRef 1)];
                   [("name", VStr "web"); ("uid", VStr "1f")]] ∅ [] in
   w_heap w !! 0 = Some [("status", VStr "Running"); ("metadata", VRef 1)] ∧
   clean_resource (VRef 0) false w
   = (World [[("metadata", VRef 1)]; [("name", VStr "web")]] ∅ [],
      Ok (VRef 0))) ∧
  clean_resource (VRef 0) false (World [[("metadata", VStr "x")]] ∅ [])
  = (World [[("metadata", VStr "x")]] ∅ [], Raise AttributeError).
Proof. split; [split|]; reflexivity. Qed.

(** ** [reorder_keys] *)

Lemma filter_ext_in {A} (P Q : A → Prop)
    `{!∀ x, Decision (P x), !∀ x, Decision (Q x)} (l : list A) :
  (∀ x, x ∈ l → (P x ↔ Q x)) → filter P l = filter Q l.
Proof.
  induction l as [|x l IH]; intros Hl; [done|].
  assert (filter P l = filter Q l) as Htl
    by (apply IH; intros y Hy; apply Hl; by right).
  rewrite !filter_cons, Htl.
  pose proof (Hl x (list_elem_of_here _ _)) as Hx.
  destruct (decide (P x)) as [HP|HP], (decide (Q x)) as [HQ|HQ];
    try done; tauto.
Qed.

Lemma dict_keys_app (d1 d2 : dict) :
  dict_keys (d1 ++ d2) = dict_keys d1 ++ dict_keys d2.
Proof. unfold dict_keys. apply fmap_app. Qed.

Lemma dict_contains_true k d : dict_contains k d = true ↔ k ∈ dict_keys d.
Proof.
  unfold dict_contains. destruct (dict_get k d) as [v|] eqn:Hk.
  - split; [intros _; by eapply dict_get_Some_keys | done].
  - apply dict_get_None in Hk. split; [done | by intros ?].
Qed.

Lemma dict_keys_picked ks obj :
  dict_keys (picked ks obj) = filter (λ k, k ∈ dict_keys obj) ks.
Proof.
  unfold picked. induction ks as [|k ks IH]; [done|].
  cbn [omap list_omap]. rewrite filter_cons.
  destruct (dict_get k obj) as [v|] eqn:Hk; cbn [fmap option_fmap option_map].
  - rewrite decide_True by (by eapply dict_get_Some_keys).
    unfold dict_keys in *. rewrite fmap_cons. cbn [fst]. by rewrite IH.
  - rewrite decide_False by (by apply dict_get_None). exact IH.
Qed.

Lemma fill_priority_run obj ks : ∀ acc,
  NoDup ks →
  (∀ k, k ∈ ks → k ∉ dict_keys acc) →
  foldl (λ ordered key,
           match dict_get key obj with
           | Some v => dict_set key v ordered
           | None => ordered
           end) acc ks
  = acc ++ picked ks obj.
Proof.
  unfold picked. induction ks as [|k ks IH]; intros acc Hnd Hfresh.
  - simpl. by rewrite app_nil_r.
  - apply NoDup_cons in Hnd as [Hk Hnd]. cbn [foldl omap list_omap].
    destruct (dict_get k obj) as [v|] eqn:Hget;
      cbn [fmap option_fmap option_map].
    + rewrite dict_set_absent
        by (apply dict_get_None, Hfresh; left).
      rewrite IH; [by rewrite <- app_assoc | done |].
      intros k' Hk'. rewrite dict_keys_app, not_elem_of_app. split.
      * apply Hfresh. by right.
      * cbn. rewrite not_elem_of_cons. split; [|apply not_elem_of_nil].
        intros ->. done.
    + apply IH; [done|]. intros k' Hk'. apply Hfresh. by right.
Qed.

Lemma fill_rest_run (rest : dict) : ∀ acc,
  NoDup (dict_keys rest) →
  foldl (λ ordered kv,
           if dict_contains kv.1 ordered then ordered
           else dict_set kv.1 kv.2 ordered) acc rest
  = acc ++ filter (λ kv, kv.1 ∉ dict_keys acc) rest.
Proof.
  induction rest as [|[k v] rest IH]; intros acc Hnd.
  - simpl. by rewrite app_nil_r.
  - unfold dict_keys in Hnd. rewrite fmap_cons in Hnd.
    apply NoDup_cons in Hnd as [Hk Hnd]. cbn [fst] in Hk.
    cbn [foldl fst snd]. rewrite filter_cons. cbn [fst].
    destruct (dict_contains k acc) eqn:Hc.
    + apply dict_contains_true in Hc.
      rewrite decide_False by (intros Hn; by apply Hn). by apply IH.
    + assert (k ∉ dict_keys acc) as Hn.
      { intros Hin. apply dict_contains_true in Hin. congruence. }
      rewrite decide_True by done.
      rewrite dict_set_absent by (by apply dict_get_None).
      rewrite IH by done. rewrite <- app_assoc. f_equal. cbn [app]. f_equal.
      apply filter_ext_in. intros [k' v'] Hin. cbn [fst].
      rewrite dict_keys_app, not_elem_of_app. cbn.
      rewrite not_elem_of_cons. split; [tauto|]. intros Hk'.
      split_and!; [done| |apply not_elem_of_nil].
      intros ->. apply Hk. apply list_elem_of_fmap. by exists (k, v').
Qed.

Lemma priority_keys_NoDup : NoDup priority_keys.
Proof. by apply (bool_decide_unpack _). Qed.

Lemma reorder_keys_eq (d : dict) :
  NoDup (dict_keys d) →
  reorder_keys d
  = picked priority_keys d ++ filter (λ kv, kv.1 ∉ priority_keys) d.
Proof.
  intros Hnd. unfold reorder_keys.
  rewrite (fill_priority_run d priority_keys [])
    by (apply priority_keys_NoDup || (intros ? _; apply not_elem_of_nil)).
  cbn [app]. rewrite fill_rest_run by done. f_equal.
  apply filter_ext_in. intros [k v] Hin. cbn [fst].
  rewrite dict_keys_picked, list_elem_of_filter.
  assert (k ∈ dict_keys d) by (apply list_elem_of_fmap; by exists (k, v)).
  tauto.
Qed.

Lemma dict_keys_filter (P : string → Prop) `{!∀ k, Decision (P k)} (d : dict) :
  dict_keys (filter (λ kv, P kv.1) d) = filter P (dict_keys d).
Proof.
  unfold dict_keys. induction d as [|[k v] d IH]; [done|].
  rewrite fmap_cons, !filter_cons. cbn [fst].
  destruct (decide (P k)); [rewrite fmap_cons; cbn [fst]|]; by rewrite IH.
Qed.

Lemma reorder_keys_keys (d : dict) :
  NoDup (dict_keys d) →
  dict_keys (reorder_keys d) = manifest_key_order (dict_keys d).
Proof.
  intros Hnd. rewrite reorder_keys_eq by done. unfold manifest_key_order.
  rewrite dict_keys_app, dict_keys_picked. f_equal.
  exact (dict_keys_filter (λ k, k ∉ priority_keys) d).
Qed.

Lemma dict_get_elem_of k v (d : dict) :
  NoDup (dict_keys d) → (dict_get k d = Some v ↔ (k, v) ∈ d).
Proof.
  unfold dict_keys. induction d as [|[k0 v0] d IH]; intros Hnd.
  - simpl. split; [done|]. intros H. by apply elem_of_nil in H.
  - rewrite fmap_cons in Hnd. apply NoDup_cons in Hnd as [Hk0 Hnd].
    cbn [fst] in Hk0. cbn [dict_get]. rewrite elem_of_cons.
    destruct (decide (k0 = k)) as [->|Hne].
    + split; [intros [= ->]; by left|].
      intros [[= ->]|Hin]; [done|]. exfalso. apply Hk0.
      apply list_elem_of_fmap. by exists (k, v).
    + rewrite IH by done. split; [by right|]. intros [[= ? ?]|?]; done.
Qed.

Lemma manifest_key_order_NoDup ks : NoDup ks → NoDup (manifest_key_order ks).
Proof.
  intros Hnd. unfold manifest_key_order. apply NoDup_app. split_and!.
  - apply NoDup_filter, priority_keys_NoDup.
  - intros k Hk1 Hk2. apply list_elem_of_filter in Hk1 as [_ Hk1].
    apply list_elem_of_filter in Hk2 as [Hk2 _]. done.
  - by apply NoDup_filter.
Qed.

(** C10.  The reordering keeps the content of the mapping: [ordered] holds
    the items of the manifest, each once ([ordered] is a rearrangement of
    its items, with no key twice), and every key is bound in [ordered] to
    what it is bound to in the manifest. *)
Theorem reorder_keys_preserves_content (d : dict) :
  NoDup (dict_keys d) →
  reorder_keys d ≡ₚ d ∧
  NoDup (dict_keys (reorder_keys d)) ∧
  ∀ k, dict_get k (reorder_keys d) = dict_get k d.
Proof.
  intros Hnd.
  assert (NoDup (dict_keys (reorder_keys d))) as Hnd'.
  { rewrite reorder_keys_keys by done. by apply manifest_key_order_NoDup. }
  assert (∀ k v, (k, v) ∈ reorder_keys d ↔ (k, v) ∈ d) as Hin.
  { intros k v. rewrite reorder_keys_eq by done.
    rewrite elem_of_app, list_elem_of_filter. unfold picked.
    rewrite list_elem_of_omap. cbn [fst]. split.
    - intros [(k' & Hk' & Hsome)|[_ ?]]; [|done].
      destruct (dict_get k' d) as [v'|] eqn:Hget; [|done].
      injection Hsome as <- <-. by apply dict_get_elem_of.
    - intros Hd. destruct (decide (k ∈ priority_keys)) as [Hp|Hp].
      + left. exists k. split; [done|].
        apply dict_get_elem_of in Hd; [|done]. by rewrite Hd.
      + by right. }
  split_and!; [|done|].
  - apply NoDup_Permutation.
    + eapply NoDup_fmap_1. exact Hnd'.
    + eapply NoDup_fmap_1. exact Hnd.
    + intros [k v]. apply Hin.
  - intros k. destruct (dict_get k d) as [v|] eqn:Hget.
    + apply dict_get_elem_of; [done|]. apply Hin. by apply dict_get_elem_of.
    + destruct (dict_get k (reorder_keys d)) as [v|] eqn:Hget'; [|done].
      apply dict_get_elem_of in Hget'; [|done]. apply Hin in Hget'.
      apply dict_get_elem_of in Hget'; [|done]. congruence.
Qed.

Lemma reorder_keys_preserves_content_witness :
  reorder_keys [("status", VNone); ("spec", VInt 1); ("kind", VStr "Pod")]
  ≡ₚ [("status", VNone); ("spec", VInt 1); ("kind", VStr "Pod")] ∧
  NoDup (dict_keys (reorder_keys
           [("status", VNone); ("spec", VInt 1); ("kind", VStr "Pod")])) ∧
  ∀ k, dict_get k (reorder_keys
                     [("status", VNone); ("spec", VInt 1); ("kind", VStr "Pod")])
       = dict_get k [("status", VNone); ("spec", VInt 1); ("kind", VStr "Pod")].
Proof.
  apply (reorder_keys_preserves_content
           [("status", VNone); ("spec", VInt 1); ("kind", VStr "Pod")]).
  by apply (bool_decide_unpack _).
Defined.

(** ** Frame reasoning in the monad *)

Section Preserves.
Context (R : world → world → Prop) `{!Reflexive R, !Transitive R}.

Lemma preserves_ret {A} (a : A) : preserves R (mret a).
Proof. intros w. simpl. reflexivity. Qed.

Lemma preserves_pass : preserves R pass.
Proof. apply preserves_ret. Qed.

Lemma preserves_raise {A} e : preserves R (@raise A e).
Proof. intros w. simpl. reflexivity. Qed.

Lemma preserves_bind {A B} (m : M A) (f : A → M B) :
  preserves R m → (∀ a, preserves R (f a)) → preserves R (m ≫= f).
Proof.
  intros Hm Hf w. rewrite bind_run. specialize (Hm w).
  destruct (m w) as [w1 [a|e]]; simpl in *; [|done].
  etrans; [exact Hm | apply Hf].
Qed.

Lemma preserves_try_except {A} (m : M A) (handler : exn → M A) :
  preserves R m → (∀ e, preserves R (handler e)) →
  preserves R (try_except m handler).
Proof.
  intros Hm Hh w. unfold try_except. specialize (Hm w).
  destruct (m w) as [w1 [a|e]]; simpl in *; [done|].
  etrans; [exact Hm | apply Hh].
Qed.

Lemma preserves_for_each {A} (xs : list A) (body : A → M unit) :
  (∀ x, x ∈ xs → preserves R (body x)) → preserves R (for_each xs body).
Proof.
  induction xs as [|x xs IH]; intros Hbody; cbn [for_each].
  - apply preserves_pass.
  - apply preserves_bind; [apply Hbody; left|].
    intros _. apply IH. intros y Hy. apply Hbody. by right.
Qed.

Lemma preserves_get_fs : preserves R get_fs.
Proof. intros w. simpl. reflexivity. Qed.
End Preserves.

Global Instance dirs_added_refl : Reflexive dirs_added.
Proof. intros w. split_and!; [done..|]. intros p. by left. Qed.

Global Instance dirs_added_trans : Transitive dirs_added.
Proof.
  intros w1 w2 w3 (Hh1 & Hl1 & Hf1) (Hh2 & Hl2 & Hf2).
  split_and!; [congruence..|].
  intros p. destruct (Hf1 p) as [E1|[N1 D1]], (Hf2 p) as [E2|[N2 D2]].
  - left. congruence.
  - right. split; congruence.
  - right. split; congruence.
  - congruence.
Qed.

Lemma os_mkdir_dirs_added p : preserves dirs_added (os_mkdir p).
Proof.
  intros w. unfold os_mkdir. rewrite bind_run. unfold get_fs. cbv beta iota.
  destruct (p_parts p); [simpl; reflexivity|].
  destruct (node_at (w_fs w) (parent p)) as [[]|]; try (simpl; reflexivity).
  destruct (w_fs w !! p) eqn:Hp; [simpl; reflexivity|].
  unfold put_fs. cbn [fst w_heap w_fs w_log].
  split_and!; [done..|]. intros q. cbn [w_fs].
  destruct (decide (q = p)) as [->|Hne].
  - right. by rewrite lookup_insert_eq.
  - left. by rewrite lookup_insert_ne.
Qed.

Lemma is_dir_check_dirs_added p e :
  preserves dirs_added (b ← is_dir p; if (b : bool) then pass else raise e).
Proof.
  intros w. rewrite bind_run. simpl.
  destruct (node_at (w_fs w) p) as [[]|]; simpl; reflexivity.
Qed.

Lemma mkdir_exist_ok_dirs_added p : preserves dirs_added (mkdir_exist_ok p).
Proof.
  apply preserves_try_except; try apply _; [apply os_mkdir_dirs_added|].
  intros e. destruct e as [| | |[]|]; try (apply preserves_raise; apply _);
    apply is_dir_check_dirs_added.
Qed.

Lemma mkdir_parents_rev_dirs_added a rparts :
  preserves dirs_added (mkdir_parents_rev a rparts).
Proof.
  induction rparts as [|c rparts IH]; cbn [mkdir_parents_rev].
  - apply preserves_try_except; try apply _; [apply os_mkdir_dirs_added|].
    intros e. destruct e as [| | |[]|]; try (apply preserves_raise; apply _);
      apply is_dir_check_dirs_added.
  - apply preserves_try_except; try apply _; [apply os_mkdir_dirs_added|].
    intros e. destruct e as [| | |[]|]; try (apply preserves_raise; apply _);
      try apply is_dir_check_dirs_added.
    apply preserves_bind; try apply _; [exact IH|].
    intros _. apply mkdir_exist_ok_dirs_added.
Qed.

Lemma mkdir_parents_dirs_added p : preserves dirs_added (mkdir_parents p).
Proof. apply mkdir_parents_rev_dirs_added. Qed.

(** ** [save_object], case by case *)

Lemma py_get_run w l d k :
  w_heap w !! l = Some d →
  py_get (VRef l) k w = (w, Ok (default VNone (dict_get k d))).
Proof. intros H. unfold py_get, mbind, M_bind, get_heap. by rewrite H. Qed.

Lemma py_items_run w l d :
  w_heap w !! l = Some d → py_items (VRef l) w = (w, Ok d).
Proof. intros H. unfold py_items, mbind, M_bind, get_heap. by rewrite H. Qed.

Lemma py_truthy_run v w : py_truthy v w = (w, Ok (truthy (w_heap w) v)).
Proof. reflexivity. Qed.

Section SaveObject.
Variable format_value : heap → pyval → string.

Lemma py_format_run v w :
  py_format format_value v w = (w, Ok (fstring format_value (w_heap w) v)).
Proof. reflexivity. Qed.

Lemma save_object_no_metadata w obj d base rn ns :
  w_heap w !! obj = Some d →
  dict_get "metadata" d = None →
  save_object format_value (VRef obj) base rn ns w
  = (World (w_heap w ++ [[]]) (w_fs w) (w_log w), Ok ()).
Proof.
  intros Hobj Hmeta. unfold save_object.
  rewrite bind_run, (py_get_or_new_absent _ _ d) by done. cbv beta iota.
  rewrite bind_run, (py_get_run _ _ []).
  2: { cbn [w_heap]. rewrite lookup_app_r by done. by rewrite Nat.sub_diag. }
  reflexivity.
Qed.

Lemma save_object_falsy_name w obj d m md base rn ns :
  w_heap w !! obj = Some d →
  dict_get "metadata" d = Some (VRef m) →
  w_heap w !! m = Some md →
  truthy (w_heap w) (default VNone (dict_get "name" md)) = false →
  save_object format_value (VRef obj) base rn ns w = (w, Ok ()).
Proof.
  intros Hobj Hmeta Hm Hfalsy. unfold save_object.
  rewrite bind_run, (py_get_or_new_present _ _ d _ (VRef m)) by done.
  cbv beta iota. rewrite bind_run, (py_get_run _ _ md) by done.
  cbv beta iota. rewrite bind_run, py_truthy_run. cbv beta iota.
  by rewrite Hfalsy.
Qed.

Lemma save_object_bad_metadata w obj d v base rn ns :
  w_heap w !! obj = Some d →
  dict_get "metadata" d = Some v →
  (∀ m, v = VRef m → w_heap w !! m = None) →
  save_object format_value (VRef obj) base rn ns w = (w, Raise AttributeError).
Proof.
  intros Hobj Hmeta Hv. unfold save_object.
  rewrite bind_run, (py_get_or_new_present _ _ d _ v) by done.
  cbv beta iota. rewrite bind_run.
  destruct v as [| | | | |m]; try reflexivity.
  unfold py_get, mbind at 1, M_bind at 1, get_heap.
  by rewrite (Hv m eq_refl).
Qed.

Lemma save_object_named w obj d m md nv base rn ns :
  w_heap w !! obj = Some d →
  dict_get "metadata" d = Some (VRef m) →
  w_heap w !! m = Some md →
  dict_get "name" md = Some nv →
  truthy (w_heap w) nv = true →
  let path :=
    object_path base rn ns (fstring format_value (w_heap w) nv +:+ ".yaml") in
  save_object format_value (VRef obj) base rn ns w
  = (mkdir_parents (parent path);;
     write_yaml path (Document (reorder_keys d) (w_heap w))) w.
Proof.
  intros Hobj Hmeta Hm Hname Htruthy path. unfold save_object.
  rewrite bind_run, (py_get_or_new_present _ _ d _ (VRef m)) by done.
  cbv beta iota. rewrite bind_run, (py_get_run _ _ md) by done.
  cbv beta iota. rewrite Hname. change (default VNone (Some nv)) with nv.
  rewrite bind_run, py_truthy_run. cbv beta iota. rewrite Htruthy.
  cbn [negb]. rewrite bind_run, py_format_run. cbv beta iota. fold path.
  rewrite !(bind_run (mkdir_parents (parent path))).
  pose proof (mkdir_parents_dirs_added (parent path) w) as (Hh & _ & _).
  destruct (mkdir_parents (parent path) w) as [w1 [[]|e]]; [|done].
  cbn [fst] in Hh.
  rewrite bind_run, (py_items_run _ _ d) by (by rewrite Hh).
  cbv beta iota. rewrite bind_run. unfold get_heap at 1. cbv beta iota.
  by rewrite Hh.
Qed.
End SaveObject.

Lemma write_yaml_run p doc w :
  write_yaml p doc w
  = (World (w_heap w) (<[p := File doc]> (w_fs w)) (w_log w), Ok ())
  ∨ ∃ e, write_yaml p doc w = (w, Raise e).
Proof.
  unfold write_yaml. rewrite bind_run. unfold get_fs. cbv beta iota.
  destruct (p_parts p); [right; by eexists|].
  destruct (node_at (w_fs w) (parent p)) as [[]|]; try (right; by eexists).
  destruct (w_fs w !! p) as [[]|]; try (right; by eexists); by left.
Qed.

Section SaveObjectWrites.
Variable format_value : heap → pyval → string.

(** Either the call leaves the files as they are, or the item has a
    metadata mapping with a name that counts as true. *)
Lemma save_object_cases w obj d base rn ns :
  w_heap w !! obj = Some d →
  w_fs (save_object format_value (VRef obj) base rn ns w).1 = w_fs w
  ∨ ∃ m md nv,
      dict_get "metadata" d = Some (VRef m) ∧ w_heap w !! m = Some md ∧
      dict_get "name" md = Some nv ∧ truthy (w_heap w) nv = true.
Proof.
  intros Hobj. destruct (dict_get "metadata" d) as [v|] eqn:Hmeta.
  - assert ((∃ m md, v = VRef m ∧ w_heap w !! m = Some md)
            ∨ (∀ m, v = VRef m → w_heap w !! m = None)) as [Hcase|Hcase].
    { destruct v as [| | | | |m]; try (right; by intros ? [=]).
      destruct (w_heap w !! m) as [md|] eqn:Hm; [left; eauto|].
      right. by intros ? [= <-]. }
    + destruct Hcase as (m & md & -> & Hm).
      destruct (truthy (w_heap w) (default VNone (dict_get "name" md)))
        eqn:Htruthy.
      * destruct (dict_get "name" md) as [nv|] eqn:Hname; [|done].
        right. by exists m, md, nv.
      * left. by rewrite (save_object_falsy_name _ w obj d m md).
    + left. by rewrite (save_object_bad_metadata _ w obj d v).
  - left. by rewrite (save_object_no_metadata _ w obj d).
Qed.

(** A file that is there after the call, and was not there so before,
    is the one at the object's path and holds the reordered item. *)
Lemma save_object_written w obj d base rn ns p doc :
  w_heap w !! obj = Some d →
  w_fs (save_object format_value (VRef obj) base rn ns w).1 !! p
  = Some (File doc) →
  w_fs w !! p ≠ Some (File doc) →
  doc = Document (reorder_keys d) (w_heap w) ∧
  ∃ m md nv,
    dict_get "metadata" d = Some (VRef m) ∧ w_heap w !! m = Some md ∧
    dict_get "name" md = Some nv ∧ truthy (w_heap w) nv = true ∧
    p = object_path base rn ns
          (fstring format_value (w_heap w) nv +:+ ".yaml").
Proof.
  intros Hobj Hafter Hbefore.
  destruct (save_object_cases w obj d base rn ns Hobj)
    as [Hsame|(m & md & nv & Hmeta & Hm & Hname & Htruthy)].
  { rewrite Hsame in Hafter. done. }
  rewrite (save_object_named _ w obj d m md nv) in Hafter by done.
  set (path := object_path base rn ns _) in *.
  rewrite bind_run in Hafter.
  pose proof (mkdir_parents_dirs_added (parent path) w) as (Hh & _ & Hfs).
  destruct (mkdir_parents (parent path) w) as [w1 [[]|e]];
    cbn [fst] in Hh, Hfs.
  - destruct (write_yaml_run path (Document (reorder_keys d) (w_heap w)) w1)
      as [Hw|[e Hw]]; rewrite Hw in Hafter; cbn [fst w_fs] in Hafter.
    + destruct (decide (p = path)) as [->|Hne].
      * rewrite lookup_insert_eq in Hafter. injection Hafter as <-.
        split; [done|]. by exists m, md, nv.
      * rewrite lookup_insert_ne in Hafter by done.
        destruct (Hfs p) as [E|[_ E]]; congruence.
    + destruct (Hfs p) as [E|[_ E]]; congruence.
  - cbn [fst] in Hafter. destruct (Hfs p) as [E|[_ E]]; congruence.
Qed.

(** When the call returns, the file at the object's path holds the
    reordered item. *)
Lemma save_object_ok_written w w' obj d m md nv base rn ns :
  w_heap w !! obj = Some d →
  dict_get "metadata" d = Some (VRef m) →
  w_heap w !! m = Some md →
  dict_get "name" md = Some nv →
  truthy (w_heap w) nv = true →
  save_object format_value (VRef obj) base rn ns w = (w', Ok ()) →
  w_fs w' !! object_path base rn ns
               (fstring format_value (w_heap w) nv +:+ ".yaml")
  = Some (File (Document (reorder_keys d) (w_heap w))).
Proof.
  intros Hobj Hmeta Hm Hname Htruthy.
  rewrite (save_object_named _ w obj d m md nv) by done.
  set (path := object_path base rn ns _).
  rewrite bind_run.
  destruct (mkdir_parents (parent path) w) as [w1 [[]|e]]; [|done].
  destruct (write_yaml_run path (Document (reorder_keys d) (w_heap w)) w1)
    as [Hw|[e Hw]]; rewrite Hw; [|done].
  intros [= <-]. cbn [w_fs]. by rewrite lookup_insert_eq.
Qed.
End SaveObjectWrites.

(** C7.  An item whose metadata is absent, or is a mapping without the key
    [name], is not written: [save_object] returns, and the file system is
    what it was, no file created or changed and no directory created. *)
Theorem save_object_without_name_writes_nothing
    (format_value : heap → pyval → string) (w : world) (obj : loc) (d : dict)
    (base_dir : ppath) (resource_name : string) (namespace : option string) :
  w_heap w !! obj = Some d →
  (dict_get "metadata" d = None
   ∨ ∃ m md, dict_get "metadata" d = Some (VRef m) ∧
             w_heap w !! m = Some md ∧ dict_get "name" md = None) →
  ∃ w', save_object format_value (VRef obj) base_dir resource_name namespace w
        = (w', Ok ()) ∧
        w_fs w' = w_fs w.
Proof.
  intros Hobj [Hnone|(m & md & Hmeta & Hm & Hname)].
  - rewrite (save_object_no_metadata _ w obj d) by done. by eexists.
  - rewrite (save_object_falsy_name _ w obj d m md) by (by rewrite ?Hname).
    by eexists.
Qed.

Lemma save_object_without_name_writes_nothing_witness :
  ∃ w',
    save_object (λ _ _, "") (VRef 0) (PPath Root ["data"]) "pods" (Some "ns1")
      (World [[("kind", VStr "Pod"); ("metadata", VRef 1)];
              [("labels", VNone)]] ∅ [])
    = (w', Ok ()) ∧
    w_fs w' = ∅.
Proof.
  refine (save_object_without_name_writes_nothing (λ _ _, "")
            (World [[("kind", VStr "Pod"); ("metadata", VRef 1)];
                    [("labels", VNone)]] ∅ [])
            0 _ (PPath Root ["data"]) "pods" (Some "ns1") _ _);
    [reflexivity|].
  right. exists 1, [("labels", VNone)]. split_and!; reflexivity.
Defined.

(** C9.  An item whose metadata has a [name] that counts as false, the empty
    string among them, is not written either: [save_object] returns and the
    world is what it was. *)
Theorem save_object_falsy_name_writes_nothing
    (format_value : heap → pyval → string) (w : world) (obj m : loc)
    (d md : dict) (name : pyval)
    (base_dir : ppath) (resource_name : string) (namespace : option string) :
  w_heap w !! obj = Some d →
  dict_get "metadata" d = Some (VRef m) →
  w_heap w !! m = Some md →
  dict_get "name" md = Some name →
  name = VStr "" ∨ truthy (w_heap w) name = false →
  save_object format_value (VRef obj) base_dir resource_name namespace w
  = (w, Ok ()).
Proof.
  intros Hobj Hmeta Hm Hname Hfalsy.
  apply (save_object_falsy_name _ w obj d m md); try done.
  rewrite Hname. by destruct Hfalsy as [->|?].
Qed.

Lemma save_object_falsy_name_writes_nothing_witness :
  save_object (λ _ _, "") (VRef 0) (PPath Root ["data"]) "pods" (Some "ns1")
    (World [[("kind", VStr "Pod"); ("metadata", VRef 1)];
            [("name", VStr "")]] ∅ [])
  = (World [[("kind", VStr "Pod"); ("metadata", VRef 1)];
            [("name", VStr "")]] ∅ [], Ok ()).
Proof.
  refine (save_object_falsy_name_writes_nothing (λ _ _, "")
            (World [[("kind", VStr "Pod"); ("metadata", VRef 1)];
                    [("name", VStr "")]] ∅ [])
            0 1 _ _ (VStr "") (PPath Root ["data"]) "pods" (Some "ns1")
            _ _ _ _ _);
    try reflexivity.
  by left.
Defined.

(** C5.  [ordered], the mapping handed to [yaml.dump], has first the keys
    [apiVersion], [kind], [metadata], [spec], [data], [stringData], [type]
    that the manifest has, in that order, then the other keys of the
    manifest in their own order; and every file that [save_object] writes
    holds [ordered], so its keys are in that order.  An item with the keys
    [status], [spec], [apiVersion], [kind], [metadata] is written with the
    keys [apiVersion], [kind], [metadata], [spec], [status]. *)
Theorem save_object_key_order :
  (∀ d, NoDup (dict_keys d) →
        dict_keys (reorder_keys d) = manifest_key_order (dict_keys d)) ∧
  (∀ format_value w obj d base_dir resource_name namespace p doc,
     w_heap w !! obj = Some d →
     NoDup (dict_keys d) →
     w_fs (save_object format_value (VRef obj) base_dir resource_name
             namespace w).1 !! p = Some (File doc) →
     w_fs w !! p ≠ Some (File doc) →
     dict_keys (doc_top doc) = manifest_key_order (dict_keys d)) ∧
  (∀ v1 v2 v3 v4 v5,
     dict_keys (reorder_keys [("status", v1); ("spec", v2); ("apiVersion", v3);
                              ("kind", v4); ("metadata", v5)])
     = ["apiVersion"; "kind"; "metadata"; "spec"; "status"]).
Proof.
  split_and!.
  - apply reorder_keys_keys.
  - intros fmt w obj d base rn ns p doc Hobj Hnd Hafter Hbefore.
    destruct (save_object_written fmt w obj d base rn ns p doc) as [-> _];
      [done..|].
    by apply reorder_keys_keys.
  - reflexivity.
Qed.

Lemma save_object_key_order_witness :
  let w := World [[("status", VNone); ("spec", VInt 1); ("kind", VStr "Pod");
                   ("metadata", VRef 1)];
                  [("name", VStr "web")]] ∅ [] in
  let p := PPath Root ["data"; "cluster"; "pods"; "web.yaml"] in
  let doc := Document [("kind", VStr "Pod"); ("metadata", VRef 1);
                       ("spec", VInt 1); ("status", VNone)] (w_heap w) in
  dict_keys (doc_top doc)
  = manifest_key_order ["status"; "spec"; "kind"; "metadata"].
Proof.
  cbv zeta.
  refine (proj1 (proj2 save_object_key_order) (λ _ _, "")
            (World [[("status", VNone); ("spec", VInt 1); ("kind", VStr "Pod");
                     ("metadata", VRef 1)];
                    [("name", VStr "web")]] ∅ [])
            0 [("status", VNone); ("spec", VInt 1); ("kind", VStr "Pod");
               ("metadata", VRef 1)]
            (PPath Root ["data"]) "pods" None
            (PPath Root ["data"; "cluster"; "pods"; "web.yaml"])
            (Document [("kind", VStr "Pod"); ("metadata", VRef 1);
                       ("spec", VInt 1); ("status", VNone)]
               [[("status", VNone); ("spec", VInt 1); ("kind", VStr "Pod");
                 ("metadata", VRef 1)];
                [("name", VStr "web")]])
            _ _ _ _).
  - reflexivity.
  - by apply (bool_decide_unpack _).
  - vm_compute. reflexivity.
  - vm_compute. discriminate.
Defined.

(** ** Paths *)

Lemma split_slash_plain s : ∀ acc,
  has_slash s = false → split_slash acc s = [String.rev_app acc s].
Proof.
  induction s as [|c s IH]; intros acc Hs; cbn [split_slash]; [done|].
  cbn [has_slash] in Hs. destruct (decide (c = "/"%char)); [done|].
  by rewrite IH.
Qed.

Lemma leading_slashes_plain s : has_slash s = false → leading_slashes s = 0.
Proof.
  destruct s as [|c s]; [done|]. cbn [has_slash leading_slashes].
  by destruct (decide (c = "/"%char)).
Qed.

Lemma parse_segment_plain s :
  plain_component s → parse_segment s = (Relative, [s]).
Proof.
  intros (Hne & Hdot & _ & Hs). unfold parse_segment.
  rewrite leading_slashes_plain, split_slash_plain by done.
  cbn [String.rev_app]. by rewrite filter_cons_True, filter_nil.
Qed.

Lemma joinpath_plain p s :
  plain_component s → p // s = PPath (p_anchor p) (p_parts p ++ [s]).
Proof. intros Hs. unfold joinpath. by rewrite parse_segment_plain. Qed.

Lemma has_slash_app s1 s2 :
  has_slash (s1 +:+ s2) = has_slash s1 || has_slash s2.
Proof.
  induction s1 as [|c s1 IH]; [done|].
  change (String c s1 +:+ s2) with (String c (s1 +:+ s2)).
  cbn [has_slash]. by destruct (decide (c = "/"%char)).
Qed.

Lemma yaml_file_plain n :
  has_slash n = false → plain_component (n +:+ ".yaml").
Proof.
  intros Hn. split_and!.
  - by destruct n.
  - destruct n as [|c [|c' n]]; discriminate.
  - destruct n as [|c [|c' [|c'' n]]]; discriminate.
  - rewrite has_slash_app, Hn. reflexivity.
Qed.

Lemma object_path_plain base p ns n :
  has_slash n = false →
  plain_component p →
  (∀ s, ns = Some s → plain_component s) →
  object_path base p ns (n +:+ ".yaml") = spec_destination base p ns n.
Proof.
  intros Hn Hp Hns. pose proof (yaml_file_plain n Hn) as Hfile.
  unfold object_path, spec_destination, namespace_given.
  destruct ns as [s|].
  - destruct (Hns s eq_refl) as (Hne & ? & ? & ?).
    rewrite decide_False by done.
    rewrite !joinpath_plain by (done || by split_and!).
    cbn [p_anchor p_parts]. by rewrite <- !app_assoc.
  - rewrite !joinpath_plain by (done || by split_and!).
    cbn [p_anchor p_parts]. by rewrite <- !app_assoc.
Qed.

(** C6, as amended.  When the name, the plural name and the namespace are
    single path components (no slash in them, and the plural name and the
    namespace neither empty nor [.] nor [..]), the destination of the
    manifest is,
    under the root, [namespaces/<ns>/<plural>/<name>.yaml] if a namespace is
    given and [cluster/<plural>/<name>.yaml] if none is, and that is where
    [save_object], when it returns, has written the manifest.  So
    [foo] in [ns1] of [pods] goes to [namespaces/ns1/pods/foo.yaml], and
    [bar] of [nodes] to [cluster/nodes/bar.yaml]. *)
Theorem object_path_destination :
  (∀ base_dir plural namespace n,
     has_slash n = false →
     plain_component plural →
     (∀ ns, namespace = Some ns → plain_component ns) →
     object_path base_dir plural namespace (n +:+ ".yaml")
     = spec_destination base_dir plural namespace n) ∧
  (∀ format_value w w' obj d m md n base_dir plural namespace,
     w_heap w !! obj = Some d →
     dict_get "metadata" d = Some (VRef m) →
     w_heap w !! m = Some md →
     dict_get "name" md = Some (VStr n) →
     n ≠ "" →
     has_slash n = false →
     plain_component plural →
     (∀ ns, namespace = Some ns → plain_component ns) →
     save_object format_value (VRef obj) base_dir plural namespace w
     = (w', Ok ()) →
     w_fs w' !! spec_destination base_dir plural namespace n
     = Some (File (Document (reorder_keys d) (w_heap w)))) ∧
  (∀ root,
     object_path root "pods" (Some "ns1") ("foo" +:+ ".yaml")
     = PPath (p_anchor root)
             (p_parts root ++ ["namespaces"; "ns1"; "pods"; "foo.yaml"]) ∧
     object_path root "nodes" None ("bar" +:+ ".yaml")
     = PPath (p_anchor root) (p_parts root ++ ["cluster"; "nodes"; "bar.yaml"])).
Proof.
  split_and!.
  - apply object_path_plain.
  - intros fmt w w' obj d m md n base p ns Hobj Hmeta Hm Hname Hne Hn Hp Hns Hrun.
    rewrite <- object_path_plain by done.
    apply (save_object_ok_written fmt w w' obj d m md (VStr n)); try done.
    cbn [truthy]. by rewrite bool_decide_false.
  - intros root. split.
    + apply (object_path_plain root "pods" (Some "ns1") "foo"); [done| |].
      * by split_and!.
      * intros s [= <-]. by split_and!.
    + apply (object_path_plain root "nodes" None "bar"); [done| |done].
      by split_and!.
Qed.

Lemma object_path_destination_witness :
  w_fs (save_object (λ _ _, "") (VRef 0) (PPath Root ["data"]) "pods"
          (Some "ns1")
          (World [[("kind", VStr "Pod"); ("metadata", VRef 1)];
                  [("name", VStr "foo")]] ∅ [])).1
  !! spec_destination (PPath Root ["data"]) "pods" (Some "ns1") "foo"
  = Some (File (Document
                  (reorder_keys [("kind", VStr "Pod"); ("metadata", VRef 1)])
                  [[("kind", VStr "Pod"); ("metadata", VRef 1)];
                   [("name", VStr "foo")]])).
Proof.
  refine (proj1 (proj2 object_path_destination) (λ _ _, "")
            (World [[("kind", VStr "Pod"); ("metadata", VRef 1)];
                    [("name", VStr "foo")]] ∅ [])
            _ 0 _ 1 _ "foo" (PPath Root ["data"]) "pods" (Some "ns1")
            _ _ _ _ _ _ _ _ _);
    try reflexivity; try discriminate.
  - split_and!; [discriminate.. | reflexivity].
  - intros ns [= <-]. split_and!; [discriminate.. | reflexivity].
Defined.

(** C6 as stated fails: a name that starts with a slash takes the manifest
    out of the root.  With the root [/data], the plural name [nodes] and the
    name [/x], the one thing in the file system after the call is the file
    [/x.yaml]. *)
Lemma save_object_leaves_the_root :
  let w := World [[("metadata", VRef 1)]; [("name", VStr "/x")]] ∅ [] in
  let r := save_object (λ _ _, "") (VRef 0) (PPath Root ["data"]) "nodes" None w
  in
  r.2 = Ok () ∧
  map_to_list (w_fs r.1)
  = [(PPath Root ["x.yaml"], File (Document [("metadata", VRef 1)] (w_heap w)))] ∧
  object_path (PPath Root ["data"]) "nodes" None ("/x" +:+ ".yaml")
  ≠ spec_destination (PPath Root ["data"]) "nodes" None "/x".
Proof. split_and!; [reflexivity | reflexivity | discriminate]. Qed.

(** ** The dump loops *)

Lemma returns_log lv msg : returns (log lv msg).
Proof. intros w. by eexists. Qed.

Lemma returns_pass : returns pass.
Proof. intros w. by eexists. Qed.

Lemma returns_try_except (m : M unit) (handler : exn → M unit) :
  (∀ e, returns (handler e)) → returns (try_except m handler).
Proof.
  intros Hh w. unfold try_except. destruct (m w) as [w1 [[]|e]].
  - by eexists.
  - apply Hh.
Qed.

Lemma returns_bind (m : M unit) (f : unit → M unit) :
  returns m → (∀ a, returns (f a)) → returns (m ≫= f).
Proof.
  intros Hm Hf w. rewrite bind_run. destruct (Hm w) as [w1 ->]. apply Hf.
Qed.

Lemma returns_for_each {A} (xs : list A) (body : A → M unit) :
  (∀ x, returns (body x)) → returns (for_each xs body).
Proof.
  intros Hbody. induction xs as [|x xs IH]; cbn [for_each].
  - apply returns_pass.
  - apply returns_bind; [apply Hbody | intros _; apply IH].
Qed.

Section Dump.
Variable format_value : heap → pyval → string.
Variable call_k8s_api : string → heap → heap * result pyval.
Variable str_exn : exn → string.

Lemma dump_namespaced_unit_returns ns r detailed dest :
  returns (dump_namespaced_unit format_value call_k8s_api str_exn
             ns r detailed dest).
Proof.
  apply returns_try_except. intros [status| | | |];
    try apply returns_log.
  destruct (decide (status = 403%Z)); [apply returns_log|].
  destruct (decide (status = 404%Z));
    [apply returns_pass | apply returns_log].
Qed.

Lemma dump_cluster_unit_returns r detailed dest :
  returns (dump_cluster_unit format_value call_k8s_api str_exn
             r detailed dest).
Proof.
  apply returns_try_except. intros [status| | | |];
    try apply returns_log.
  destruct (decide (status = 403%Z)); [apply returns_log|].
  destruct (decide (status = 404%Z));
    [apply returns_pass | apply returns_log].
Qed.

Lemma dump_resources_returns m ns_list ns_resources cls_resources
    detailed dest :
  returns (dump_resources format_value call_k8s_api str_exn m ns_list
             ns_resources cls_resources detailed dest).
Proof.
  assert (returns
            (for_each ns_list (λ ns,
               for_each ns_resources (λ r,
                 dump_namespaced_unit format_value call_k8s_api str_exn
                   ns r detailed dest)))) as Hns.
  { apply returns_for_each. intros ns. apply returns_for_each.
    intros r. apply dump_namespaced_unit_returns. }
  assert (returns
            (for_each cls_resources (λ r,
               dump_cluster_unit format_value call_k8s_api str_exn
                 r detailed dest))) as Hcls.
  { apply returns_for_each. intros r. apply dump_cluster_unit_returns. }
  unfold dump_resources. apply returns_bind.
  - destruct m; try apply returns_pass;
      (apply returns_bind; [apply returns_log | intros _; exact Hns]).
  - intros _. destruct m; try apply returns_pass;
      (apply returns_bind; [apply returns_log | intros _; exact Hcls]).
Qed.

Lemma api_call_raise path w h e :
  call_k8s_api path (w_heap w) = (h, Raise e) →
  api_call call_k8s_api path w = (World h (w_fs w) (w_log w), Raise e).
Proof. intros H. unfold api_call. by rewrite H. Qed.

Lemma dump_namespaced_unit_failed ns r detailed dest w h e :
  call_k8s_api (namespaced_list_path ns r) (w_heap w) = (h, Raise e) →
  ∃ new,
    dump_namespaced_unit format_value call_k8s_api str_exn ns r detailed
      dest w
    = (World h (w_fs w) (w_log w ++ new), Ok ()) ∧
    failure_logged e
      ("Access denied to " +:+ res_name r +:+ " in namespace=" +:+ ns) new.
Proof.
  intros Hcall. unfold dump_namespaced_unit, try_except.
  rewrite bind_run, (api_call_raise _ w h e) by done. cbv beta iota.
  unfold failure_logged.
  destruct e as [status| | | |];
    try (eexists; split; [reflexivity | by eexists]).
  destruct (decide (status = 403%Z)); [by eexists|].
  destruct (decide (status = 404%Z)).
  - exists []. split; [|done]. unfold pass, mret, M_ret.
    by rewrite app_nil_r.
  - eexists; split; [reflexivity | by eexists].
Qed.

Lemma dump_cluster_unit_failed r detailed dest w h e :
  call_k8s_api (cluster_list_path r) (w_heap w) = (h, Raise e) →
  ∃ new,
    dump_cluster_unit format_value call_k8s_api str_exn r detailed dest w
    = (World h (w_fs w) (w_log w ++ new), Ok ()) ∧
    failure_logged e ("Access denied to " +:+ res_name r) new.
Proof.
  intros Hcall. unfold dump_cluster_unit, try_except.
  rewrite bind_run, (api_call_raise _ w h e) by done. cbv beta iota.
  unfold failure_logged.
  destruct e as [status| | | |];
    try (eexists; split; [reflexivity | by eexists]).
  destruct (decide (status = 403%Z)); [by eexists|].
  destruct (decide (status = 404%Z)).
  - exists []. split; [|done]. unfold pass, mret, M_ret.
    by rewrite app_nil_r.
  - eexists; split; [reflexivity | by eexists].
Qed.
Lemma for_each_steps {A} (xs : list A) (body : A → M unit)
    (step : A → run_step) detailed dest :
  (∀ x, body x
        = run_step_in format_value call_k8s_api str_exn detailed dest (step x)) →
  (∀ x, returns (body x)) →
  ∀ w, for_each xs body w
       = (after_steps format_value call_k8s_api str_exn detailed dest
            (step <$> xs) w, Ok ()).
Proof.
  intros Hstep Hret. induction xs as [|x xs IH]; intros w; [done|].
  cbn [for_each]. rewrite bind_run. destruct (Hret x w) as [w1 Hrun].
  rewrite Hrun. cbv beta iota. rewrite IH. unfold after_steps.
  cbn [fmap list_fmap foldl]. by rewrite <- Hstep, Hrun.
Qed.

Lemma after_steps_app detailed dest steps1 steps2 w :
  after_steps format_value call_k8s_api str_exn detailed dest
    (steps1 ++ steps2) w
  = after_steps format_value call_k8s_api str_exn detailed dest steps2
      (after_steps format_value call_k8s_api str_exn detailed dest steps1 w).
Proof. apply foldl_app. Qed.

Lemma namespaced_pass_steps ns_list ns_resources detailed dest : ∀ w,
  for_each ns_list (λ ns,
    for_each ns_resources (λ r,
      dump_namespaced_unit format_value call_k8s_api str_exn ns r detailed
        dest)) w
  = (after_steps format_value call_k8s_api str_exn detailed dest
       (Unit <$> namespaced_units ns_list ns_resources) w, Ok ()).
Proof.
  induction ns_list as [|ns rest IH]; intros w; [done|].
  cbn [for_each namespaced_units]. rewrite bind_run.
  rewrite (for_each_steps ns_resources _ (λ r, Unit (NamespacedUnit ns r))
             detailed dest); [|done|].
  2: { intros r. apply dump_namespaced_unit_returns. }
  cbv beta iota. rewrite IH, fmap_app, after_steps_app.
  by rewrite <- list_fmap_compose.
Qed.

Lemma dump_resources_steps m ns_list ns_resources cls_resources detailed
    dest w :
  dump_resources format_value call_k8s_api str_exn m ns_list ns_resources
    cls_resources detailed dest w
  = (after_steps format_value call_k8s_api str_exn detailed dest
       (steps_of m ns_list ns_resources cls_resources) w, Ok ()).
Proof.
  unfold dump_resources, steps_of. rewrite bind_run, after_steps_app.
  assert (∀ w0,
    (log INFO "Dumping cluster-wide resources";;
     for_each cls_resources (λ r,
       dump_cluster_unit format_value call_k8s_api str_exn r detailed dest))
      w0
    = (after_steps format_value call_k8s_api str_exn detailed dest
         (Banner "Dumping cluster-wide resources"
          :: ((λ r, Unit (ClusterUnit r)) <$> cls_resources)) w0, Ok ()))
    as Hcls.
  { intros w0. rewrite bind_run. cbn [log]. cbv beta iota.
    rewrite (for_each_steps cls_resources _ (λ r, Unit (ClusterUnit r))
               detailed dest); [done..|].
    intros r. apply dump_cluster_unit_returns. }
  assert (∀ w0,
    (log INFO "Dumping namespaced resources";;
     for_each ns_list (λ ns,
       for_each ns_resources (λ r,
         dump_namespaced_unit format_value call_k8s_api str_exn ns r
           detailed dest))) w0
    = (after_steps format_value call_k8s_api str_exn detailed dest
         (Banner "Dumping namespaced resources"
          :: (Unit <$> namespaced_units ns_list ns_resources)) w0, Ok ()))
    as Hns.
  { intros w0. rewrite bind_run. cbn [log]. cbv beta iota.
    by rewrite namespaced_pass_steps. }
  destruct m.
  - rewrite Hns. cbv beta iota. by rewrite Hcls.
  - rewrite Hns. reflexivity.
  - cbn [pass mret M_ret]. cbv beta iota. by rewrite Hcls.
Qed.

Lemma run_step_failed detailed dest u w h e :
  call_k8s_api (unit_list_path u) (w_heap w) = (h, Raise e) →
  ∃ new,
    run_step_in format_value call_k8s_api str_exn detailed dest (Unit u) w
    = (World h (w_fs w) (w_log w ++ new), Ok ()) ∧
    failure_logged e (unit_denied u) new.
Proof.
  destruct u as [ns r|r]; cbn [unit_list_path unit_denied run_step_in].
  - apply dump_namespaced_unit_failed.
  - apply dump_cluster_unit_failed.
Qed.
End Dump.

(** C3.  A dump unit whose list call fails leaves the file system as it
    was and returns: for status 403 one warning of denied access is logged,
    for status 404 nothing, for any other error, an [ApiException] or not,
    one debug entry.  The loop then goes on with the next unit, and the two
    passes together return whatever the calls and the writes do: no error
    of a unit leaves them.  The run takes its steps, the opening line of
    each pass and every unit of the mode, one after the other, each in the
    world that the step before it left; so when the list call of a unit
    fails, the run goes on through all the units after it, from the files
    as they were and the log with the entry of the failure. *)
Theorem dump_failure_isolation
    (format_value : heap → pyval → string)
    (call_k8s_api : string → heap → heap * result pyval)
    (str_exn : exn → string) :
  (∀ ns r detailed dest w h e,
     call_k8s_api (namespaced_list_path ns r) (w_heap w) = (h, Raise e) →
     ∃ w' new,
       dump_namespaced_unit format_value call_k8s_api str_exn ns r detailed
         dest w = (w', Ok ()) ∧
       w_fs w' = w_fs w ∧ w_log w' = w_log w ++ new ∧
       failure_logged e
         ("Access denied to " +:+ res_name r +:+ " in namespace=" +:+ ns)
         new) ∧
  (∀ r detailed dest w h e,
     call_k8s_api (cluster_list_path r) (w_heap w) = (h, Raise e) →
     ∃ w' new,
       dump_cluster_unit format_value call_k8s_api str_exn r detailed dest w
       = (w', Ok ()) ∧
       w_fs w' = w_fs w ∧ w_log w' = w_log w ++ new ∧
       failure_logged e ("Access denied to " +:+ res_name r) new) ∧
  (∀ ns r rs detailed dest w,
     for_each (r :: rs)
       (λ r, dump_namespaced_unit format_value call_k8s_api str_exn ns r
               detailed dest) w
     = for_each rs
         (λ r, dump_namespaced_unit format_value call_k8s_api str_exn ns r
                 detailed dest)
         (dump_namespaced_unit format_value call_k8s_api str_exn ns r
            detailed dest w).1) ∧
  (∀ r rs detailed dest w,
     for_each (r :: rs)
       (λ r, dump_cluster_unit format_value call_k8s_api str_exn r detailed
               dest) w
     = for_each rs
         (λ r, dump_cluster_unit format_value call_k8s_api str_exn r detailed
                 dest)
         (dump_cluster_unit format_value call_k8s_api str_exn r detailed
            dest w).1) ∧
  (∀ m ns_list ns_resources cls_resources detailed dest,
     returns (dump_resources format_value call_k8s_api str_exn m ns_list
                ns_resources cls_resources detailed dest)) ∧
  (∀ m ns_list ns_resources cls_resources detailed dest w,
     dump_resources format_value call_k8s_api str_exn m ns_list ns_resources
       cls_resources detailed dest w
     = (after_steps format_value call_k8s_api str_exn detailed dest
          (steps_of m ns_list ns_resources cls_resources) w, Ok ())) ∧
  (∀ m ns_list ns_resources cls_resources detailed dest w before u after h e,
     steps_of m ns_list ns_resources cls_resources
     = before ++ Unit u :: after →
     let w0 :=
       after_steps format_value call_k8s_api str_exn detailed dest before w
     in
     call_k8s_api (unit_list_path u) (w_heap w0) = (h, Raise e) →
     ∃ new,
       failure_logged e (unit_denied u) new ∧
       dump_resources format_value call_k8s_api str_exn m ns_list ns_resources
         cls_resources detailed dest w
       = (after_steps format_value call_k8s_api str_exn detailed dest after
            (World h (w_fs w0) (w_log w0 ++ new)), Ok ())).
Proof.
  split_and!.
  - intros ns r detailed dest w h e Hcall.
    destruct (dump_namespaced_unit_failed format_value call_k8s_api str_exn
                ns r detailed dest w h e Hcall) as (new & -> & Hlog).
    by eexists _, new.
  - intros r detailed dest w h e Hcall.
    destruct (dump_cluster_unit_failed format_value call_k8s_api str_exn
                r detailed dest w h e Hcall) as (new & -> & Hlog).
    by eexists _, new.
  - intros ns r rs detailed dest w. cbn [for_each]. rewrite bind_run.
    by destruct (dump_namespaced_unit_returns format_value call_k8s_api
                   str_exn ns r detailed dest w) as [w1 ->].
  - intros r rs detailed dest w. cbn [for_each]. rewrite bind_run.
    by destruct (dump_cluster_unit_returns format_value call_k8s_api
                   str_exn r detailed dest w) as [w1 ->].
  - apply dump_resources_returns.
  - apply dump_resources_steps.
  - intros m ns_list ns_resources cls_resources detailed dest w before u
           after h e Hsteps w0 Hcall.
    destruct (run_step_failed format_value call_k8s_api str_exn detailed dest
                u w0 h e Hcall) as (new & Hrun & Hlog).
    exists new. split; [done|].
    rewrite dump_resources_steps, Hsteps, after_steps_app. fold w0.
    unfold after_steps at 1. cbn [foldl]. by rewrite Hrun.
Qed.

Lemma dump_failure_isolation_witness :
  let dest := PPath Root ["data"] in
  let w := World [] {[ dest := Dir ]} [] in
  ∃ new,
    failure_logged (ApiException 404) (unit_denied (ClusterUnit sample_crds))
      new ∧
    dump_resources (λ _ _, "") sample_api (λ _, "") ModeCls [] []
      [sample_crds; sample_nodes] false dest w
    = (after_steps (λ _ _, "") sample_api (λ _, "") false dest
         [Unit (ClusterUnit sample_nodes)]
         (World [] {[ dest := Dir ]}
            ([(INFO, "Dumping cluster-wide resources")] ++ new)),
       Ok ()).
Proof.
  cbv zeta.
  exact (proj2 (proj2 (proj2 (proj2 (proj2 (proj2
           (dump_failure_isolation (λ _ _, "") sample_api (λ _, "")))))))
           ModeCls [] [] [sample_crds; sample_nodes] false
           (PPath Root ["data"]) (World [] {[ PPath Root ["data"] := Dir ]} [])
           [Banner "Dumping cluster-wide resources"]
           (ClusterUnit sample_crds) [Unit (ClusterUnit sample_nodes)]
           [] (ApiException 404) eq_refl eq_refl).
Defined.

(** The cluster pass against the sample server: the type that answers 404
    is passed over without a trace, the node is cleaned and written. *)
Example dump_resources_sample :
  let r := dump_resources (λ _ _, "") sample_api (λ _, "") ModeCls ["default"]
             [] [sample_crds; sample_nodes] false (PPath Root ["data"])
             (World [] ∅ []) in
  r.2 = Ok () ∧
  w_log r.1 = [(INFO, "Dumping cluster-wide resources");
               (INFO, "Dumping cluster-wide resource: nodes")] ∧
  w_heap r.1 !! 1 = Some [("metadata", VRef 2); ("apiVersion", VStr "v1");
                          ("kind", VStr "Node")] ∧
  w_heap r.1 !! 2 = Some [("name", VStr "n1")] ∧
  doc_top <$> (match w_fs r.1 !! PPath Root ["data"; "cluster"; "nodes"; "n1.yaml"]
               with Some (File doc) => Some doc | _ => None end)
  = Some [("apiVersion", VStr "v1"); ("kind", VStr "Node");
          ("metadata", VRef 2)].
Proof. by vm_compute. Qed.

(** ** Archive rotation *)

Global Instance only_deleted_refl P : Reflexive (only_deleted P).
Proof. intros w p. by left. Qed.

Global Instance only_deleted_trans P : Transitive (only_deleted P).
Proof.
  intros w1 w2 w3 H1 H2 p.
  destruct (H1 p) as [E1|[? N1]], (H2 p) as [E2|[? N2]].
  - left. congruence.
  - by right.
  - right. split; [done|congruence].
  - by right.
Qed.

Lemma unlink_only_deleted (P : ppath → Prop) p :
  P p → preserves (only_deleted P) (unlink p).
Proof.
  intros HP w. unfold unlink. rewrite bind_run. unfold get_fs.
  cbv beta iota.
  destruct (node_at (w_fs w) p) as [[]|]; try (simpl; reflexivity).
  unfold put_fs. cbn [fst]. intros q. cbn [w_fs].
  destruct (decide (q = p)) as [->|Hne].
  - right. by rewrite lookup_delete_eq.
  - left. by rewrite lookup_delete_ne.
Qed.

Lemma log_only_deleted (P : ppath → Prop) lv msg :
  preserves (only_deleted P) (log lv msg).
Proof. intros w p. by left. Qed.

Lemma elem_of_glob_backups fs dest ext p :
  p ∈ glob_backups fs dest ext →
  is_child_of dest p ∧ matches_backup ext (path_name p) = true.
Proof.
  unfold glob_backups. destruct (node_at fs dest) as [[]|];
    try (intros H; by apply elem_of_nil in H).
  intros H. by apply list_elem_of_filter in H as [? _].
Qed.

Section Rotation.
Variable st_mtime : ppath → Z.
Variable localtime : Z → result Z.

Lemma lift_result_run {A} (r : result A) w : lift_result r w = (w, r).
Proof. reflexivity. Qed.

Lemma rotate_archives_only_deleted dest k archive_path now days :
  preserves
    (only_deleted (λ p,
       (is_child_of dest p ∧
        matches_backup (archive_ext k) (path_name p) = true) ∧
       p ≠ archive_path ∧
       ∃ cutoff, rotation_cutoff localtime now days = Ok cutoff ∧
                 (st_mtime p < cutoff)%Z))
    (rotate_archives st_mtime localtime dest k archive_path now days).
Proof.
  intros w. unfold rotate_archives. rewrite bind_run, lift_result_run.
  unfold rotation_cutoff.
  destruct (naive_cutoff localtime now days) as [t|e]; [|reflexivity].
  cbv beta iota. cbn [mbind result_bind].
  revert w. apply preserves_bind; try apply _.
  { apply preserves_get_fs; apply _. }
  intros fs. apply preserves_for_each; try apply _.
  intros arch Harch. apply elem_of_glob_backups in Harch. unfold rotate_one.
  destruct (bool_decide (arch ≠ archive_path)) eqn:Hne.
  - apply bool_decide_eq_true in Hne. intros w. rewrite !bind_run.
    rewrite lift_result_run.
    destruct (naive_timestamp localtime t) as [stamp|e] eqn:Hstamp;
      [|reflexivity].
    cbv beta iota. cbn [mret M_ret]. cbv beta iota.
    destruct (st_mtime arch <? stamp)%Z eqn:Hold; [|reflexivity].
    apply Z.ltb_lt in Hold. revert w.
    apply preserves_bind; try apply _.
    + apply unlink_only_deleted. split; [done|]. split; [done|].
      by exists stamp.
    + intros _. apply log_only_deleted.
  - intros w. rewrite bind_run. cbn [mret M_ret]. cbv beta iota. reflexivity.
Qed.

Lemma datetime_now_steady offset now :
  (∀ u, localtime u = Ok (u + offset)%Z) →
  datetime_now localtime now = Ok (now + offset)%Z.
Proof.
  intros Hclock. unfold datetime_now. rewrite !Hclock. cbn [mbind result_bind].
  replace (now + offset - (now - max_fold_seconds + offset) - max_fold_seconds)%Z
    with 0%Z by lia.
  reflexivity.
Qed.

Lemma naive_timestamp_steady offset t :
  (∀ u, localtime u = Ok (u + offset)%Z) →
  naive_timestamp localtime t = Ok (t - offset)%Z.
Proof.
  intros Hclock. unfold naive_timestamp. rewrite (Hclock t).
  cbn [mbind result_bind].
  replace (t + offset - t)%Z with offset by lia.
  rewrite (Hclock (t - offset)%Z). cbn [mbind result_bind].
  replace (t - offset + offset)%Z with t by lia. rewrite Z.eqb_refl.
  rewrite (Hclock (t - offset - max_fold_seconds)%Z).
  cbn [mbind result_bind mret result_ret].
  replace (t - offset - max_fold_seconds + offset
           - (t - offset - max_fold_seconds))%Z with offset by lia.
  by rewrite Z.eqb_refl.
Qed.

Lemma rotation_cutoff_steady offset now days cutoff :
  (∀ u, localtime u = Ok (u + offset)%Z) →
  rotation_cutoff localtime now days = Ok cutoff →
  cutoff = (now - days * seconds_per_day)%Z.
Proof.
  intros Hclock. unfold rotation_cutoff, naive_cutoff.
  rewrite (datetime_now_steady offset now Hclock). cbn [mbind result_bind].
  destruct (999999999 <? Z.abs days)%Z; [done|].
  destruct ((now + offset - days * seconds_per_day <? min_naive)%Z
            || (max_naive <? now + offset - days * seconds_per_day)%Z); [done|].
  cbn [mret result_ret mbind result_bind].
  rewrite (naive_timestamp_steady offset _ Hclock).
  intros [= <-]. lia.
Qed.
End Rotation.





(** * Further properties *)

(** ** Cleaning twice *)

Lemma strip_filter ks : ∀ d, strip ks d = filter (λ kv, kv.1 ∉ ks) d.
Proof.
  unfold strip. induction ks as [|k ks IH]; intros d; cbn [foldl].
  - symmetry. apply filter_id. intros ? _. apply not_elem_of_nil.
  - rewrite IH. unfold dict_pop. rewrite list_filter_filter.
    apply list_filter_iff. intros [k' v]. cbn [fst].
    rewrite not_elem_of_cons. tauto.
Qed.

Lemma strip_strip ks d : strip ks (strip ks d) = strip ks d.
Proof.
  rewrite !strip_filter, list_filter_filter. apply list_filter_iff.
  intros kv. tauto.
Qed.

Lemma dict_pop_pop k d : dict_pop k (dict_pop k d) = dict_pop k d.
Proof. exact (strip_strip [k] d). Qed.

(** A second [clean_resource] on the object the first one returned finds
    nothing left to remove: it returns the object and leaves the world as
    the first call left it. *)
Theorem clean_resource_idempotent (w : world) (obj : loc) (d : dict) :
  w_heap w !! obj = Some d →
  (dict_get "metadata" d = None ∨
   ∃ m md, dict_get "metadata" d = Some (VRef m) ∧ m ≠ obj ∧
           w_heap w !! m = Some md) →
  let w1 := (clean_resource (VRef obj) false w).1 in
  clean_resource (VRef obj) false w1 = (w1, Ok (VRef obj)).
Proof.
  intros Hobj Hmeta.
  assert (obj < length (w_heap w)) as Hlt by by eapply lookup_lt_Some.
  destruct Hmeta as [Hnone|(m & md & Hm & Hne & Hmd)].
  - rewrite (clean_resource_run_absent w obj d) by done. cbn [fst].
    set (n := length (w_heap w)).
    set (d1 := dict_pop "status" d ++ [("metadata", VRef n)]).
    assert (dict_get "metadata" d1 = Some (VRef n)) as Hm1.
    { unfold d1. rewrite dict_get_app, dict_get_pop, decide_False by done.
      by rewrite Hnone. }
    assert (dict_pop "status" d1 = d1) as Hpop.
    { unfold d1, dict_pop. rewrite filter_app. fold (dict_pop "status" d).
      fold (dict_pop "status" (dict_pop "status" d)).
      by rewrite dict_pop_pop. }
    erewrite (clean_resource_run_ref _ obj d1 n []); cbn [w_heap w_fs w_log].
    + rewrite strip_nil, Hpop. f_equal. f_equal.
      rewrite (list_insert_id _ obj).
      * apply list_insert_id. rewrite lookup_app_r; rewrite length_insert;
          [|done]. by rewrite Nat.sub_diag.
      * rewrite lookup_app_l by (by rewrite length_insert).
        by apply list_lookup_insert_eq.
    + rewrite lookup_app_l by (by rewrite length_insert).
      by apply list_lookup_insert_eq.
    + done.
    + unfold n. lia.
    + rewrite lookup_app_r; rewrite length_insert; [|done].
      by rewrite Nat.sub_diag.
  - rewrite (clean_resource_run_ref w obj d m md) by done. cbn [fst].
    assert (m < length (w_heap w)) by by eapply lookup_lt_Some.
    erewrite (clean_resource_run_ref _ obj (dict_pop "status" d) m
                (strip stripped_metadata_keys md)); cbn [w_heap w_fs w_log].
    + rewrite strip_strip, dict_pop_pop. f_equal. f_equal.
      rewrite (list_insert_id _ obj).
      * apply list_insert_id. apply list_lookup_insert_eq.
        by rewrite length_insert.
      * rewrite list_lookup_insert_ne by done.
        by apply list_lookup_insert_eq.
    + rewrite list_lookup_insert_ne by done. by apply list_lookup_insert_eq.
    + rewrite dict_get_pop. by rewrite decide_False.
    + done.
    + apply list_lookup_insert_eq. by rewrite length_insert.
Qed.

Lemma clean_resource_idempotent_witness :
  let w := World [[("status", VStr "Running"); ("metadata", VRef 1)];
                  [("name", VStr "web"); ("uid", VStr "1f")]] ∅ [] in
  let w1 := (clean_resource (VRef 0) false w).1 in
  clean_resource (VRef 0) false w1 = (w1, Ok (VRef 0)).
Proof.
  refine (clean_resource_idempotent
            (World [[("status", VStr "Running"); ("metadata", VRef 1)];
                    [("name", VStr "web"); ("uid", VStr "1f")]] ∅ [])
            0 _ _ _); [reflexivity|].
  right. exists 1, [("name", VStr "web"); ("uid", VStr "1f")].
  split_and!; [reflexivity | lia | reflexivity].
Defined.

(** ** Reordering twice *)

Lemma picked_ext ks (d1 d2 : dict) :
  (∀ k, dict_get k d1 = dict_get k d2) → picked ks d1 = picked ks d2.
Proof.
  intros Hget. unfold picked. induction ks as [|k ks IH]; [done|].
  cbn [omap list_omap]. by rewrite Hget, IH.
Qed.

Lemma filter_picked_rest ks (d : dict) :
  filter (λ kv, kv.1 ∉ ks) (picked ks d) = [].
Proof.
  assert (∀ kv, kv ∈ picked ks d → kv.1 ∈ ks) as Hin.
  { intros [k v]. unfold picked. rewrite list_elem_of_omap.
    intros (k' & Hk' & Hsome).
    destruct (dict_get k' d); [|done]. by injection Hsome as <- <-. }
  induction (picked ks d) as [|kv l IH]; [done|].
  rewrite filter_cons_False.
  - apply IH. intros kv' Hkv'. apply Hin. by right.
  - intros Hn. apply Hn, Hin. left.
Qed.

Lemma reorder_keys_lookup (d : dict) :
  NoDup (dict_keys d) →
  NoDup (dict_keys (reorder_keys d)) ∧
  ∀ k, dict_get k (reorder_keys d) = dict_get k d.
Proof.
  intros Hnd.
  assert (NoDup (dict_keys (reorder_keys d))) as Hnd'.
  { rewrite reorder_keys_keys by done. by apply manifest_key_order_NoDup. }
  split; [done|]. intros k.
  assert (∀ v, dict_get k (reorder_keys d) = Some v ↔ dict_get k d = Some v)
    as Hiff.
  { intros v. rewrite !dict_get_elem_of by done.
    rewrite reorder_keys_eq by done.
    rewrite elem_of_app, list_elem_of_filter. unfold picked.
    rewrite list_elem_of_omap. cbn [fst]. split.
    - intros [(k' & Hk' & Hsome)|[_ ?]]; [|done].
      destruct (dict_get k' d) as [v'|] eqn:Hg; [|done].
      injection Hsome as <- <-. by apply dict_get_elem_of.
    - intros Hd. destruct (decide (k ∈ priority_keys)) as [Hp|Hp].
      + left. exists k. split; [done|].
        apply dict_get_elem_of in Hd; [|done]. by rewrite Hd.
      + by right. }
  destruct (dict_get k (reorder_keys d)) as [v|].
  - symmetry. by apply Hiff.
  - destruct (dict_get k d) as [v|]; [|done].
    by destruct (proj2 (Hiff v) eq_refl).
Qed.

(** The order [save_object] gives the keys is a fixed point: reordering a
    mapping that is already in manifest order changes nothing. *)
Theorem reorder_keys_idempotent (d : dict) :
  NoDup (dict_keys d) → reorder_keys (reorder_keys d) = reorder_keys d.
Proof.
  intros Hnd.
  destruct (reorder_keys_lookup d Hnd) as (Hnd' & Hget).
  rewrite (reorder_keys_eq (reorder_keys d)) by done.
  rewrite (picked_ext _ _ d) by done.
  rewrite (reorder_keys_eq d) at 1 by done.
  rewrite filter_app, filter_picked_rest. cbn [app].
  rewrite list_filter_filter.
  rewrite (reorder_keys_eq d) by done. f_equal.
  apply list_filter_iff. intros kv. tauto.
Qed.

Lemma reorder_keys_idempotent_witness :
  reorder_keys (reorder_keys [("status", VNone); ("kind", VStr "Pod")])
  = reorder_keys [("status", VNone); ("kind", VStr "Pod")].
Proof.
  apply (reorder_keys_idempotent [("status", VNone); ("kind", VStr "Pod")]).
  by apply (bool_decide_unpack _).
Defined.

(** ** What a dump leaves in place *)

Global Instance files_same_refl : Reflexive files_same.
Proof. by intros w. Qed.

Global Instance files_same_trans : Transitive files_same.
Proof. intros w1 w2 w3 [? ?] [? ?]. split; congruence. Qed.

Global Instance keeps_entries_refl : Reflexive keeps_entries.
Proof. intros w. split_and!; [done| |done]. intros p doc ?. by exists doc. Qed.

Global Instance keeps_entries_trans : Transitive keeps_entries.
Proof.
  intros w1 w2 w3 (Hd1 & Hf1 & Hl1) (Hd2 & Hf2 & Hl2). split_and!.
  - intros p Hp. by apply Hd2, Hd1.
  - intros p doc Hp. destruct (Hf1 p doc Hp) as [doc' Hp']. by eapply Hf2.
  - by etrans.
Qed.

Lemma preserves_weaken {A} (R1 R2 : world → world → Prop) (m : M A) :
  (∀ w w', R1 w w' → R2 w w') → preserves R1 m → preserves R2 m.
Proof. intros Hsub Hm w. apply Hsub, Hm. Qed.

Lemma files_same_keeps w w' : files_same w w' → keeps_entries w w'.
Proof.
  intros [Hfs Hlog]. unfold keeps_entries. rewrite Hfs, Hlog.
  split_and!; [done| |done]. intros p doc ?. by exists doc.
Qed.

Lemma dirs_added_keeps w w' : dirs_added w w' → keeps_entries w w'.
Proof.
  intros (_ & Hlog & Hfs). unfold keeps_entries. rewrite Hlog.
  split_and!; [| |done].
  - intros p Hp. destruct (Hfs p) as [E|[E _]]; congruence.
  - intros p doc Hp. exists doc. destruct (Hfs p) as [E|[E _]]; congruence.
Qed.

Ltac heap_only :=
  intros [h fs lg];
  repeat (unfold mbind, M_bind, mret, M_ret, get_heap, put_heap, new_dict,
          raise, pass; cbn [w_heap w_fs w_log fst]);
  repeat case_match; done.

Lemma py_pop_files_same v k : preserves files_same (py_pop v k).
Proof. unfold py_pop, preserves, files_same. heap_only. Qed.

Lemma py_setitem_files_same v k x : preserves files_same (py_setitem v k x).
Proof. unfold py_setitem, preserves, files_same. heap_only. Qed.

Lemma py_get_files_same v k : preserves files_same (py_get v k).
Proof. unfold py_get, preserves, files_same. heap_only. Qed.

Lemma py_get_or_new_files_same v k : preserves files_same (py_get_or_new v k).
Proof. unfold py_get_or_new, preserves, files_same. heap_only. Qed.

Lemma py_get_or_empty_list_files_same v k :
  preserves files_same (py_get_or_empty_list v k).
Proof. unfold py_get_or_empty_list, preserves, files_same. heap_only. Qed.

Lemma py_items_files_same v : preserves files_same (py_items v).
Proof. unfold py_items, preserves, files_same. heap_only. Qed.

Lemma py_iter_files_same v : preserves files_same (py_iter v).
Proof. unfold py_iter, preserves, files_same. heap_only. Qed.

Lemma py_truthy_files_same v : preserves files_same (py_truthy v).
Proof. by intros w. Qed.

Lemma clean_resource_files_same obj detailed :
  preserves files_same (clean_resource obj detailed).
Proof.
  unfold clean_resource. apply preserves_bind; try apply _.
  - destruct detailed; cbn [negb]; [apply preserves_pass; apply _|].
    apply preserves_bind; try apply _; [apply py_pop_files_same|].
    intros _. apply preserves_bind; try apply _;
      [apply py_get_or_new_files_same|].
    intros meta. apply preserves_bind; try apply _.
    + apply preserves_for_each; try apply _. intros key _.
      apply py_pop_files_same.
    + intros _. apply py_setitem_files_same.
  - intros _. apply preserves_ret. apply _.
Qed.

Lemma normalize_item_files_same item av kd detailed :
  preserves files_same (normalize_item item av kd detailed).
Proof.
  unfold normalize_item.
  apply preserves_bind; try apply _; [apply py_setitem_files_same|].
  intros _. apply preserves_bind; try apply _; [apply py_setitem_files_same|].
  intros _. apply clean_resource_files_same.
Qed.

Lemma log_keeps lv msg : preserves keeps_entries (log lv msg).
Proof.
  intros w. unfold log. cbn [fst]. split_and!; cbn [w_fs w_log]; [done| |].
  - intros p doc ?. by exists doc.
  - by apply prefix_app_r.
Qed.

Lemma write_yaml_keeps p doc : preserves keeps_entries (write_yaml p doc).
Proof.
  intros w. destruct (write_yaml_run p doc w) as [Hw|[e Hw]];
    [|rewrite Hw; reflexivity].
  assert (w_fs w !! p ≠ Some Dir) as Hnd.
  { intros Hd. revert Hw. unfold write_yaml. rewrite bind_run.
    unfold get_fs. cbv beta iota.
    destruct (p_parts p); [done|].
    destruct (node_at (w_fs w) (parent p)) as [[]|]; try done.
    by rewrite Hd. }
  rewrite Hw. cbn [fst]. split_and!; cbn [w_fs w_log]; [| |done].
  - intros q Hq. rewrite lookup_insert_ne; [done|]. intros <-. done.
  - intros q doc0 Hq. destruct (decide (p = q)) as [<-|Hne].
    + exists doc. by rewrite lookup_insert_eq.
    + exists doc0. by rewrite lookup_insert_ne.
Qed.

Section Keeps.
Variable format_value : heap → pyval → string.
Variable call_k8s_api : string → heap → heap * result pyval.
Variable str_exn : exn → string.

Lemma save_object_keeps obj base rn ns :
  preserves keeps_entries (save_object format_value obj base rn ns).
Proof.
  pose proof files_same_keeps as Hfk.
  unfold save_object.
  apply preserves_bind; try apply _.
  { eapply preserves_weaken; [exact Hfk|apply py_get_or_new_files_same]. }
  intros meta. apply preserves_bind; try apply _.
  { eapply preserves_weaken; [exact Hfk|apply py_get_files_same]. }
  intros name. apply preserves_bind; try apply _.
  { eapply preserves_weaken; [exact Hfk|apply py_truthy_files_same]. }
  intros named. destruct named; cbn [negb];
    [|apply preserves_pass; apply _].
  apply preserves_bind; try apply _.
  { by intros w. }
  intros stem. apply preserves_bind; try apply _.
  { eapply preserves_weaken; [apply dirs_added_keeps|].
    apply mkdir_parents_dirs_added. }
  intros _. apply preserves_bind; try apply _.
  { eapply preserves_weaken; [exact Hfk|apply py_items_files_same]. }
  intros items. apply preserves_bind; try apply _.
  { intros w0. reflexivity. }
  intros h. apply write_yaml_keeps.
Qed.

Lemma api_call_files_same path :
  preserves files_same (api_call call_k8s_api path).
Proof.
  intros w. unfold api_call. by destruct (call_k8s_api path (w_heap w)).
Qed.

Lemma dump_items_keeps data av kd detailed dest rn ns :
  preserves keeps_entries
    (dump_items format_value data av kd detailed dest rn ns).
Proof.
  pose proof files_same_keeps as Hfk.
  unfold dump_items. apply preserves_bind; try apply _.
  { eapply preserves_weaken; [exact Hfk|].
    apply py_get_or_empty_list_files_same. }
  intros items. apply preserves_bind; try apply _.
  { eapply preserves_weaken; [exact Hfk|apply py_iter_files_same]. }
  intros xs. apply preserves_for_each; try apply _. intros item _.
  apply preserves_bind; try apply _.
  { eapply preserves_weaken; [exact Hfk|apply normalize_item_files_same]. }
  intros cleaned. apply save_object_keeps.
Qed.

Lemma dump_namespaced_unit_keeps ns r detailed dest :
  preserves keeps_entries
    (dump_namespaced_unit format_value call_k8s_api str_exn ns r detailed
       dest).
Proof.
  unfold dump_namespaced_unit. apply preserves_try_except; try apply _.
  - apply preserves_bind; try apply _.
    { eapply preserves_weaken; [apply files_same_keeps|].
      apply api_call_files_same. }
    intros data. apply preserves_bind; try apply _;
      [apply dump_items_keeps | intros _; apply log_keeps].
  - intros [status| | | |]; try apply log_keeps.
    destruct (decide (status = 403%Z)); [apply log_keeps|].
    destruct (decide (status = 404%Z));
      [apply preserves_pass; apply _ | apply log_keeps].
Qed.

Lemma dump_cluster_unit_keeps r detailed dest :
  preserves keeps_entries
    (dump_cluster_unit format_value call_k8s_api str_exn r detailed dest).
Proof.
  unfold dump_cluster_unit. apply preserves_try_except; try apply _.
  - apply preserves_bind; try apply _.
    { eapply preserves_weaken; [apply files_same_keeps|].
      apply api_call_files_same. }
    intros data. apply preserves_bind; try apply _;
      [apply dump_items_keeps | intros _; apply log_keeps].
  - intros [status| | | |]; try apply log_keeps.
    destruct (decide (status = 403%Z)); [apply log_keeps|].
    destruct (decide (status = 404%Z));
      [apply preserves_pass; apply _ | apply log_keeps].
Qed.
End Keeps.

(** A dump only adds: whatever the API answers, after the two passes every
    directory that was there is still a directory, every file that was
    there is still a file (a manifest may have been written over it), and
    the log is the old log with entries after it. *)
Theorem dump_resources_keeps_entries
    (format_value : heap → pyval → string)
    (call_k8s_api : string → heap → heap * result pyval)
    (str_exn : exn → string) (m : mode) (ns_list : list string)
    (ns_resources cls_resources : list descriptor) (detailed : bool)
    (dest : ppath) (w : world) :
  keeps_entries w
    (dump_resources format_value call_k8s_api str_exn m ns_list ns_resources
       cls_resources detailed dest w).1.
Proof.
  revert w. change (preserves keeps_entries
    (dump_resources format_value call_k8s_api str_exn m ns_list ns_resources
       cls_resources detailed dest)).
  unfold dump_resources. apply preserves_bind; try apply _.
  - destruct m; try (apply preserves_pass; apply _);
      (apply preserves_bind; try apply _; [apply log_keeps|]; intros _;
       apply preserves_for_each; try apply _; intros ns _;
       apply preserves_for_each; try apply _; intros r _;
       apply dump_namespaced_unit_keeps).
  - intros _. destruct m; try (apply preserves_pass; apply _);
      (apply preserves_bind; try apply _; [apply log_keeps|]; intros _;
       apply preserves_for_each; try apply _; intros r _;
       apply dump_cluster_unit_keeps).
Qed.

(** ** What [save_object] touches *)

Section SaveObjectFrame.
Variable format_value : heap → pyval → string.


End SaveObjectFrame.


Section SaveObjectFrame2.
Variable format_value : heap → pyval → string.

(** ** Writing twice *)

Lemma node_at_insert_ne fs p q x :
  p ≠ q → node_at (<[p := x]> fs) q = node_at fs q.
Proof.
  intros Hne. unfold node_at. destruct (p_parts q); [done|].
  by rewrite lookup_insert_ne.
Qed.

Lemma parent_ne p : p_parts p ≠ [] → parent p ≠ p.
Proof.
  intros Hp Heq. apply (f_equal (λ q, length (p_parts q))) in Heq.
  cbn in Heq. destruct (p_parts p) as [|c cs] using rev_ind; [done|].
  rewrite removelast_last, length_app in Heq. cbn in Heq. lia.
Qed.

Lemma parent_parent_ne p : p_parts p ≠ [] → parent (parent p) ≠ p.
Proof.
  intros Hp Heq. apply (f_equal (λ q, length (p_parts q))) in Heq.
  cbn in Heq. destruct (p_parts p) as [|c cs _] using rev_ind; [done|].
  rewrite removelast_last, length_app in Heq. cbn in Heq.
  destruct cs as [|c' cs' _] using rev_ind; cbn in Heq; [lia|].
  rewrite removelast_last, length_app in Heq. cbn in Heq. lia.
Qed.

(** What [os.mkdir] leaves behind. *)
Lemma os_mkdir_cases p w :
  (os_mkdir p w
   = (World (w_heap w) (<[p := Dir]> (w_fs w)) (w_log w), Ok ())
   ∧ p_parts p ≠ [] ∧ node_at (w_fs w) (parent p) = Some Dir
   ∧ w_fs w !! p = None)
  ∨ (os_mkdir p w = (w, Raise (OSError ENOENT))
     ∧ node_at (w_fs w) (parent p) = None)
  ∨ (∃ k, os_mkdir p w = (w, Raise (OSError k)) ∧ k ≠ ENOENT ∧
          node_at (w_fs w) (parent p) ≠ None).
Proof.
  unfold os_mkdir. rewrite bind_run. unfold get_fs. cbv beta iota.
  destruct (p_parts p) as [|c cs] eqn:Hparts.
  { right; right. exists EEXIST. split_and!; [done..|].
    unfold node_at, parent. cbn [p_parts]. by rewrite Hparts. }
  destruct (node_at (w_fs w) (parent p)) as [[]|] eqn:Hpar.
  - destruct (w_fs w !! p) eqn:Hp.
    + right; right. by exists EEXIST.
    + by left.
  - right; right. by exists ENOTDIR.
  - right; by left.
Qed.
End SaveObjectFrame2.

Lemma is_dir_check_run p e w :
  (b ← is_dir p; if (b : bool) then pass else raise e) w
  = match node_at (w_fs w) p with
    | Some Dir => (w, Ok ())
    | _ => (w, Raise e)
    end.
Proof.
  rewrite bind_run. unfold is_dir. rewrite bind_run. unfold get_fs.
  cbv beta iota. unfold mret, M_ret.
  by destruct (node_at (w_fs w) p) as [[]|].
Qed.

Lemma node_at_insert_eq fs p x :
  p_parts p ≠ [] → node_at (<[p := x]> fs) p = Some x.
Proof.
  intros Hp. unfold node_at. destruct (p_parts p); [done|].
  by rewrite lookup_insert_eq.
Qed.

Lemma mkdir_exist_ok_post p w w1 :
  mkdir_exist_ok p w = (w1, Ok ()) →
  node_at (w_fs w1) p = Some Dir ∧ node_at (w_fs w1) (parent p) ≠ None.
Proof.
  unfold mkdir_exist_ok, try_except.
  destruct (os_mkdir_cases p w)
    as [(-> & Hp & Hpar & _)|[[-> _]|(k & -> & Hk & Hpar)]].
  - intros [= <-]. cbn [w_fs]. split.
    + by apply node_at_insert_eq.
    + rewrite node_at_insert_ne by (apply not_eq_sym; by apply parent_ne).
      by rewrite Hpar.
  - done.
  - destruct k; try done; rewrite is_dir_check_run;
      destruct (node_at (w_fs w) p) as [[]|] eqn:Hn; try done;
      by intros [= <-].
Qed.

Lemma mkdir_parents_rev_post a rp w w1 :
  mkdir_parents_rev a rp w = (w1, Ok ()) →
  node_at (w_fs w1) (PPath a (reverse rp)) = Some Dir ∧
  node_at (w_fs w1) (parent (PPath a (reverse rp))) ≠ None.
Proof.
  set (self := PPath a (reverse rp)).
  assert (mkdir_parents_rev a rp w
          = try_except (os_mkdir self) (λ e,
              match e with
              | OSError ENOENT =>
                  match rp with
                  | [] => raise e
                  | _ :: rparent =>
                      mkdir_parents_rev a rparent;; mkdir_exist_ok self
                  end
              | OSError _ =>
                  b ← is_dir self; if (b : bool) then pass else raise e
              | _ => raise e
              end) w) as -> by (by destruct rp).
  unfold try_except.
  destruct (os_mkdir_cases self w)
    as [(-> & Hp & Hpar & _)|[[-> _]|(k & -> & Hk & Hpar)]].
  - intros [= <-]. cbn [w_fs]. split.
    + by apply node_at_insert_eq.
    + rewrite node_at_insert_ne by (apply not_eq_sym; by apply parent_ne).
      by rewrite Hpar.
  - destruct rp as [|c rp']; [done|]. rewrite bind_run.
    destruct (mkdir_parents_rev a rp' w) as [w' [[]|e]]; [|done].
    apply mkdir_exist_ok_post.
  - destruct k; try done; rewrite is_dir_check_run;
      destruct (node_at (w_fs w) self) as [[]|] eqn:Hn; try done;
      by intros [= <-].
Qed.

Lemma mkdir_parents_rev_again a rp w :
  node_at (w_fs w) (PPath a (reverse rp)) = Some Dir →
  node_at (w_fs w) (parent (PPath a (reverse rp))) ≠ None →
  mkdir_parents_rev a rp w = (w, Ok ()).
Proof.
  set (self := PPath a (reverse rp)). intros Hself Hpar.
  assert (∀ handler_enoent,
            try_except (os_mkdir self) (λ e,
              match e with
              | OSError ENOENT => handler_enoent e
              | OSError _ =>
                  b ← is_dir self; if (b : bool) then pass else raise e
              | _ => raise e
              end) w = (w, Ok ())) as Htry.
  { intros handler. unfold try_except.
    destruct (os_mkdir_cases self w)
      as [(_ & Hp & _ & Hnone)|[[_ Hnone]|(k & -> & Hk & _)]].
    - unfold node_at in Hself. destruct (p_parts self); [done|congruence].
    - done.
    - destruct k; try done; rewrite is_dir_check_run; by rewrite Hself. }
  destruct rp as [|c rp']; cbn [mkdir_parents_rev]; apply Htry.
Qed.

Lemma mkdir_parents_post p w w1 :
  mkdir_parents p w = (w1, Ok ()) →
  node_at (w_fs w1) p = Some Dir ∧ node_at (w_fs w1) (parent p) ≠ None.
Proof.
  intros H. apply mkdir_parents_rev_post in H.
  rewrite reverse_involutive in H. by destruct p.
Qed.

Lemma mkdir_parents_again p w :
  node_at (w_fs w) p = Some Dir →
  node_at (w_fs w) (parent p) ≠ None →
  mkdir_parents p w = (w, Ok ()).
Proof.
  intros H1 H2. apply mkdir_parents_rev_again;
    rewrite reverse_involutive; by destruct p.
Qed.

(** Writing an object again changes nothing: when [save_object] has
    returned, a second call on the same object returns too, and the files
    and the log are as the first call left them. *)
Theorem save_object_idempotent
    (format_value : heap → pyval → string) (w w1 : world) (obj : loc)
    (d : dict) (base_dir : ppath) (resource_name : string)
    (namespace : option string) :
  w_heap w !! obj = Some d →
  save_object format_value (VRef obj) base_dir resource_name namespace w
  = (w1, Ok ()) →
  ∃ w2,
    save_object format_value (VRef obj) base_dir resource_name namespace w1
    = (w2, Ok ()) ∧
    w_fs w2 = w_fs w1 ∧ w_log w2 = w_log w1.
Proof.
  intros Hobj.
  destruct (dict_get "metadata" d) as [v|] eqn:Hmeta.
  2: { rewrite (save_object_no_metadata _ w obj d) by done.
       intros [= <-].
       rewrite (save_object_no_metadata _ _ obj d); [by eexists|..|done].
       cbn [w_heap]. by apply lookup_app_l_Some. }
  assert ((∃ m md, v = VRef m ∧ w_heap w !! m = Some md)
          ∨ (∀ m, v = VRef m → w_heap w !! m = None)) as [Hcase|Hcase].
  { destruct v as [| | | | |m]; try (right; by intros ? [=]).
    destruct (w_heap w !! m) as [md|] eqn:Hm; [left; eauto|].
    right. by intros ? [= <-]. }
  2: { by rewrite (save_object_bad_metadata _ w obj d v). }
  destruct Hcase as (m & md & -> & Hm).
  destruct (truthy (w_heap w) (default VNone (dict_get "name" md)))
    eqn:Htruthy.
  2: { rewrite (save_object_falsy_name _ w obj d m md) by done.
       intros [= <-].
       rewrite (save_object_falsy_name _ w obj d m md) by done.
       by eexists. }
  destruct (dict_get "name" md) as [nv|] eqn:Hname; [|done].
  cbn [default from_option id] in Htruthy.
  rewrite (save_object_named _ w obj d m md nv) by done.
  set (path := object_path _ _ _ _). rewrite bind_run.
  pose proof (mkdir_parents_dirs_added (parent path) w) as (Hh & Hlog & _).
  destruct (mkdir_parents (parent path) w) as [w' [[]|e]] eqn:Hmk; [|done].
  cbn [fst] in Hh, Hlog.
  apply mkdir_parents_post in Hmk as [Hdir Hpar].
  set (doc := Document (reorder_keys d) (w_heap w)).
  assert (p_parts path ≠ [] ∧ w_fs w' !! path ≠ Some Dir ∨
          ∃ e, write_yaml path doc w' = (w', Raise e)) as Hnd.
  { unfold write_yaml. rewrite bind_run. unfold get_fs. cbv beta iota.
    destruct (p_parts path); [right; by eexists|].
    destruct (node_at (w_fs w') (parent path)) as [[]|];
      try (right; by eexists).
    destruct (w_fs w' !! path) as [[]|]; [right; by eexists|by left..]. }
  destruct (write_yaml_run path doc w') as [Hw|[e Hw]]; rewrite Hw; [|done].
  destruct Hnd as [[Hparts Hnd]|[e He]]; [|congruence].
  intros [= <-].
  set (w1 := World (w_heap w') (<[path := File doc]> (w_fs w')) (w_log w')).
  assert (w_heap w1 = w_heap w) as Hh1 by done.
  rewrite (save_object_named _ w1 obj d m md nv) by (by rewrite ?Hh1).
  rewrite Hh1. fold path. rewrite bind_run.
  rewrite (mkdir_parents_again (parent path) w1).
  2: { cbn [w1 w_fs]. rewrite node_at_insert_ne; [done|].
       apply not_eq_sym. by apply parent_ne. }
  2: { cbn [w1 w_fs]. rewrite node_at_insert_ne; [done|].
       apply not_eq_sym. by apply parent_parent_ne. }
  fold doc. unfold write_yaml. rewrite bind_run. unfold get_fs.
  cbv beta iota.
  destruct (p_parts path) eqn:Hpp; [done|].
  assert (node_at (w_fs w1) (parent path) = Some Dir) as ->.
  { cbn [w1 w_fs]. rewrite node_at_insert_ne; [done|].
    apply not_eq_sym. apply parent_ne. by rewrite Hpp. }
  cbn [w1 w_fs]. rewrite lookup_insert_eq. unfold put_fs.
  eexists. split; [done|]. cbn [w_fs w_log w_heap].
  by rewrite insert_insert_eq.
Qed.

Lemma save_object_idempotent_witness :
  let w := World [[("kind", VStr "Pod"); ("metadata", VRef 1)];
                  [("name", VStr "web")]] ∅ [] in
  let w1 := (save_object (λ _ _, "") (VRef 0) (PPath Root ["data"]) "pods"
               (Some "ns1") w).1 in
  ∃ w2,
    save_object (λ _ _, "") (VRef 0) (PPath Root ["data"]) "pods" (Some "ns1")
      w1 = (w2, Ok ()) ∧
    w_fs w2 = w_fs w1 ∧ w_log w2 = w_log w1.
Proof.
  exact (save_object_idempotent (λ _ _, "")
           (World [[("kind", VStr "Pod"); ("metadata", VRef 1)];
                   [("name", VStr "web")]] ∅ [])
           _ 0 _ (PPath Root ["data"]) "pods" (Some "ns1") eq_refl eq_refl).
Defined.

(** ** The manifest of a cleaned item *)

Lemma dict_keys_set k v d :
  dict_keys (dict_set k v d)
  = if dict_contains k d then dict_keys d else dict_keys d ++ [k].
Proof.
  unfold dict_contains. destruct (dict_get k d) as [x|] eqn:Hk.
  - apply dict_keys_set_present. by exists x.
  - rewrite dict_set_absent by done. by rewrite dict_keys_app.
Qed.

Lemma dict_set_NoDup k v d :
  NoDup (dict_keys d) → NoDup (dict_keys (dict_set k v d)).
Proof.
  intros Hnd. rewrite dict_keys_set.
  destruct (dict_contains k d) eqn:Hc; [done|].
  apply NoDup_app. split_and!; [done| |apply NoDup_singleton].
  intros k' Hk' ->%list_elem_of_singleton.
  apply dict_contains_true in Hk'. congruence.
Qed.

Lemma dict_pop_NoDup k d :
  NoDup (dict_keys d) → NoDup (dict_keys (dict_pop k d)).
Proof. intros Hnd. rewrite dict_keys_pop. by apply NoDup_filter. Qed.

Lemma manifest_key_order_head ks :
  "apiVersion" ∈ ks → "kind" ∈ ks →
  take 2 (manifest_key_order ks) = ["apiVersion"; "kind"].
Proof.
  intros Ha Hk. unfold manifest_key_order, priority_keys.
  by rewrite filter_cons_True, filter_cons_True.
Qed.

(** In a non-detailed dump, the turn of the loop for one item, cleaning and
    writing, leaves behind a manifest that starts with [apiVersion] and
    [kind], bound to the values of the resource type, has no [status], and
    whose metadata has none of the keys [uid], [resourceVersion],
    [generation], [managedFields], [creationTimestamp]. *)
Theorem dumped_manifest_is_clean
    (format_value : heap → pyval → string) (w : world) (obj : loc) (d : dict)
    (api_version kind : string) (dest : ppath) (resource_name : string)
    (namespace : option string) (p : ppath) (doc : document) :
  w_heap w !! obj = Some d →
  NoDup (dict_keys d) →
  dict_get "metadata" d ≠ Some (VRef obj) →
  let w' :=
    ((cleaned ← normalize_item (VRef obj) api_version kind false;
      save_object format_value cleaned dest resource_name namespace) w).1 in
  w_fs w' !! p = Some (File doc) →
  w_fs w !! p ≠ Some (File doc) →
  take 2 (dict_keys (doc_top doc)) = ["apiVersion"; "kind"] ∧
  dict_get "apiVersion" (doc_top doc) = Some (VStr api_version) ∧
  dict_get "kind" (doc_top doc) = Some (VStr kind) ∧
  dict_get "status" (doc_top doc) = None ∧
  ∃ m md,
    dict_get "metadata" (doc_top doc) = Some (VRef m) ∧
    doc_store doc !! m = Some md ∧
    ∀ k, k ∈ stripped_metadata_keys → dict_get k md = None.
Proof.
  intros Hobj Hnd Hself. cbv zeta.
  assert (obj < length (w_heap w)) as Hlt by by eapply lookup_lt_Some.
  rewrite bind_run, (normalize_item_run w obj d) by done.
  set (d2 := injected api_version kind d).
  set (w2 := World (<[obj := d2]> (w_heap w)) (w_fs w) (w_log w)).
  assert (w_heap w2 !! obj = Some d2) as Hobj2
    by (by apply list_lookup_insert_eq).
  assert (dict_get "metadata" d2 = dict_get "metadata" d) as Hmeta2
    by (unfold d2; by rewrite injected_get).
  assert (dict_get "apiVersion" d2 = Some (VStr api_version)) as Hav
    by (unfold d2; by rewrite injected_get).
  assert (dict_get "kind" d2 = Some (VStr kind)) as Hkd
    by (unfold d2; by rewrite injected_get).
  assert (NoDup (dict_keys d2)) as Hnd2
    by (unfold d2, injected; by do 2 apply dict_set_NoDup).
  assert (w_fs w2 = w_fs w) as Hfs2 by done.
  assert (obj < length (w_heap w2)) as Hlt2
    by (cbn [w2 w_heap]; by rewrite length_insert).
  clearbody w2 d2. rewrite <- Hfs2.
  destruct (dict_get "metadata" d2) as [meta|] eqn:Hmeta.
  - assert ((∃ m md, meta = VRef m ∧ w_heap w2 !! m = Some md)
            ∨ (∀ m, meta = VRef m → w_heap w2 !! m = None)) as [Hcase|Hcase].
    { destruct meta as [| | | | |m]; try (right; by intros ? [=]).
      destruct (w_heap w2 !! m) as [md|] eqn:Hm; [left; eauto|].
      right. by intros ? [= <-]. }
    + destruct Hcase as (m & md & -> & Hm).
      assert (m ≠ obj) as Hne by (intros ->; congruence).
      assert (m < length (w_heap w2)) by by eapply lookup_lt_Some.
      rewrite (clean_resource_run_ref w2 obj d2 m md) by done.
      set (d3 := dict_pop "status" d2).
      set (md3 := strip stripped_metadata_keys md).
      set (w3 := World _ _ _).
      assert (w_heap w3 !! obj = Some d3) as Hobj3.
      { cbn [w3 w_heap]. rewrite list_lookup_insert_ne by done.
        by apply list_lookup_insert_eq. }
      assert (w_heap w3 !! m = Some md3) as Hm3.
      { cbn [w3 w_heap]. apply list_lookup_insert_eq.
        by rewrite length_insert. }
      assert (NoDup (dict_keys d3)) as Hnd3 by (by apply dict_pop_NoDup).
      intros Hafter Hbefore.
      destruct (save_object_written format_value w3 obj d3 dest resource_name
                  namespace p doc Hobj3 Hafter Hbefore)
        as (-> & m' & md' & nv & Hmeta3 & Hm' & _).
      destruct (reorder_keys_lookup d3 Hnd3) as [_ Hget].
      cbn [doc_top doc_store]. rewrite !Hget.
      unfold d3 in Hmeta3 |- *. rewrite !dict_get_pop in *.
      rewrite !decide_False in * by done. rewrite decide_True by done.
      rewrite reorder_keys_keys by done. split_and!; try done.
      * apply manifest_key_order_head; rewrite dict_keys_pop;
          apply list_elem_of_filter; (split; [done|]);
          by eapply dict_get_Some_keys.
      * exists m, md3. split_and!; [done..|].
        intros k Hk.
        by destruct (strip_keys_removed stripped_metadata_keys md)
          as (_ & _ & Hgone); apply Hgone.
    + destruct (clean_resource_run_raise w2 obj d2 meta) as [e ->];
        [done..|]. cbn [fst w_fs]. congruence.
  - rewrite (clean_resource_run_absent w2 obj d2) by done.
    set (d3 := dict_pop "status" d2 ++ _). set (w3 := World _ _ _).
    assert (w_heap w3 !! obj = Some d3) as Hobj3.
    { cbn [w3 w_heap]. rewrite lookup_app_l by (by rewrite length_insert).
      by apply list_lookup_insert_eq. }
    intros Hafter Hbefore.
    destruct (save_object_written format_value w3 obj d3 dest resource_name
                namespace p doc Hobj3 Hafter Hbefore)
      as (_ & m' & md' & nv & Hmeta3 & Hm' & Hname & _).
    exfalso. unfold d3 in Hmeta3.
    rewrite dict_get_app, dict_get_pop, decide_False, Hmeta in Hmeta3
      by done.
    cbn in Hmeta3. injection Hmeta3 as <-.
    cbn [w3 w_heap] in Hm'.
    rewrite lookup_app_r in Hm' by (by rewrite length_insert).
    rewrite length_insert, Nat.sub_diag in Hm'. injection Hm' as <-. done.
Qed.

Lemma dumped_manifest_is_clean_witness :
  let w := World [[("status", VStr "Running"); ("metadata", VRef 1)];
                  [("name", VStr "web"); ("uid", VStr "1f")]] ∅ [] in
  let doc := Document [("apiVersion", VStr "v1"); ("kind", VStr "Pod");
                       ("metadata", VRef 1)]
               [[("metadata", VRef 1); ("apiVersion", VStr "v1");
                 ("kind", VStr "Pod")];
                [("name", VStr "web")]] in
  take 2 (dict_keys (doc_top doc)) = ["apiVersion"; "kind"] ∧
  dict_get "apiVersion" (doc_top doc) = Some (VStr "v1") ∧
  dict_get "kind" (doc_top doc) = Some (VStr "Pod") ∧
  dict_get "status" (doc_top doc) = None ∧
  ∃ m md,
    dict_get "metadata" (doc_top doc) = Some (VRef m) ∧
    doc_store doc !! m = Some md ∧
    ∀ k, k ∈ stripped_metadata_keys → dict_get k md = None.
Proof.
  cbv zeta.
  refine (dumped_manifest_is_clean (λ _ _, "")
            (World [[("status", VStr "Running"); ("metadata", VRef 1)];
                    [("name", VStr "web"); ("uid", VStr "1f")]] ∅ [])
            0 [("status", VStr "Running"); ("metadata", VRef 1)]
            "v1" "Pod" (PPath Root ["data"]) "pods" None
            (PPath Root ["data"; "cluster"; "pods"; "web.yaml"])
            _ _ _ _ _ _).
  - reflexivity.
  - by apply (bool_decide_unpack _).
  - discriminate.
  - vm_compute. reflexivity.
  - vm_compute. discriminate.
Defined.

(** ** Destinations of different objects *)

Lemma string_length_app s1 s2 :
  String.length (s1 +:+ s2) = String.length s1 + String.length s2.
Proof.
  induction s1 as [|c s1 IH]; [done|].
  change (String c s1 +:+ s2) with (String c (s1 +:+ s2)).
  cbn [String.length]. by rewrite IH.
Qed.

Lemma string_app_inj_r s1 s2 t : s1 +:+ t = s2 +:+ t → s1 = s2.
Proof.
  revert s2. induction s1 as [|c s1 IH]; intros [|c' s2] Heq.
  - done.
  - apply (f_equal String.length) in Heq.
    change (String.length t
            = String.length (String c' (s2 +:+ t))) in Heq.
    cbn [String.length] in Heq. rewrite string_length_app in Heq. lia.
  - apply (f_equal String.length) in Heq.
    change (String.length (String c (s1 +:+ t))
            = String.length t) in Heq.
    cbn [String.length] in Heq. rewrite string_length_app in Heq. lia.
  - change (String c (s1 +:+ t) = String c' (s2 +:+ t)) in Heq.
    injection Heq as -> Heq. f_equal. by apply IH.
Qed.

(** Two objects share a file only if they agree on the namespace, on the
    plural name of their type and on their name (all of them single path
    components): the group and the version of the type play no part in the
    path. *)
Theorem object_path_injective (base_dir : ppath) (plural plural' : string)
    (namespace namespace' : option string) (n n' : string) :
  has_slash n = false → has_slash n' = false →
  plain_component plural → plain_component plural' →
  (∀ ns, namespace = Some ns → plain_component ns) →
  (∀ ns, namespace' = Some ns → plain_component ns) →
  object_path base_dir plural namespace (n +:+ ".yaml")
  = object_path base_dir plural' namespace' (n' +:+ ".yaml") →
  namespace = namespace' ∧ plural = plural' ∧ n = n'.
Proof.
  intros Hn Hn' Hp Hp' Hns Hns'.
  rewrite !object_path_plain by done. unfold spec_destination.
  intros [= Heq]. apply app_inv_head in Heq.
  destruct namespace as [ns|], namespace' as [ns'|]; try done.
  - injection Heq as -> -> Heq. by apply string_app_inj_r in Heq as ->.
  - injection Heq as -> Heq. by apply string_app_inj_r in Heq as ->.
Qed.

Lemma object_path_injective_witness :
  Some "ns1" = Some "ns1" ∧ "pods" = "pods" ∧ "web" = "web".
Proof.
  refine (object_path_injective (PPath Root ["data"]) "pods" "pods"
            (Some "ns1") (Some "ns1") "web" "web" _ _ _ _ _ _ _);
    try reflexivity; try (by split_and!);
    intros ns [= <-]; by split_and!.
Defined.

(** ** Rotation deletes every old archive *)

Section RotationComplete.
Variable st_mtime : ppath → Z.
Variable localtime : Z → result Z.

Lemma rotate_body_run archive_path t stamp arch w :
  naive_timestamp localtime t = Ok stamp →
  rotate_one st_mtime localtime archive_path t arch w
  = (if bool_decide (arch ≠ archive_path) && (st_mtime arch <? stamp)%Z
     then unlink arch;; log INFO ("Rotated old archive: " +:+ path_name arch)
     else pass) w.
Proof.
  intros Hstamp. unfold rotate_one. rewrite bind_run.
  destruct (bool_decide (arch ≠ archive_path)); [|reflexivity].
  rewrite bind_run, lift_result_run, Hstamp. reflexivity.
Qed.

Lemma rotate_body_only_deleted archive_path t arch :
  preserves (only_deleted (λ _, True)) (rotate_one st_mtime localtime archive_path t arch).
Proof.
  intros w. unfold rotate_one. rewrite bind_run.
  assert (preserves (only_deleted (λ _, True))
            (unlink arch;;
             log INFO ("Rotated old archive: " +:+ path_name arch))) as Hdel.
  { apply preserves_bind; try apply _.
    - by apply unlink_only_deleted.
    - intros _. apply log_only_deleted. }
  destruct (bool_decide (arch ≠ archive_path)); [|reflexivity].
  rewrite bind_run, lift_result_run.
  destruct (naive_timestamp localtime t) as [stamp|e]; [|reflexivity].
  cbv beta iota. cbn [mret M_ret]. cbv beta iota.
  destruct (st_mtime arch <? stamp)%Z; [apply Hdel|reflexivity].
Qed.

Lemma rotate_body_stamp archive_path t arch w w1 :
  rotate_one st_mtime localtime archive_path t arch w = (w1, Ok ()) →
  arch ≠ archive_path →
  ∃ stamp, naive_timestamp localtime t = Ok stamp.
Proof.
  intros Hrun Hne. unfold rotate_one in Hrun. rewrite bind_run in Hrun.
  rewrite bool_decide_true in Hrun by done.
  rewrite bind_run, lift_result_run in Hrun.
  destruct (naive_timestamp localtime t) as [stamp|e]; [by exists stamp|done].
Qed.

Lemma unlink_ok p w w1 :
  unlink p w = (w1, Ok ()) → w_fs w1 !! p = None.
Proof.
  unfold unlink. rewrite bind_run. unfold get_fs. cbv beta iota.
  destruct (node_at (w_fs w) p) as [[]|]; try done.
  intros [= <-]. cbn [w_fs]. apply lookup_delete_eq.
Qed.

Lemma rotate_loop_complete archive_path t (l : list ppath) : ∀ w w1,
  for_each l (rotate_one st_mtime localtime archive_path t) w = (w1, Ok ()) →
  ∀ p, p ∈ l → p ≠ archive_path →
       ∃ stamp, naive_timestamp localtime t = Ok stamp ∧
                ((st_mtime p < stamp)%Z → w_fs w1 !! p = None).
Proof.
  induction l as [|x l IH]; intros w w1 Hrun p Hin Hne.
  { by apply elem_of_nil in Hin. }
  cbn [for_each] in Hrun. rewrite bind_run in Hrun.
  destruct (rotate_one st_mtime localtime archive_path t x w) as [w' [[]|e]] eqn:Hbody; [|done].
  apply elem_of_cons in Hin as [->|Hin]; [|by eapply IH].
  destruct (rotate_body_stamp _ _ _ _ _ Hbody Hne) as [stamp Hstamp].
  exists stamp. split; [done|]. intros Hold.
  rewrite (rotate_body_run _ _ stamp) in Hbody by done.
  rewrite bool_decide_true in Hbody by done.
  apply Z.ltb_lt in Hold. rewrite Hold in Hbody. cbn [andb] in Hbody.
  rewrite bind_run in Hbody.
  destruct (unlink x w) as [w0 [[]|e]] eqn:Hunlink; [|done].
  apply unlink_ok in Hunlink. injection Hbody as <-.
  pose proof (preserves_for_each (only_deleted (λ _, True)) l _
                (λ y _, rotate_body_only_deleted archive_path t y)
                (World (w_heap w0) (w_fs w0)
                   (w_log w0 ++ [(INFO, "Rotated old archive: "
                                        +:+ path_name x)]))) as Hrest.
  rewrite Hrun in Hrest. cbn [fst] in Hrest.
  destruct (Hrest x) as [E|[_ E]]; [|done]. by rewrite E.
Qed.

End RotationComplete.


(** ** Strings: prefixes, suffixes and substrings *)

Lemma strip_prefix_app pre rest : strip_prefix pre (pre +:+ rest) = Some rest.
Proof.
  induction pre as [|c pre IH]; [by destruct rest|].
  change (String c pre +:+ rest) with (String c (pre +:+ rest)).
  cbn [strip_prefix]. by rewrite decide_True.
Qed.

Lemma strip_prefix_Some pre s rest :
  strip_prefix pre s = Some rest → s = pre +:+ rest.
Proof.
  revert s. induction pre as [|c pre IH]; intros s.
  - cbn [strip_prefix]. intros [= ->]. reflexivity.
  - destruct s as [|c' s]; [done|]. cbn [strip_prefix].
    destruct (decide (c = c')) as [->|]; [|done].
    intros H. apply IH in H as ->. reflexivity.
Qed.

Lemma startswith_app pre rest : startswith pre (pre +:+ rest) = true.
Proof. unfold startswith. by rewrite strip_prefix_app. Qed.

Lemma contains_app_r sub s1 s2 :
  contains sub s2 = true → contains sub (s1 +:+ s2) = true.
Proof.
  intros H. induction s1 as [|c s1 IH]; [done|].
  change (String c s1 +:+ s2) with (String c (s1 +:+ s2)).
  cbn [contains]. rewrite IH. apply orb_true_r.
Qed.

Lemma contains_here sub rest : contains sub (sub +:+ rest) = true.
Proof.
  destruct (sub +:+ rest) eqn:E; cbn [contains]; rewrite <- E;
    by rewrite startswith_app.
Qed.

Lemma string_app_assoc s1 s2 s3 :
  (s1 +:+ s2) +:+ s3 = s1 +:+ (s2 +:+ s3).
Proof.
  induction s1 as [|c s1 IH]; [done|].
  change ((String c (s1 +:+ s2)) +:+ s3 = String c (s1 +:+ s2 +:+ s3)).
  change (String c ((s1 +:+ s2) +:+ s3) = String c (s1 +:+ s2 +:+ s3)).
  by rewrite IH.
Qed.

Lemma string_app_nil_r s : s +:+ "" = s.
Proof.
  induction s as [|c s IH]; [done|].
  change (String c (s +:+ "") = String c s). by rewrite IH.
Qed.

Lemma rev_app_spec s1 : ∀ s2, String.rev_app s1 s2 = String.rev s1 +:+ s2.
Proof.
  unfold String.rev. induction s1 as [|c s1 IH]; intros s2; [done|].
  cbn [String.rev_app]. rewrite (IH (String c s2)), (IH (String c "")).
  by rewrite string_app_assoc.
Qed.

Lemma string_rev_app s1 s2 :
  String.rev (s1 +:+ s2) = String.rev s2 +:+ String.rev s1.
Proof.
  induction s1 as [|c s1 IH].
  - change ("" +:+ s2) with s2. by rewrite string_app_nil_r.
  - change (String c s1 +:+ s2) with (String c (s1 +:+ s2)).
    unfold String.rev at 1 3. cbn [String.rev_app].
    rewrite !rev_app_spec, IH. by rewrite string_app_assoc.
Qed.

Lemma string_rev_involutive s : String.rev (String.rev s) = s.
Proof.
  induction s as [|c s IH]; [done|].
  unfold String.rev at 2. cbn [String.rev_app].
  rewrite rev_app_spec, string_rev_app, IH. done.
Qed.

Lemma ends_with_app pre suf : ends_with suf (pre +:+ suf) = true.
Proof. unfold ends_with. by rewrite string_rev_app, strip_prefix_app. Qed.

Lemma ends_with_true suf s :
  ends_with suf s = true → ∃ pre, s = pre +:+ suf.
Proof.
  unfold ends_with.
  destruct (strip_prefix (String.rev suf) (String.rev s)) as [r|] eqn:E;
    [|done].
  intros _. apply strip_prefix_Some in E. exists (String.rev r).
  rewrite <- (string_rev_involutive s), E, string_rev_app.
  by rewrite string_rev_involutive.
Qed.

(** What the pattern [backup-*.tar.<ext>] matches. *)
Lemma matches_backup_true ext name :
  matches_backup ext name = true ↔
  ∃ x, name = "backup-" +:+ x +:+ ".tar." +:+ ext.
Proof.
  unfold matches_backup. split.
  - destruct (strip_prefix "backup-" name) as [rest|] eqn:E; [|done].
    intros [pre ->]%ends_with_true. apply strip_prefix_Some in E as ->.
    by exists pre.
  - intros [x ->]. rewrite strip_prefix_app. apply ends_with_app.
Qed.

(** ** Archives and the tarball *)

Lemma tar_skips_archive ext ext' name :
  matches_backup ext name = true → tar_skips ext' name = true.
Proof.
  intros [x ->]%matches_backup_true. unfold tar_skips.
  rewrite startswith_app. cbn [andb].
  rewrite (contains_app_r ".tar" "backup-"); [done|].
  apply contains_app_r. apply (contains_here ".tar" ("." +:+ ext)).
Qed.

Lemma tar_skips_tar_name ext stamp : tar_skips ext (tar_name stamp) = true.
Proof.
  unfold tar_skips, tar_name. rewrite startswith_app. cbn [andb].
  rewrite (contains_app_r ".tar" "backup-"); [done|].
  apply contains_app_r. apply (contains_here ".tar" "").
Qed.

Lemma elem_of_iterdir fs dest item :
  item ∈ iterdir fs dest ↔ is_child_of dest item ∧ is_Some (fs !! item).
Proof.
  unfold iterdir. rewrite list_elem_of_filter, list_elem_of_fmap. split.
  - intros [Hc ([q x] & -> & Hin)]. split; [done|].
    apply elem_of_map_to_list in Hin. by exists x.
  - intros [Hc [x Hx]]. split; [done|]. exists (item, x).
    split; [done|]. by apply elem_of_map_to_list.
Qed.

Lemma startswith_true pre s :
  startswith pre s = true ↔ ∃ rest, s = pre +:+ rest.
Proof.
  unfold startswith. split.
  - destruct (strip_prefix pre s) as [rest|] eqn:E; [|done].
    intros _. exists rest. by apply strip_prefix_Some.
  - intros [rest ->]. by rewrite strip_prefix_app.
Qed.

Lemma contains_true sub s :
  contains sub s = true ↔ ∃ a b, s = a +:+ sub +:+ b.
Proof.
  split.
  - induction s as [|c s IH]; cbn [contains].
    + rewrite orb_false_r. intros [rest ->]%startswith_true. by exists "", rest.
    + intros [[rest ->]%startswith_true|Hs]%orb_true_iff;
        [by exists "", rest|].
      destruct (IH Hs) as (a & b & ->). by exists (String c a), b.
  - intros (a & b & ->). apply contains_app_r, contains_here.
Qed.

Lemma skipped_name_true ext name :
  skipped_name ext name ↔ tar_skips ext name = true.
Proof.
  unfold skipped_name, tar_skips.
  rewrite andb_true_iff, orb_true_iff, startswith_true, contains_true.
  split; intros [Hpre Hrest]; (split; [done|]);
    destruct Hrest as [Htar|Hext]; [by left| |by left|].
  - right. destruct Hext as [a ->]. apply ends_with_app.
  - right. by apply ends_with_true.
Qed.

(** The loop that fills the tarball takes in exactly the entries of the
    destination whose name the test lets through: every entry but those
    whose name starts with [backup-] and has [.tar] in it or ends with
    [.<ext>].  So no archive of an earlier run, whatever its compression,
    and not the tarball that is being written is taken in, and every
    entry whose name does not start with [backup-] is. *)
Theorem tar_members_leave_archives_out (fs : filesystem) (dest : ppath)
    (k : archive_kind) (item : ppath) :
  (item ∈ tar_members fs dest k ↔
     is_child_of dest item ∧ is_Some (fs !! item) ∧
     ¬ skipped_name (archive_ext k) (path_name item)) ∧
  (item ∈ tar_members fs dest k →
     is_child_of dest item ∧ is_Some (fs !! item) ∧
     (∀ ext, matches_backup ext (path_name item) = false) ∧
     (∀ stamp, path_name item ≠ archive_name stamp k) ∧
     (∀ stamp, path_name item ≠ tar_name stamp)) ∧
  (is_child_of dest item → is_Some (fs !! item) →
     startswith "backup-" (path_name item) = false →
     item ∈ tar_members fs dest k).
Proof.
  unfold tar_members. rewrite list_elem_of_filter, elem_of_iterdir.
  split_and!.
  - rewrite skipped_name_true, not_true_iff_false. tauto.
  - intros [Hskip [Hc Hs]]. split_and!; [done..| | |].
    + intros ext. destruct (matches_backup ext (path_name item)) eqn:E;
        [|done].
      apply (tar_skips_archive _ (archive_ext k)) in E. congruence.
    + intros stamp Heq.
      assert (matches_backup (archive_ext k) (path_name item) = true) as E.
      { rewrite Heq. apply matches_backup_true. by exists stamp. }
      apply (tar_skips_archive _ (archive_ext k)) in E. congruence.
    + intros stamp Heq. rewrite Heq, tar_skips_tar_name in Hskip. done.
  - intros Hc Hs Hstart. split; [|done]. unfold tar_skips.
    by rewrite Hstart.
Qed.

Lemma tar_members_leave_archives_out_witness :
  let dest := PPath Root ["data"] in
  let fs : filesystem :=
    {[ dest := Dir; PPath Root ["data"; "cluster"] := Dir;
       PPath Root ["data"; "backup-notes.txt"] := File (Document [] []);
       PPath Root ["data"; "backup-20240101-000000.tar.gz"]
         := File (Document [] []) ]} in
  PPath Root ["data"; "backup-notes.txt"] ∈ tar_members fs dest Gz.
Proof.
  cbv zeta.
  refine (proj2 (proj1 (tar_members_leave_archives_out _ (PPath Root ["data"])
                          Gz (PPath Root ["data"; "backup-notes.txt"])))
            (conj _ (conj _ _))).
  - split; [discriminate | reflexivity].
  - vm_compute. by eexists.
  - by rewrite skipped_name_true.
Defined.

Lemma archive_name_other_kind stamp k k' :
  k' ≠ k → matches_backup (archive_ext k) (archive_name stamp k') = false.
Proof.
  intros Hne. unfold matches_backup, archive_name.
  rewrite strip_prefix_app. unfold ends_with. rewrite (string_rev_app stamp).
  destruct k, k'; try done; vm_compute; reflexivity.
Qed.

(** Rotation looks at one compression type only: the archive of the run
    does match its pattern, so that the comparison of paths alone keeps it,
    and an archive made with another type is never deleted, however old it
    is. *)
Theorem rotation_is_per_archive_type
    (st_mtime : ppath → Z) (localtime : Z → result Z) (dest : ppath)
    (k k' : archive_kind)
    (archive_path : ppath) (now archive_rotate_days : Z) (w : world)
    (p : ppath) (stamp : string) :
  matches_backup (archive_ext k) (archive_name stamp k) = true ∧
  (k' ≠ k → path_name p = archive_name stamp k' →
   w_fs (rotate_archives st_mtime localtime dest k archive_path now
           archive_rotate_days w).1 !! p
   = w_fs w !! p).
Proof.
  split.
  - apply matches_backup_true. by exists stamp.
  - intros Hne Hname.
    destruct (rotate_archives_only_deleted st_mtime localtime dest k
                archive_path now archive_rotate_days w p)
      as [E|[((_ & Hm) & _) _]]; [done|].
    rewrite Hname, archive_name_other_kind in Hm; done.
Qed.

Lemma rotation_is_per_archive_type_witness :
  let p := PPath Root ["data"; "backup-20240101-000000.tar.xz"] in
  let w := World [] {[ PPath Root ["data"] := Dir;
                       p := File (Document [] []) ]} [] in
  w_fs (rotate_archives (λ _, 0%Z) utc_clock (PPath Root ["data"]) Gz
          (PPath Root ["data"; "backup-20240109-000000.tar.gz"]) 691200 7
          w).1 !! p
  = w_fs w !! p.
Proof.
  cbv zeta.
  refine (proj2 (rotation_is_per_archive_type (λ _, 0%Z) utc_clock
                   (PPath Root ["data"]) Gz Xz
                   (PPath Root ["data"; "backup-20240109-000000.tar.gz"])
                   691200 7 _
                   (PPath Root ["data"; "backup-20240101-000000.tar.xz"])
                   "20240101-000000") _ _).
  - discriminate.
  - reflexivity.
Defined.

(** ** What the user sees of a failed unit *)

Lemma shown_app silent l1 l2 :
  shown silent (l1 ++ l2) = shown silent l1 ++ shown silent l2.
Proof. unfold shown. apply omap_app. Qed.

Lemma shown_failure silent e ad new :
  failure_logged e ad new →
  shown silent new
  = match e with
    | ApiException status =>
        if decide (status = 403%Z)
        then [(handler_stream silent, "WARNING: " +:+ ad)]
        else []
    | _ => []
    end.
Proof.
  unfold failure_logged. destruct e as [status| | | |];
    try (intros [msg ->]; by destruct silent).
  destruct (decide (status = 403%Z)); [intros ->; by destruct silent|].
  destruct (decide (status = 404%Z)); [by intros ->|].
  intros [msg ->]. by destruct silent.
Qed.

(** Of a unit whose list call fails the user sees one line, [WARNING:
    Access denied to ...], when the status is 403, on the standard output
    or, in silent mode, on the standard error; for every other failure
    nothing is written at all, the debug entries being below the level of
    the handler in both modes. *)
Theorem failed_unit_output
    (format_value : heap → pyval → string)
    (call_k8s_api : string → heap → heap * result pyval)
    (str_exn : exn → string) (silent : bool) :
  (∀ ns r detailed dest w h e,
     call_k8s_api (namespaced_list_path ns r) (w_heap w) = (h, Raise e) →
     shown silent
       (w_log (dump_namespaced_unit format_value call_k8s_api str_exn ns r
                 detailed dest w).1)
     = shown silent (w_log w) ++
       match e with
       | ApiException status =>
           if decide (status = 403%Z)
           then [(handler_stream silent,
                  "WARNING: Access denied to " +:+ res_name r
                  +:+ " in namespace=" +:+ ns)]
           else []
       | _ => []
       end) ∧
  (∀ r detailed dest w h e,
     call_k8s_api (cluster_list_path r) (w_heap w) = (h, Raise e) →
     shown silent
       (w_log (dump_cluster_unit format_value call_k8s_api str_exn r detailed
                 dest w).1)
     = shown silent (w_log w) ++
       match e with
       | ApiException status =>
           if decide (status = 403%Z)
           then [(handler_stream silent,
                  "WARNING: Access denied to " +:+ res_name r)]
           else []
       | _ => []
       end).
Proof.
  split.
  - intros ns r detailed dest w h e Hcall.
    destruct (dump_namespaced_unit_failed format_value call_k8s_api str_exn
                ns r detailed dest w h e Hcall) as (new & -> & Hlog).
    cbn [fst w_log]. rewrite shown_app. f_equal.
    by rewrite (shown_failure silent e _ new Hlog).
  - intros r detailed dest w h e Hcall.
    destruct (dump_cluster_unit_failed format_value call_k8s_api str_exn
                r detailed dest w h e Hcall) as (new & -> & Hlog).
    cbn [fst w_log]. rewrite shown_app. f_equal.
    by rewrite (shown_failure silent e _ new Hlog).
Qed.

Lemma failed_unit_output_witness :
  shown true
    (w_log (dump_cluster_unit (λ _ _, "")
              (λ _ h, (h, Raise (ApiException 403))) (λ _, "")
              (Descriptor "" "v1" "nodes" false "Node") false
              (PPath Root ["data"]) (World [] ∅ [])).1)
  = [(Stderr, "WARNING: Access denied to nodes")].
Proof.
  exact (proj2 (failed_unit_output (λ _ _, "")
                  (λ _ h, (h, Raise (ApiException 403))) (λ _, "")
                  true)
           (Descriptor "" "v1" "nodes" false "Node") false
           (PPath Root ["data"]) (World [] ∅ []) []
           (ApiException 403) eq_refl).
Defined.

(** ** The sweep of old folders *)

Lemma is_under_trans p q r : is_under p q → is_under q r → is_under p r.
Proof.
  intros [Ha Hp] [Ha' Hp']. split; [congruence|]. by etrans.
Qed.

Lemma rmtree_dir p w :
  node_at (w_fs w) p = Some Dir →
  rmtree p w
  = (World (w_heap w) (filter (λ kv, ¬ is_under p kv.1) (w_fs w)) (w_log w),
     Ok ()).
Proof.
  intros Hn. unfold rmtree. rewrite bind_run. cbn [get_fs fst snd].
  cbv beta iota. by rewrite Hn.
Qed.

Lemma siblings_not_under repo x item :
  is_child_of repo x → is_child_of repo item → is_under x item → x = item.
Proof.
  intros [Hx Hpx] [Hi Hpi] [Ha Hpre].
  assert (length (p_parts x) = length (p_parts item)) as Hlen.
  { apply (f_equal (λ q, length (p_parts q))) in Hpx, Hpi.
    unfold parent in Hpx, Hpi. cbn [p_parts] in Hpx, Hpi.
    destruct (p_parts x) as [|a xs] using rev_ind; [done|].
    destruct (p_parts item) as [|b ys] using rev_ind; [done|].
    rewrite removelast_last in Hpx, Hpi. rewrite !length_app. cbn. lia. }
  destruct x as [ax px], item as [ai pi]. cbn [p_anchor p_parts] in *.
  f_equal; [done|]. apply prefix_length_eq; [done|lia].
Qed.

Lemma swept_cases fs item : swept fs item ∨ ¬ swept fs item.
Proof.
  unfold swept. destruct (sweep_keeps (path_name item));
    [right; by intros [_ ?]|].
  destruct (node_at fs item) as [[|c]|]; [by left|right..]; by intros [? _].
Qed.

Section SweepFacts.
Variable islink : ppath → bool.

Lemma sweep_item_skip item w :
  ¬ swept (w_fs w) item → sweep_item islink item w = (w, Ok ()).
Proof.
  intros Hno. unfold sweep_item, swept in *.
  destruct (sweep_keeps (path_name item)) eqn:Hk; [done|].
  unfold is_dir. rewrite bind_run. cbv beta iota. rewrite bind_run.
  cbn [get_fs fst snd]. cbv beta iota. cbn [mret M_ret fst snd].
  destruct (node_at (w_fs w) item) as [[|c]|] eqn:Hn; try done.
  by destruct Hno.
Qed.

Lemma sweep_item_link item w :
  swept (w_fs w) item → islink item = true →
  sweep_item islink item w
  = (w, Raise (OtherException
                 "OSError: Cannot call rmtree on a symbolic link")).
Proof.
  intros [Hn Hk] Hlink. unfold sweep_item. rewrite Hk.
  unfold is_dir. rewrite bind_run. cbv beta iota. rewrite bind_run.
  cbn [get_fs fst snd]. cbv beta iota. cbn [mret M_ret fst snd].
  rewrite Hn. rewrite bind_run. unfold rmtree_entry. by rewrite Hlink.
Qed.

Lemma sweep_item_run item w :
  (swept (w_fs w) item → islink item = false) →
  ∃ w', sweep_item islink item w = (w', Ok ()) ∧
        w_heap w' = w_heap w ∧
        (∀ silent, shown silent (w_log w') = shown silent (w_log w)) ∧
        w_fs w' ⊆ w_fs w ∧
        (swept (w_fs w) item → ∀ q, is_under item q → w_fs w' !! q = None) ∧
        (∀ q, w_fs w' !! q ≠ w_fs w !! q →
              swept (w_fs w) item ∧ is_under item q).
Proof.
  intros Hlink.
  destruct (swept_cases (w_fs w) item) as [Hsw|Hno].
  2: { exists w. rewrite sweep_item_skip by done. by split_and!. }
  specialize (Hlink Hsw). destruct Hsw as [Hn Hk].
  unfold sweep_item, swept. rewrite Hk.
  unfold is_dir. rewrite bind_run. cbv beta iota. rewrite bind_run.
  cbn [get_fs fst snd]. cbv beta iota. cbn [mret M_ret fst snd].
  rewrite Hn.
  destruct w as [h fs lg]. cbn [w_fs w_heap w_log] in *.
  rewrite bind_run. unfold rmtree_entry. rewrite Hlink.
  rewrite (rmtree_dir item (World h fs lg) Hn). cbv beta iota.
  eexists. split; [reflexivity|]. cbn [w_fs w_heap w_log].
  split_and!; [done| | | |].
  - intros silent. rewrite shown_app. cbn. by destruct silent; rewrite app_nil_r.
  - apply map_filter_subseteq.
  - intros _ q Hq. apply map_lookup_filter_None. right. intros x _ Hnot.
    by apply Hnot.
  - intros q Hq. split; [done|].
    destruct (decide (is_under item q)) as [|Hno]; [done|]. exfalso.
    apply Hq. destruct (fs !! q) as [x|] eqn:Hx.
    + by apply map_lookup_filter_Some.
    + apply map_lookup_filter_None. by left.
Qed.

Lemma swept_mono fs fs' item :
  fs' ⊆ fs → swept fs' item → swept fs item.
Proof.
  intros Hsub [Hn Hk]. split; [|done]. unfold node_at in *.
  destruct (p_parts item); [done|].
  by eapply lookup_weaken.
Qed.

Lemma sub_lookup_cases (fs' fs : filesystem) (q : ppath) :
  fs' ⊆ fs →
  fs' !! q = fs !! q ∨ (fs' !! q = None ∧ fs' !! q ≠ fs !! q).
Proof.
  intros Hsub. destruct (fs' !! q) as [n|] eqn:Hq'.
  - left. symmetry. by eapply lookup_weaken.
  - destruct (fs !! q); [by right|by left].
Qed.

Lemma sweep_loop (xs : list ppath) (w : world) :
  (∀ item, item ∈ xs → swept (w_fs w) item → islink item = false) →
  ∃ w', for_each xs (sweep_item islink) w = (w', Ok ()) ∧
        w_heap w' = w_heap w ∧
        (∀ silent, shown silent (w_log w') = shown silent (w_log w)) ∧
        w_fs w' ⊆ w_fs w ∧
        (∀ item q, item ∈ xs → swept (w_fs w) item → is_under item q →
                   w_fs w' !! q = None) ∧
        (∀ q, w_fs w' !! q ≠ w_fs w !! q →
              ∃ item, item ∈ xs ∧ swept (w_fs w) item ∧ is_under item q).
Proof.
  revert w. induction xs as [|x xs IH]; intros w Hlinks.
  { exists w. split_and!; try done.
    intros item q Hin. by apply elem_of_nil in Hin. }
  destruct (sweep_item_run x w) as (w1 & Hrun1 & Hh1 & Hl1 & Hs1 & Hgone1 & Hch1).
  { apply Hlinks. by left. }
  destruct (IH w1) as (w' & Hrun & Hh & Hl & Hs & Hgone & Hch).
  { intros item Hin Hsw. apply Hlinks; [by right|].
    by eapply swept_mono. }
  exists w'. split.
  { cbn [for_each]. rewrite bind_run, Hrun1. cbv beta iota. exact Hrun. }
  split_and!.
  - congruence.
  - intros silent. by rewrite Hl, Hl1.
  - by etrans.
  - intros item q Hin Hsw Hq.
    assert (Hnone : w_fs w1 !! q = None → w_fs w' !! q = None).
    { intros Hq1. destruct (w_fs w' !! q) as [n|] eqn:Hq'; [|done].
      by rewrite (lookup_weaken _ _ _ _ Hq' Hs) in Hq1. }
    apply elem_of_cons in Hin as [->|Hin]; [by apply Hnone, Hgone1|].
    destruct (sub_lookup_cases _ _ item Hs1) as [Heq|[_ Hne]].
    + apply (Hgone item q Hin); [|done]. destruct Hsw as [Hn Hk].
      split; [|done]. unfold node_at in *. destruct (p_parts item); [done|].
      by rewrite Heq.
    + destruct (Hch1 item Hne) as [Hswx Hux].
      apply Hnone, Hgone1; [done|]. by eapply is_under_trans.
  - intros q Hq.
    destruct (sub_lookup_cases _ _ q Hs1) as [Heq|[_ Hne]].
    + destruct (Hch q) as (item & Hin & Hsw & Hu); [by rewrite Heq|].
      exists item. split_and!; [by right| |done]. by eapply swept_mono.
    + destruct (Hch1 q Hne) as [Hsw Hu]. exists x. split_and!; [by left|done..].
Qed.

Lemma sweep_loop_link repo (xs : list ppath) : ∀ w item,
  (∀ x, x ∈ xs → is_child_of repo x) →
  item ∈ xs → swept (w_fs w) item → islink item = true →
  (for_each xs (sweep_item islink) w).2
  = Raise (OtherException "OSError: Cannot call rmtree on a symbolic link").
Proof.
  induction xs as [|x xs IH]; intros w item Hchildren Hin Hsw Hlink.
  { by apply elem_of_nil in Hin. }
  cbn [for_each]. rewrite bind_run.
  assert ((swept (w_fs w) x ∧ islink x = true)
          ∨ ¬ (swept (w_fs w) x ∧ islink x = true)) as [[Hswx Hlx]|Hnot].
  { destruct (swept_cases (w_fs w) x) as [?|?], (islink x);
      [by left|right..]; by intros [? ?]. }
  { by rewrite sweep_item_link. }
  destruct (sweep_item_run x w) as (w1 & Hrun1 & _ & _ & _ & _ & Hch1).
  { intros Hswx. destruct (islink x) eqn:Hlx; [|done]. by destruct Hnot. }
  rewrite Hrun1. cbv beta iota.
  apply elem_of_cons in Hin as [->|Hin]; [by destruct Hnot|].
  apply (IH w1 item); [|done| |done].
  { intros y Hy. apply Hchildren. by right. }
  destruct (sub_lookup_cases (w_fs w1) (w_fs w) item) as [Heq|[_ Hne]].
  { destruct (sweep_item_run x w) as (w1' & Hrun1' & _ & _ & Hs & _).
    - intros Hswx. destruct (islink x) eqn:Hlx; [|done]. by destruct Hnot.
    - rewrite Hrun1 in Hrun1'. by injection Hrun1' as <-. }
  - destruct Hsw as [Hn Hk]. split; [|done]. unfold node_at in *.
    destruct (p_parts item); [done|]. by rewrite Heq.
  - destruct (Hch1 item Hne) as [Hswx Hux].
    assert (x = item) as ->.
    { apply (siblings_not_under repo); [apply Hchildren; by left| |done].
      apply Hchildren. by right. }
    destruct Hnot. by split.
Qed.

End SweepFacts.


(** ** Discovery *)

Global Instance quiet_refl : Reflexive quiet.
Proof. by intros w. Qed.

Global Instance quiet_trans : Transitive quiet.
Proof.
  intros w1 w2 w3 [Hf1 Hs1] [Hf2 Hs2]. split; [congruence|].
  intros silent. by rewrite Hs2, Hs1.
Qed.

Lemma D_bind_run {A B} (m : D A) (f : A → D B) acc w :
  (m ≫= f) acc w
  = match m acc w with
    | (acc', w', Ok a) => f a acc' w'
    | (acc', w', Raise e) => (acc', w', Raise e)
    end.
Proof. reflexivity. Qed.

Lemma D_keeps_ret {A} (a : A) : D_keeps (mret a).
Proof. by intros acc w. Qed.

Lemma D_keeps_bind {A B} (m : D A) (f : A → D B) :
  D_keeps m → (∀ a, D_keeps (f a)) → D_keeps (m ≫= f).
Proof.
  intros Hm Hf acc w. rewrite D_bind_run. specialize (Hm acc w).
  destruct (m acc w) as [[acc1 w1] [a|e]]; cbn [fst snd] in *; [|done].
  destruct Hm as [Hq Hs]. destruct (Hf a acc1 w1) as [Hq' Hs'].
  split; [by etrans|auto].
Qed.

Lemma D_keeps_try {A} (m : D A) (handler : exn → D A) :
  D_keeps m → (∀ e, D_keeps (handler e)) → D_keeps (try_except_D m handler).
Proof.
  intros Hm Hh acc w. unfold try_except_D. specialize (Hm acc w).
  destruct (m acc w) as [[acc1 w1] [a|e]]; cbn [fst snd] in *; [done|].
  destruct Hm as [Hq Hs]. destruct (Hh e acc1 w1) as [Hq' Hs'].
  split; [by etrans|auto].
Qed.

Lemma D_keeps_for_each {A} (xs : list A) (body : A → D unit) :
  (∀ x, D_keeps (body x)) → D_keeps (for_each_D xs body).
Proof.
  intros Hbody. induction xs as [|x xs IH]; cbn [for_each_D].
  - apply D_keeps_ret.
  - apply D_keeps_bind; [apply Hbody|]. by intros _.
Qed.

Lemma D_keeps_lift {A} (m : M A) : preserves quiet m → D_keeps (lift m).
Proof.
  intros Hm acc w. unfold lift. specialize (Hm w).
  by destruct (m w) as [w1 r].
Qed.

Lemma D_keeps_if {A} (b : bool) (m1 m2 : D A) :
  D_keeps m1 → D_keeps m2 → D_keeps (if b then m1 else m2).
Proof. by destruct b. Qed.

Lemma D_keeps_append (item : found) :
  in_skipped_groups (f_group item) = false → D_keeps (append_found item).
Proof.
  intros Hg acc w. unfold append_found. split; [done|]. intros [Hns Hcl].
  destruct (truthy (w_heap w) (f_namespaced item)) eqn:Ht;
    split; cbn [fst snd ns_found cluster_found]; try done;
    apply Forall_app; (split; [done|]); apply Forall_singleton;
    (split; [done|]); intros b Hb; rewrite Hb in Ht; cbn in Ht; congruence.
Qed.

Ltac quiet_heap_read :=
  repeat match goal with
         | |- context [match ?v with VNone => _ | _ => _ end] => destruct v
         | |- context [match ?x with [] => _ | _ => _ end] => destruct x
         | |- context [match ?s with EmptyString => _ | _ => _ end] =>
             destruct s
         end;
  try reflexivity;
  rewrite bind_run; cbn [get_heap fst snd]; cbv beta iota;
  repeat match goal with
         | |- context [match ?o with Some _ => _ | None => _ end] => destruct o
         end;
  reflexivity.

Lemma quiet_py_get_or_empty_list v k : preserves quiet (py_get_or_empty_list v k).
Proof. intros w. unfold py_get_or_empty_list. quiet_heap_read. Qed.

Lemma quiet_py_get_default v k dflt : preserves quiet (py_get_default v k dflt).
Proof. intros w. unfold py_get_default. quiet_heap_read. Qed.

Lemma quiet_py_get v k : preserves quiet (py_get v k).
Proof. intros w. unfold py_get. quiet_heap_read. Qed.

Lemma quiet_py_getitem v k : preserves quiet (py_getitem v k).
Proof. intros w. unfold py_getitem. quiet_heap_read. Qed.

Lemma quiet_py_first v : preserves quiet (py_first v).
Proof. intros w. unfold py_first. quiet_heap_read. Qed.

Lemma quiet_py_iter v : preserves quiet (py_iter v).
Proof. intros w. unfold py_iter. quiet_heap_read. Qed.

Lemma quiet_py_str_in s v : preserves quiet (py_str_in s v).
Proof. intros w. unfold py_str_in. quiet_heap_read. Qed.

Lemma quiet_py_truthy v : preserves quiet (py_truthy v).
Proof. by intros w. Qed.

Lemma quiet_py_format format_value v : preserves quiet (py_format format_value v).
Proof. by intros w. Qed.

Lemma quiet_py_get_or_new v k : preserves quiet (py_get_or_new v k).
Proof.
  intros w. unfold py_get_or_new. destruct v; try reflexivity.
  rewrite bind_run. cbn [get_heap fst snd]. cbv beta iota.
  destruct (w_heap w !! l) as [d|]; [|reflexivity].
  by destruct (dict_get k d).
Qed.

Lemma quiet_api_call call_k8s_api path :
  preserves quiet (api_call call_k8s_api path).
Proof.
  intros w. unfold api_call. by destruct (call_k8s_api path (w_heap w)).
Qed.

Lemma quiet_log_debug msg : preserves quiet (log DEBUG msg).
Proof.
  intros w. split; [done|]. intros silent. cbn [log fst w_log].
  rewrite shown_app. cbn. by destruct silent; rewrite app_nil_r.
Qed.

Lemma quiet_group_version format_value g v :
  preserves quiet (group_version format_value g v).
Proof. by intros w. Qed.

Section DiscoveryFacts.
Variable format_value : heap → pyval → string.
Variable call_k8s_api : string → heap → heap * result pyval.
Variable str_exn : exn → string.

Lemma scan_resources_keeps group_name version res_list :
  in_skipped_groups group_name = false →
  D_keeps (scan_resources group_name version res_list).
Proof.
  intros Hg. unfold scan_resources.
  apply D_keeps_bind; [apply D_keeps_lift, quiet_py_get_or_empty_list|].
  intros resources.
  apply D_keeps_bind; [apply D_keeps_lift, quiet_py_iter|]. intros xs.
  apply D_keeps_for_each. intros res.
  apply D_keeps_bind; [apply D_keeps_lift, quiet_py_get_or_empty_list|].
  intros verbs.
  apply D_keeps_bind; [apply D_keeps_lift, quiet_py_str_in|]. intros listed.
  apply D_keeps_if; [|apply D_keeps_ret].
  apply D_keeps_bind; [apply D_keeps_lift, quiet_py_getitem|]. intros name.
  apply D_keeps_bind; [apply D_keeps_lift, quiet_py_get_default|].
  intros namespaced.
  apply D_keeps_bind; [apply D_keeps_lift, quiet_py_get_default|].
  intros kind. by apply D_keeps_append.
Qed.

Lemma scan_group_keeps group :
  D_keeps (scan_group format_value call_k8s_api str_exn group).
Proof.
  unfold scan_group.
  apply D_keeps_bind; [apply D_keeps_lift, quiet_py_get_or_empty_list|].
  intros versions.
  apply D_keeps_bind; [apply D_keeps_lift, quiet_py_truthy|]. intros some.
  apply D_keeps_if; [apply D_keeps_ret|].
  apply D_keeps_bind; [apply D_keeps_lift, quiet_py_get_or_new|]. intros pref.
  apply D_keeps_bind; [apply D_keeps_lift, quiet_py_get|]. intros pref_ver.
  apply D_keeps_bind; [apply D_keeps_lift, quiet_py_truthy|]. intros given.
  apply D_keeps_bind.
  { apply D_keeps_if; [apply D_keeps_ret|].
    apply D_keeps_bind; [apply D_keeps_lift, quiet_py_first|]. intros first.
    apply D_keeps_lift, quiet_py_getitem. }
  intros version.
  apply D_keeps_bind; [apply D_keeps_lift, quiet_py_getitem|].
  intros group_name.
  destruct (in_skipped_groups group_name) eqn:Hg; [apply D_keeps_ret|].
  apply D_keeps_try.
  - apply D_keeps_bind; [apply D_keeps_lift, quiet_group_version|]. intros gv.
    apply D_keeps_bind; [apply D_keeps_lift, quiet_api_call|]. intros res_list.
    by apply scan_resources_keeps.
  - intros e.
    apply D_keeps_bind; [apply D_keeps_lift, quiet_group_version|]. intros gv.
    apply D_keeps_lift, quiet_log_debug.
Qed.

Lemma discover_keeps : D_keeps (discover format_value call_k8s_api str_exn).
Proof.
  unfold discover. apply D_keeps_bind; [|intros _]; apply D_keeps_try.
  - apply D_keeps_bind; [apply D_keeps_lift, quiet_api_call|]. intros core.
    by apply scan_resources_keeps.
  - intros e. apply D_keeps_lift, quiet_log_debug.
  - apply D_keeps_bind; [apply D_keeps_lift, quiet_api_call|]. intros groups.
    apply D_keeps_bind; [apply D_keeps_lift, quiet_py_get_or_empty_list|].
    intros gl.
    apply D_keeps_bind; [apply D_keeps_lift, quiet_py_iter|]. intros xs.
    apply D_keeps_for_each, scan_group_keeps.
  - intros e. apply D_keeps_lift, quiet_log_debug.
Qed.

Lemma try_log_returns (m : D unit) (msg : exn → string) acc w :
  (try_except_D m (λ e, lift (log DEBUG (msg e))) acc w).2 = Ok ().
Proof.
  unfold try_except_D. by destruct (m acc w) as [[acc1 w1] [[]|e]].
Qed.

Lemma discover_returns acc w :
  (discover format_value call_k8s_api str_exn acc w).2 = Ok ().
Proof.
  unfold discover. rewrite D_bind_run.
  match goal with
  | |- context [try_except_D ?m (λ e, lift (log DEBUG (?a +:+ str_exn e))) acc w] =>
      pose proof (try_log_returns m (λ e, a +:+ str_exn e) acc w) as H1;
      destruct (try_except_D m (λ e, lift (log DEBUG (a +:+ str_exn e))) acc w)
        as [[acc1 w1] r1]
  end.
  cbn [snd] in H1. subst r1. apply try_log_returns.
Qed.

Lemma discover_resources_run w :
  ∃ ns cls w',
    discover_resources format_value call_k8s_api str_exn w = (w', Ok (ns, cls)) ∧
    quiet w w' ∧ Forall found_ns_ok ns ∧ Forall found_cluster_ok cls.
Proof.
  unfold discover_resources.
  pose proof (discover_returns (FoundLists [] []) w) as Hret.
  destruct (discover_keeps (FoundLists [] []) w) as [Hq Hs].
  destruct (discover format_value call_k8s_api str_exn (FoundLists [] []) w)
    as [[acc w'] r]. cbn [fst snd] in *. subst r.
  destruct Hs as [Hns Hcl]; [by split|].
  by exists (ns_found acc), (cluster_found acc), w'.
Qed.

End DiscoveryFacts.

(** Discovery always returns, whatever the API answers or raises and
    whatever the shape of its answers; it touches no file, and none of its
    log entries reaches the user: a failed discovery is an empty list and
    silence. *)
Theorem discover_resources_returns_quietly
    (format_value : heap → pyval → string)
    (call_k8s_api : string → heap → heap * result pyval)
    (str_exn : exn → string) (w : world) :
  ∃ ns cls w',
    discover_resources format_value call_k8s_api str_exn w = (w', Ok (ns, cls)) ∧
    w_fs w' = w_fs w ∧
    ∀ silent, shown silent (w_log w') = shown silent (w_log w).
Proof.
  destruct (discover_resources_run format_value call_k8s_api str_exn w)
    as (ns & cls & w' & Hrun & [Hfs Hsh] & _).
  by exists ns, cls, w'.
Qed.

Lemma in_skipped_groups_false g name :
  in_skipped_groups g = false → name ∈ skipped_groups → g ≠ VStr name.
Proof.
  intros Hg Hin ->. unfold skipped_groups in Hin.
  repeat (apply elem_of_cons in Hin as [->|Hin]); [done..|].
  by apply elem_of_nil in Hin.
Qed.

(** No resource of the groups [metrics.k8s.io] and [node.k8s.io] is ever
    discovered, and the two lists are sorted by the flag: a tuple whose
    [namespaced] is [True] is in the first list only, one whose flag is
    [False] in the second only. *)
Theorem discovered_resources_sorted
    (format_value : heap → pyval → string)
    (call_k8s_api : string → heap → heap * result pyval)
    (str_exn : exn → string) (w w' : world) (ns cls : list found) :
  discover_resources format_value call_k8s_api str_exn w = (w', Ok (ns, cls)) →
  (∀ item name, item ∈ ns ++ cls → name ∈ skipped_groups →
                f_group item ≠ VStr name) ∧
  (∀ item, item ∈ ns → f_namespaced item ≠ VBool false) ∧
  (∀ item, item ∈ cls → f_namespaced item ≠ VBool true).
Proof.
  intros Hrun.
  destruct (discover_resources_run format_value call_k8s_api str_exn w)
    as (ns' & cls' & w'' & Hrun' & _ & Hns & Hcl).
  rewrite Hrun in Hrun'. injection Hrun' as -> <- <-.
  rewrite Forall_forall in Hns, Hcl. split_and!.
  - intros item name Hin Hname. apply in_skipped_groups_false; [|done].
    apply elem_of_app in Hin as [Hin|Hin]; [by apply Hns|by apply Hcl].
  - intros item Hin Hb. by specialize (proj2 (Hns item Hin) false Hb).
  - intros item Hin Hb. by specialize (proj2 (Hcl item Hin) true Hb).
Qed.

Lemma discovered_resources_sorted_witness :
  let ns := [Found (VStr "") (VStr "v1") (VStr "pods") (VBool true) (VStr "Pod");
             Found (VStr "apps") (VStr "v1") (VStr "deployments") (VBool true)
               (VStr "Deployment")] in
  let cls := [Found (VStr "") (VStr "v1") (VStr "nodes") (VBool false)
                (VStr "Node")] in
  (∀ item name, item ∈ ns ++ cls → name ∈ skipped_groups →
                f_group item ≠ VStr name) ∧
  (∀ item, item ∈ ns → f_namespaced item ≠ VBool false) ∧
  (∀ item, item ∈ cls → f_namespaced item ≠ VBool true).
Proof.
  cbv zeta.
  exact (discovered_resources_sorted (λ _ _, "") sample_discovery (λ _, "")
           (World [] ∅ []) _ _ _ eq_refl).
Defined.

(** ** Failures inside the loop over the groups *)

Lemma reads_py_get_or_empty_list v k : reads (py_get_or_empty_list v k).
Proof. intros w. unfold py_get_or_empty_list. quiet_heap_read. Qed.

Lemma reads_py_get v k : reads (py_get v k).
Proof. intros w. unfold py_get. quiet_heap_read. Qed.

Lemma reads_py_getitem v k : reads (py_getitem v k).
Proof. intros w. unfold py_getitem. quiet_heap_read. Qed.

Lemma reads_py_first v : reads (py_first v).
Proof. intros w. unfold py_first. quiet_heap_read. Qed.

Lemma reads_py_truthy v : reads (py_truthy v).
Proof. by intros w. Qed.

Lemma lift_reads {A} (m : M A) acc w :
  reads m → lift m acc w = (acc, w, (m w).2).
Proof.
  intros Hm. unfold lift. specialize (Hm w). by destruct (m w) as [w1 r]; subst.
Qed.

Lemma py_get_or_empty_list_run w l d k :
  w_heap w !! l = Some d →
  py_get_or_empty_list (VRef l) k w
  = (w, Ok (default (VList []) (dict_get k d))).
Proof.
  intros Hl. unfold py_get_or_empty_list. rewrite bind_run.
  cbn [get_heap fst snd]. cbv beta iota. by rewrite Hl.
Qed.

Lemma py_getitem_run w l d k :
  w_heap w !! l = Some d →
  py_getitem (VRef l) k w
  = (w, match dict_get k d with
        | Some x => Ok x
        | None => Raise (OtherException "KeyError")
        end).
Proof.
  intros Hl. unfold py_getitem. rewrite bind_run.
  cbn [get_heap fst snd]. cbv beta iota. rewrite Hl. by destruct (dict_get k d).
Qed.

Lemma py_get_or_new_cases w l d k :
  w_heap w !! l = Some d →
  ∃ w1 pref,
    py_get_or_new (VRef l) k w = (w1, Ok pref) ∧
    w_fs w1 = w_fs w ∧ w_log w1 = w_log w ∧
    (w_heap w1 = w_heap w ∨ w_heap w1 = w_heap w ++ [[]]) ∧
    w_heap w1 !! l = Some d ∧
    (∀ x, dict_get k d = Some x → w1 = w ∧ pref = x).
Proof.
  intros Hl. unfold py_get_or_new. rewrite bind_run.
  cbn [get_heap fst snd]. cbv beta iota. rewrite Hl.
  destruct (dict_get k d) as [x|].
  - exists w, x. split_and!; try done; [by left|]. by intros ? [= ->].
  - eexists _, _. split; [reflexivity|]. cbn [w_fs w_log w_heap].
    split_and!; try done; [by right|]. by apply lookup_app_l_Some.
Qed.

Section GroupLoop.
Variable format_value : heap → pyval → string.
Variable call_k8s_api : string → heap → heap * result pyval.
Variable str_exn : exn → string.

Lemma scan_group_without_name acc w l d vs :
  w_heap w !! l = Some d →
  dict_get "versions" d = Some vs → truthy (w_heap w) vs = true →
  dict_get "name" d = None →
  ∃ w' e,
    scan_group format_value call_k8s_api str_exn (VRef l) acc w
    = (acc, w', Raise e) ∧
    w_fs w' = w_fs w ∧ w_log w' = w_log w ∧
    (w_heap w' = w_heap w ∨ w_heap w' = w_heap w ++ [[]]).
Proof.
  intros Hl Hvs Ht Hname. unfold scan_group.
  rewrite D_bind_run, (lift_reads _ _ _ (reads_py_get_or_empty_list _ _)).
  rewrite (py_get_or_empty_list_run w l d) by done. cbn [snd].
  rewrite Hvs. change (default (VList []) (Some vs)) with vs.
  rewrite D_bind_run, (lift_reads _ _ _ (reads_py_truthy _)).
  rewrite py_truthy_run. cbn [snd]. rewrite Ht. cbn [negb]. rewrite D_bind_run.
  destruct (py_get_or_new_cases w l d "preferredVersion" Hl)
    as (w1 & pref & Hrun & Hfs & Hlog & Hheap & Hl1 & _).
  unfold lift at 1. rewrite Hrun.
  assert (Hend : ∀ version : pyval,
    (lift (py_getitem (VRef l) "name") ≫= λ group_name : pyval,
       if in_skipped_groups group_name then pass_D
       else
         try_except_D
           (gv ← lift (group_version format_value group_name version);
            res_list ← lift (api_call call_k8s_api ("/apis/" +:+ gv));
            scan_resources group_name version res_list)
           (λ e,
              gv ← lift (group_version format_value group_name version);
              lift (log DEBUG ("Skip " +:+ gv +:+ ": " +:+ str_exn e))))
      acc w1
    = (acc, w1, Raise (OtherException "KeyError"))).
  { intros version. rewrite D_bind_run.
    rewrite (lift_reads _ _ _ (reads_py_getitem _ _)).
    rewrite (py_getitem_run w1 l d) by done. cbn [snd]. by rewrite Hname. }
  rewrite D_bind_run, (lift_reads _ _ _ (reads_py_get _ _)).
  destruct (py_get pref "version" w1).2 as [pref_ver|e]; [|by eexists _, _].
  rewrite D_bind_run, (lift_reads _ _ _ (reads_py_truthy _)).
  rewrite py_truthy_run. cbn [snd].
  destruct (truthy (w_heap w1) pref_ver).
  - rewrite D_bind_run. cbn [mret D_ret]. rewrite Hend. by eexists _, _.
  - rewrite D_bind_run, D_bind_run.
    rewrite (lift_reads _ _ _ (reads_py_first _)).
    destruct (py_first vs w1).2 as [first|e]; [|by eexists _, _].
    rewrite (lift_reads _ _ _ (reads_py_getitem _ _)).
    destruct (py_getitem first "version" w1).2 as [version|e];
      [|by eexists _, _].
    rewrite Hend. by eexists _, _.
Qed.

End GroupLoop.

Lemma not_in_skipped_groups g :
  g ∉ skipped_groups → in_skipped_groups (VStr g) = false.
Proof.
  intros Hg. unfold in_skipped_groups, skipped_groups in *. cbn.
  rewrite !bool_decide_eq_false_2; [done|..]; intros ->; apply Hg;
    repeat constructor.
Qed.

(** An entry of the group list that lists versions but has no [name] ends
    the loop over the groups with an exception: the entries after it are
    not looked at, no API call is made for it, and the lists, the files and
    the log are as they were. *)
Theorem group_without_name_ends_discovery
    (format_value : heap → pyval → string)
    (call_k8s_api : string → heap → heap * result pyval)
    (str_exn : exn → string)
    (rest : list pyval) (acc : found_lists) (w : world)
    (l : loc) (d : dict) (vs : pyval) :
  w_heap w !! l = Some d →
  dict_get "versions" d = Some vs → truthy (w_heap w) vs = true →
  dict_get "name" d = None →
  ∃ w' e,
    for_each_D (VRef l :: rest)
      (scan_group format_value call_k8s_api str_exn) acc w
    = (acc, w', Raise e) ∧
    w_fs w' = w_fs w ∧ w_log w' = w_log w ∧
    (w_heap w' = w_heap w ∨ w_heap w' = w_heap w ++ [[]]).
Proof.
  intros Hl Hvs Ht Hname.
  destruct (scan_group_without_name format_value call_k8s_api str_exn
              acc w l d vs Hl Hvs Ht Hname) as (w' & e & Hrun & Hrest).
  exists w', e. split; [|done].
  cbn [for_each_D]. by rewrite D_bind_run, Hrun.
Qed.

Lemma group_without_name_ends_discovery_witness :
  ∃ w' e,
    for_each_D [VRef 0; VRef 1]
      (scan_group (λ _ _, "") sample_discovery (λ _, ""))
      (FoundLists [] [])
      (World [[("versions", VList [VStr "v1"])];
              [("name", VStr "apps"); ("versions", VList [VStr "v1"])]] ∅ [])
    = (FoundLists [] [], w', Raise e) ∧
    w_fs w' = ∅ ∧ w_log w' = [] ∧
    (w_heap w' = [[("versions", VList [VStr "v1"])];
                  [("name", VStr "apps"); ("versions", VList [VStr "v1"])]] ∨
     w_heap w' = [[("versions", VList [VStr "v1"])];
                  [("name", VStr "apps"); ("versions", VList [VStr "v1"])]]
                 ++ [[]]).
Proof.
  exact (group_without_name_ends_discovery (λ _ _, "") sample_discovery
           (λ _, "") [VRef 1] (FoundLists [] [])
           (World [[("versions", VList [VStr "v1"])];
                   [("name", VStr "apps"); ("versions", VList [VStr "v1"])]]
              ∅ [])
           0 [("versions", VList [VStr "v1"])] (VList [VStr "v1"])
           eq_refl eq_refl eq_refl eq_refl).
Defined.

(** When the call for the resources of a well-formed group fails, the
    group is passed over: nothing is appended, one debug entry [Skip
    <group>/<version>: ...] is logged, and the loop goes on with the
    entries that follow, in the store the failed call left. *)
Theorem failed_group_call_is_skipped
    (format_value : heap → pyval → string)
    (call_k8s_api : string → heap → heap * result pyval)
    (str_exn : exn → string)
    (rest : list pyval) (acc : found_lists) (w : world)
    (l : loc) (g v : string) (h' : heap) (e : exn) :
  group_entry (w_heap w) l g v →
  g ∉ skipped_groups →
  call_k8s_api ("/apis/" +:+ g +:+ "/" +:+ v) (w_heap w) = (h', Raise e) →
  for_each_D (VRef l :: rest)
    (scan_group format_value call_k8s_api str_exn) acc w
  = for_each_D rest (scan_group format_value call_k8s_api str_exn) acc
      (World h' (w_fs w)
         (w_log w ++ [(DEBUG, "Skip " +:+ g +:+ "/" +:+ v +:+ ": "
                              +:+ str_exn e)])).
Proof.
  intros (d & vs & lp & dp & Hl & Hname & Hvs & Ht & Hpref & Hlp & Hver & Hv)
         Hg Hcall.
  cbn [for_each_D]. rewrite D_bind_run.
  assert (scan_group format_value call_k8s_api str_exn (VRef l) acc w
          = (acc, World h' (w_fs w)
                    (w_log w ++ [(DEBUG, "Skip " +:+ g +:+ "/" +:+ v +:+ ": "
                                         +:+ str_exn e)]), Ok ())) as ->;
    [|done].
  unfold scan_group.
  rewrite D_bind_run, (lift_reads _ _ _ (reads_py_get_or_empty_list _ _)).
  rewrite (py_get_or_empty_list_run w l d) by done. cbn [snd].
  rewrite Hvs. change (default (VList []) (Some vs)) with vs.
  rewrite D_bind_run, (lift_reads _ _ _ (reads_py_truthy _)).
  rewrite py_truthy_run. cbn [snd]. rewrite Ht. cbn [negb].
  rewrite D_bind_run. unfold lift at 1.
  rewrite (py_get_or_new_present w l d "preferredVersion" (VRef lp)) by done.
  rewrite D_bind_run, (lift_reads _ _ _ (reads_py_get _ _)).
  rewrite (py_get_run w lp dp) by done. cbn [snd]. rewrite Hver.
  change (default VNone (Some (VStr v))) with (VStr v).
  rewrite D_bind_run, (lift_reads _ _ _ (reads_py_truthy _)).
  rewrite py_truthy_run. cbn [snd truthy].
  rewrite bool_decide_eq_false_2 by done. cbn [negb].
  rewrite D_bind_run. cbn [mret D_ret].
  rewrite D_bind_run, (lift_reads _ _ _ (reads_py_getitem _ _)).
  rewrite (py_getitem_run w l d) by done. cbn [snd]. rewrite Hname.
  rewrite (not_in_skipped_groups g Hg).
  unfold try_except_D. rewrite D_bind_run.
  change (lift (group_version format_value (VStr g) (VStr v)) acc w)
    with (acc, w, Ok (A:=string) (g +:+ "/" +:+ v)).
  cbv beta iota. rewrite D_bind_run. unfold lift at 1, api_call at 1.
  rewrite Hcall. cbv beta iota. rewrite D_bind_run.
  change (lift (group_version format_value (VStr g) (VStr v)) acc
            (World h' (w_fs w) (w_log w)))
    with (acc, World h' (w_fs w) (w_log w), Ok (A:=string) (g +:+ "/" +:+ v)).
  cbv beta iota. unfold lift, log. cbn [w_heap w_fs w_log].
  do 4 f_equal. by rewrite !string_app_assoc.
Qed.

Lemma failed_group_call_is_skipped_witness :
  let h := [[("name", VStr "batch"); ("versions", VList [VRef 1]);
             ("preferredVersion", VRef 1)];
            [("version", VStr "v1")]] in
  for_each_D [VRef 0] (scan_group (λ _ _, "") sample_discovery (λ _, "404"))
    (FoundLists [] []) (World h ∅ [])
  = (FoundLists [] [], World h ∅ [(DEBUG, "Skip batch/v1: 404")], Ok ()).
Proof.
  cbv zeta.
  refine (failed_group_call_is_skipped (λ _ _, "") sample_discovery
            (λ _, "404") [] (FoundLists [] []) (World _ ∅ []) 0 "batch" "v1"
            _ (ApiException 404) _ _ eq_refl).
  - eexists _, _, _, _. by split_and!.
  - by apply (bool_decide_unpack _).
Defined.

(** ** The destination of a run with [--force-remove] *)

Lemma filter_under_lookup (fs : filesystem) p q :
  filter (λ kv : ppath * node, ¬ is_under p kv.1) fs !! q
  = if decide (is_under p q) then None else fs !! q.
Proof.
  destruct (decide (is_under p q)) as [Hu|Hu].
  - apply map_lookup_filter_None. right. intros x _ Hnot. by apply Hnot.
  - destruct (fs !! q) as [x|] eqn:Hq.
    + by apply map_lookup_filter_Some.
    + apply map_lookup_filter_None. by left.
Qed.

Lemma is_under_refl p : is_under p p.
Proof. by split. Qed.

Lemma parent_not_under p : p_parts p ≠ [] → ¬ is_under p (parent p).
Proof.
  intros Hp [_ Hpre]. apply prefix_length in Hpre. cbn in Hpre.
  destruct (p_parts p) as [|c cs] using rev_ind; [done|].
  rewrite removelast_last, length_app in Hpre. cbn in Hpre. lia.
Qed.

Lemma mkdir_parents_of_os_mkdir p w w' :
  os_mkdir p w = (w', Ok ()) → mkdir_parents p w = (w', Ok ()).
Proof.
  intros H. unfold mkdir_parents.
  assert (PPath (p_anchor p) (reverse (reverse (p_parts p))) = p) as Hself.
  { rewrite reverse_involutive. by destruct p. }
  destruct (reverse (p_parts p)) as [|c rp]; cbn [mkdir_parents_rev];
    rewrite Hself; unfold try_except; by rewrite H.
Qed.

(** With [--force-remove] and no git remote, a destination that is a
    directory is emptied and kept: afterwards it is a directory with
    nothing below it, and what lies outside it is untouched.  A destination
    that is a file makes the run fail, [shutil.rmtree] refusing it. *)
Theorem force_remove_empties_destination (dest : ppath) (w : world) :
  (node_at (w_fs w) dest = Some Dir →
   node_at (w_fs w) (parent dest) = Some Dir →
   ∃ w', prepare_destination true dest w = (w', Ok ()) ∧
         w_heap w' = w_heap w ∧ w_log w' = w_log w ∧
         node_at (w_fs w') dest = Some Dir ∧
         (∀ q, is_under dest q → q ≠ dest → w_fs w' !! q = None) ∧
         (∀ q, ¬ is_under dest q → w_fs w' !! q = w_fs w !! q)) ∧
  (∀ content, node_at (w_fs w) dest = Some (File content) →
              prepare_destination true dest w = (w, Raise (OSError ENOTDIR))).
Proof.
  split.
  - intros Hd Hp. unfold prepare_destination.
    rewrite bind_run, bind_run. unfold path_exists at 1. rewrite bind_run.
    cbn [get_fs fst snd]. cbv beta iota. rewrite Hd.
    cbn [mret M_ret]. cbv beta iota. rewrite (rmtree_dir dest w Hd).
    cbv beta iota.
    set (fs1 := filter (λ kv : ppath * node, ¬ is_under dest kv.1) (w_fs w)).
    destruct (p_parts dest) as [|c cs] eqn:Hparts.
    + rewrite mkdir_parents_again.
      * eexists. split; [reflexivity|]. cbn [w_heap w_fs w_log].
        split_and!; try done.
        -- unfold node_at. by rewrite Hparts.
        -- intros q Hu _. unfold fs1. rewrite filter_under_lookup.
           by rewrite decide_True.
        -- intros q Hu. unfold fs1. rewrite filter_under_lookup.
           by rewrite decide_False.
      * unfold node_at. by rewrite Hparts.
      * unfold node_at, parent. cbn [p_parts]. by rewrite Hparts.
    + assert (Hne : p_parts dest ≠ []) by (by rewrite Hparts).
      assert (Hpar1 : node_at fs1 (parent dest) = Some Dir).
      { unfold node_at in *. destruct (p_parts (parent dest)); [done|].
        unfold fs1. rewrite filter_under_lookup.
        rewrite decide_False by (by apply parent_not_under). done. }
      assert (Hnone : fs1 !! dest = None).
      { unfold fs1. rewrite filter_under_lookup.
        by rewrite decide_True by apply is_under_refl. }
      rewrite (mkdir_parents_of_os_mkdir dest _
                 (World (w_heap w) (<[dest := Dir]> fs1) (w_log w))).
      * eexists. split; [reflexivity|]. cbn [w_heap w_fs w_log].
        split_and!; try done.
        -- by apply node_at_insert_eq.
        -- intros q Hu Hq. rewrite lookup_insert_ne by done.
           unfold fs1. rewrite filter_under_lookup. by rewrite decide_True.
        -- intros q Hu. rewrite lookup_insert_ne.
           ++ unfold fs1. rewrite filter_under_lookup. by rewrite decide_False.
           ++ intros ->. apply Hu, is_under_refl.
      * unfold os_mkdir. rewrite bind_run. cbn [get_fs fst snd w_fs].
        cbv beta iota. rewrite Hparts. cbn [w_fs]. rewrite Hpar1, Hnone.
        reflexivity.
  - intros content Hd. unfold prepare_destination.
    rewrite bind_run, bind_run. unfold path_exists at 1. rewrite bind_run.
    cbn [get_fs fst snd]. cbv beta iota. rewrite Hd.
    cbn [mret M_ret]. cbv beta iota. unfold rmtree. rewrite bind_run.
    cbn [get_fs fst snd]. cbv beta iota. by rewrite Hd.
Qed.

Lemma force_remove_empties_destination_witness :
  let dest := PPath Root ["data"] in
  let w := World [] {[ dest := Dir;
                       PPath Root ["data"; "cluster"] := Dir;
                       PPath Root ["etc"] := Dir ]} [] in
  ∃ w', prepare_destination true dest w = (w', Ok ()) ∧
        w_heap w' = w_heap w ∧ w_log w' = w_log w ∧
        node_at (w_fs w') dest = Some Dir ∧
        (∀ q, is_under dest q → q ≠ dest → w_fs w' !! q = None) ∧
        (∀ q, ¬ is_under dest q → w_fs w' !! q = w_fs w !! q).
Proof.
  cbv zeta.
  exact (proj1 (force_remove_empties_destination (PPath Root ["data"])
                  (World [] {[ PPath Root ["data"] := Dir;
                               PPath Root ["data"; "cluster"] := Dir;
                               PPath Root ["etc"] := Dir ]} []))
           eq_refl eq_refl).
Defined.

(** ** The namespaces given on the command line *)

Lemma string_rev_cons c s :
  String.rev (String c s) = String.rev s +:+ String c "".
Proof. unfold String.rev at 1. cbn [String.rev_app]. apply rev_app_spec. Qed.

Lemma string_app_cons c s t : String c s +:+ t = String c (s +:+ t).
Proof. reflexivity. Qed.

Lemma string_app_nil_inv s t : s +:+ t = "" → s = "" ∧ t = "".
Proof. by destruct s. Qed.

Lemma string_rev_nil_inv s : String.rev s = "" → s = "".
Proof.
  destruct s as [|c s]; [done|]. rewrite string_rev_cons.
  intros H. by apply string_app_nil_inv in H as [_ ?].
Qed.

Lemma lstrip_nonspace c s : is_space c = false → lstrip (String c s) = String c s.
Proof. intros H. cbn [lstrip]. by rewrite H. Qed.

Lemma lstrip_head s c s' : lstrip s = String c s' → is_space c = false.
Proof.
  induction s as [|a s IH]; [done|]. cbn [lstrip].
  destruct (is_space a) eqn:Ha; [done|]. by intros [= <- _].
Qed.

Lemma lstrip_idem s : lstrip (lstrip s) = lstrip s.
Proof.
  destruct (lstrip s) as [|c s'] eqn:Hs; [done|].
  apply lstrip_nonspace. by eapply lstrip_head.
Qed.

Lemma lstrip_split s : ∃ pre, s = pre +:+ lstrip s ∧ all_space pre = true.
Proof.
  induction s as [|c s (pre & IH & Hpre)]; [by exists ""|]. cbn [lstrip].
  destruct (is_space c) eqn:Hc.
  - exists (String c pre). rewrite string_app_cons, <- IH. split; [done|].
    cbn [all_space]. by rewrite Hc.
  - by exists "".
Qed.

Lemma py_strip_idem s : py_strip (py_strip s) = py_strip s.
Proof.
  unfold py_strip. set (t := lstrip s). set (u := lstrip (String.rev t)).
  assert (lstrip (String.rev u) = String.rev u) as ->.
  { destruct (String.rev u) as [|c r'] eqn:Hr; [done|].
    apply lstrip_nonspace.
    destruct (lstrip_split (String.rev t)) as (pre & Hsplit & _).
    fold u in Hsplit. apply (f_equal String.rev) in Hsplit.
    rewrite string_rev_involutive, string_rev_app, Hr in Hsplit.
    apply (lstrip_head t c (r' +:+ String.rev pre)).
    unfold t at 1. rewrite lstrip_idem. by fold t. }
  rewrite string_rev_involutive. unfold u. by rewrite lstrip_idem.
Qed.

Lemma has_char_app c s t : has_char c (s +:+ t) = has_char c s || has_char c t.
Proof.
  induction s as [|a s IH]; [done|]. rewrite string_app_cons. cbn [has_char].
  by destruct (decide (a = c)).
Qed.

Lemma has_char_rev c s : has_char c (String.rev s) = has_char c s.
Proof.
  induction s as [|a s IH]; [done|].
  rewrite string_rev_cons, has_char_app, IH. cbn [has_char].
  destruct (decide (a = c)); [by rewrite orb_true_r|by rewrite orb_false_r].
Qed.

Lemma has_char_lstrip c s : has_char c s = false → has_char c (lstrip s) = false.
Proof.
  intros H. destruct (lstrip_split s) as (pre & Hs & _).
  rewrite Hs, has_char_app in H. by apply orb_false_elim in H as [_ ?].
Qed.

Lemma has_char_strip c s : has_char c s = false → has_char c (py_strip s) = false.
Proof.
  intros H. unfold py_strip. rewrite has_char_rev.
  apply has_char_lstrip. rewrite has_char_rev. by apply has_char_lstrip.
Qed.

Lemma split_on_no_sep sep s :
  Forall (λ part, has_char sep part = false) (split_on sep s).
Proof.
  induction s as [|c s IH]; cbn [split_on]; [by repeat constructor|].
  destruct (decide (c = sep)) as [->|Hc]; [by constructor|].
  destruct (split_on sep s) as [|part parts].
  - repeat constructor. cbn [has_char]. by rewrite decide_False.
  - apply Forall_cons in IH as [Hpart Hparts]. constructor; [|done].
    cbn [has_char]. by rewrite decide_False.
Qed.

Lemma split_on_plain sep n :
  has_char sep n = false → split_on sep n = [n].
Proof.
  induction n as [|c n IH]; [done|]. cbn [has_char split_on].
  destruct (decide (c = sep)); [done|]. intros H. by rewrite IH.
Qed.

Lemma split_on_app sep n s :
  has_char sep n = false →
  split_on sep (n +:+ String sep s) = n :: split_on sep s.
Proof.
  induction n as [|c n IH].
  - intros _. change ("" +:+ String sep s) with (String sep s).
    cbn [split_on]. by rewrite decide_True.
  - cbn [has_char]. destruct (decide (c = sep)); [done|]. intros H.
    rewrite string_app_cons. cbn [split_on]. rewrite decide_False by done.
    by rewrite IH.
Qed.

Lemma split_on_join names :
  names ≠ [] → Forall (λ n, has_char ","%char n = false) names →
  split_on ","%char (join_commas names) = names.
Proof.
  intros Hne Hall. induction Hall as [|n rest Hn Hrest IH]; [done|].
  destruct rest as [|n' rest]; [by apply split_on_plain|].
  change (join_commas (n :: n' :: rest))
    with (n +:+ String ","%char (join_commas (n' :: rest))).
  rewrite split_on_app by done. by rewrite IH.
Qed.

Lemma all_space_app s t : all_space (s +:+ t) = all_space s && all_space t.
Proof.
  induction s as [|c s IH]; [done|]. rewrite string_app_cons. cbn [all_space].
  by rewrite IH, andb_assoc.
Qed.

Lemma all_space_rev s : all_space (String.rev s) = all_space s.
Proof.
  induction s as [|c s IH]; [done|].
  rewrite string_rev_cons, all_space_app, IH. cbn [all_space].
  by rewrite andb_true_r, andb_comm.
Qed.

Lemma lstrip_nil s : lstrip s = "" ↔ all_space s = true.
Proof.
  induction s as [|c s IH]; [done|]. cbn [lstrip all_space].
  by destruct (is_space c).
Qed.

Lemma all_space_lstrip s : all_space (lstrip s) = all_space s.
Proof.
  induction s as [|c s IH]; [done|]. cbn [lstrip].
  destruct (is_space c) eqn:Hc; [|done]. cbn [all_space]. by rewrite Hc.
Qed.

Lemma py_strip_nil s : py_strip s = "" ↔ all_space s = true.
Proof.
  unfold py_strip. split.
  - intros H. apply string_rev_nil_inv, lstrip_nil in H.
    by rewrite all_space_rev, all_space_lstrip in H.
  - intros H. assert (lstrip (String.rev (lstrip s)) = "") as ->; [|done].
    apply lstrip_nil. by rewrite all_space_rev, all_space_lstrip.
Qed.

Lemma clean_name_not_blank n : clean_name n → all_space n = false.
Proof.
  intros (Hne & Hfix & _). apply not_true_iff_false. intros H.
  apply py_strip_nil in H. congruence.
Qed.

Lemma join_commas_not_blank names :
  names ≠ [] → Forall clean_name names → all_space (join_commas names) = false.
Proof.
  intros Hne Hall. destruct Hall as [|n rest Hn _]; [done|].
  apply clean_name_not_blank in Hn.
  destruct rest as [|n' rest]; [done|].
  change (join_commas (n :: n' :: rest))
    with (n +:+ String ","%char (join_commas (n' :: rest))).
  by rewrite all_space_app, Hn.
Qed.

(** Every name of the list that [--namespaces] gives is clean: it is not
    empty, has no comma in it and no blank at either end. *)
Theorem given_namespaces_are_clean (namespaces : string) (names : list string) :
  given_namespaces namespaces = Some names → Forall clean_name names.
Proof.
  unfold given_namespaces. case_bool_decide; [done|]. intros [= <-].
  apply Forall_fmap, Forall_forall. intros n Hin.
  apply list_elem_of_filter in Hin as [Hn Hin]. cbn.
  pose proof (split_on_no_sep ","%char namespaces) as Hparts.
  rewrite Forall_forall in Hparts.
  split_and!; [done|apply py_strip_idem|]. by apply has_char_strip, Hparts.
Qed.

Lemma given_namespaces_are_clean_witness :
  Forall clean_name ["default"; "kube-system"].
Proof.
  exact (given_namespaces_are_clean " default, kube-system,"
           ["default"; "kube-system"] eq_refl).
Defined.

Lemma fmap_fixed {A} (f : A → A) (l : list A) :
  Forall (λ x, f x = x) l → f <$> l = l.
Proof. induction 1 as [|x l Hx _ IH]; [done|]. cbn. by rewrite Hx, IH. Qed.

(** A list of clean names, joined with commas, is read back as it is. *)
Theorem given_namespaces_of_join (names : list string) :
  names ≠ [] → Forall clean_name names →
  given_namespaces (join_commas names) = Some names.
Proof.
  intros Hne Hall. unfold given_namespaces.
  rewrite bool_decide_eq_false_2.
  2: { rewrite py_strip_nil, (join_commas_not_blank names Hne Hall). done. }
  f_equal. rewrite split_on_join.
  - rewrite Forall_forall in Hall.
    rewrite filter_id.
    + apply fmap_fixed, Forall_forall. intros n Hin. apply (Hall n Hin).
    + intros n Hin. destruct (Hall n Hin) as (Hne' & Hfix & _). congruence.
  - done.
  - eapply Forall_impl; [exact Hall|]. by intros n (_ & _ & ?).
Qed.

Lemma given_namespaces_of_join_witness :
  given_namespaces "default,kube-system" = Some ["default"; "kube-system"].
Proof.
  refine (given_namespaces_of_join ["default"; "kube-system"] _ _).
  - discriminate.
  - repeat (constructor; [by split_and!|]). constructor.
Defined.

Lemma comma_not_blank s : has_char ","%char s = true → all_space s = false.
Proof.
  induction s as [|c s IH]; [done|]. cbn [has_char all_space].
  destruct (decide (c = ","%char)) as [->|_]; [done|].
  intros H. by rewrite IH, andb_false_r.
Qed.

Lemma split_on_blanks s :
  blanks_and_commas s = true →
  Forall (λ part, all_space part = true) (split_on ","%char s).
Proof.
  induction s as [|c s IH]; cbn [blanks_and_commas split_on];
    [by repeat constructor|].
  intros [Hc Hs]%andb_true_iff. specialize (IH Hs).
  destruct (decide (c = ","%char)) as [->|Hne]; [by constructor|].
  rewrite bool_decide_eq_false_2, orb_false_r in Hc by done.
  destruct (split_on ","%char s) as [|part parts].
  - repeat constructor. cbn [all_space]. by rewrite Hc.
  - apply Forall_cons in IH as [Hpart Hparts]. constructor; [|done].
    cbn [all_space]. by rewrite Hc.
Qed.

Lemma filter_none {A} (P : A → Prop) `{!∀ x, Decision (P x)} (l : list A) :
  Forall (λ x, ¬ P x) l → filter P l = [].
Proof.
  induction 1 as [|x l Hx _ IH]; [done|]. by rewrite filter_cons_False.
Qed.

(** An argument of blanks and commas with a comma in it names no namespace
    and still counts as given: the list is empty, and the API is not asked
    for the namespaces. *)
Theorem blank_names_give_no_namespace (namespaces : string) :
  blanks_and_commas namespaces = true →
  has_char ","%char namespaces = true →
  given_namespaces namespaces = Some [].
Proof.
  intros Hb Hc. unfold given_namespaces.
  rewrite bool_decide_eq_false_2.
  2: { rewrite py_strip_nil, (comma_not_blank _ Hc). done. }
  f_equal. rewrite filter_none; [done|].
  eapply Forall_impl; [by apply split_on_blanks|].
  intros part Hpart. cbn. intros Hne. apply Hne. by apply py_strip_nil.
Qed.

Lemma blank_names_give_no_namespace_witness :
  given_namespaces " , " = Some [].
Proof.
  exact (blank_names_give_no_namespace " , " eq_refl eq_refl).
Defined.
